(** * Pricing-Intelligence: the orchestration core of [pricing_mcp]

    A shallow embedding of the question-answering pipeline of the MCP
    server ([agent.py]), its completion client ([llm_client.py]), the
    analysis job client ([clients/analysis.py]), the in-process cache
    ([cache.py]) and the two entry points ([http.py], [mcp_server.py]),
    with the properties the specification states about them and further
    properties of the code.

    Conventions.
    - Python values that come out of [json.loads] (the plan, the payloads
      of the collaborators) are [pyval]s. The arguments of the caller
      annotated [Optional[str]] are [option string]s; the reference
      resolved for a request is a [pyval], since the code takes it from
      the plan without a check of its type.
    - A function that can raise returns a [result]; the exception is the
      [Raise] case. A function that logs warnings returns their names
      next to its value.
    - The outside world (the language model, the HTTP peer, the workflow
      collaborator, the wall clock) is an explicit argument: a remote
      peer is a function of the calls made so far, the clock is the
      reading taken by the call.
    - Floats are binary64 ([float]), with the rounding and the special
      values of IEEE 754: the wait that [_poll_job] accumulates, and the
      floats of a JSON value, NaN and the infinities included.
    - The clock readings of the cache and its expiry instants are
      rationals: of [time.time() + ttl] the code looks only at the
      order of instants.
    - The locks and the [await] points are left out: each operation is
      one atomic step. *)

From Stdlib Require Import ZArith QArith Lqa Lia Bool List Floats.
From stdpp Require Import base option list gmap strings.
Import ListNotations.

Set Warnings "-register-all,-inexact-float".

(** ** Python values *)

Module Py.

(** The values [json.loads] produces. A [dict] keeps its insertion
    order, so it is an association list; [get] reads the first binding. *)
Inductive pyval : Type :=
| PNone
| PBool (b : bool)
| PInt (n : Z)
| PFloat (x : float)
| PStr (s : string)
| PList (l : list pyval)
| PDict (d : list (string * pyval)).

Abbreviation pydict := (list (string * pyval)).

(** Truth value testing, as [if x], [not x], [x or y], [bool(x)] do it. *)
Definition truthy (v : pyval) : bool :=
  match v with
  | PNone => false
  | PBool b => b
  | PInt n => negb (n =? 0)%Z
  | PFloat x => negb (x =? 0)%float
  | PStr s => negb (String.eqb s "")
  | PList l => match l with [] => false | _ => true end
  | PDict d => match d with [] => false | _ => true end
  end.

(** [x or y] *)
Definition py_or (x y : pyval) : pyval := if truthy x then x else y.

(** An [Optional[str]] seen as a Python value. *)
Definition of_opt (o : option string) : pyval :=
  match o with Some s => PStr s | None => PNone end.

(** [d.get(key)] and [d.get(key, default)] *)
Fixpoint dict_get (key : string) (d : pydict) : pyval :=
  match d with
  | [] => PNone
  | (k, v) :: d' => if String.eqb k key then v else dict_get key d'
  end.

Fixpoint dict_get_default (key : string) (default : pyval) (d : pydict) : pyval :=
  match d with
  | [] => default
  | (k, v) :: d' => if String.eqb k key then v else dict_get_default key default d'
  end.

(** [d[key]], which raises [KeyError] on a missing key. *)
Fixpoint dict_lookup (key : string) (d : pydict) : option pyval :=
  match d with
  | [] => None
  | (k, v) :: d' => if String.eqb k key then Some v else dict_lookup key d'
  end.

(** Exceptions. [Foreign] stands for whatever a collaborator raises
    (an [httpx] transport or status error, a workflow failure). *)
Inductive exn : Type :=
| ValueError (msg : string)
| TypeError (msg : string)
| KeyError (key : string)
| AttributeError (msg : string)
| AnalysisError (msg : string)
| Foreign (name : string).

Inductive result (A : Type) : Type :=
| Ok (a : A)
| Raise (e : exn).
Arguments Ok {A} a.
Arguments Raise {A} e.

Definition bind {A B} (r : result A) (k : A -> result B) : result B :=
  match r with Ok a => k a | Raise e => Raise e end.

(** What [json.loads] makes of a text: the value it parses to, a
    [JSONDecodeError], or another exception, which the code around the
    parse does not catch (a [RecursionError] on a text nested too deep). *)
Inductive loaded : Type :=
| Parsed (v : pyval)
| JSONDecodeError
| LoadError (e : exn).

End Py.
Export Py.

(** Sequencing of computations that can raise: [x ← c; k]. *)
#[global] Instance result_bind : MBind result := fun A B k r => bind r k.
#[global] Instance result_ret : MRet result := @Ok.

(** Strict order on instants and durations, as a boolean. *)
Definition Qltb (x y : Q) : bool := negb (Qle_bool y x).

(** ** The in-process cache ([cache.py]) *)

Module MemoryCache.

Record CacheEntry : Type := { value : pyval; expires_at : Q }.

(** [MemoryCache.get]: [now] is the reading of [time.time()] taken by the
    call. A [CacheEntry] is a dataclass instance and so always true:
    [not entry] holds only of the [None] that [dict.get] gives for a
    missing key. The result is the returned value ([None] for absent) and
    the store after the call. *)
Definition get (now : Q) (key : string) (_store : gmap string CacheEntry)
  : pyval * gmap string CacheEntry :=
  match _store !! key with
  | None => (PNone, _store)
  | Some entry =>
      if Qltb (expires_at entry) now
      then (PNone, delete key _store)
      else (value entry, _store)
  end.

(** [MemoryCache.set] *)
Definition set (now : Q) (key : string) (v : pyval) (ttl_seconds : Z)
  (_store : gmap string CacheEntry) : gmap string CacheEntry :=
  let expires_at := (now + inject_Z ttl_seconds)%Q in
  <[key := {| value := v; expires_at := expires_at |}]> _store.

End MemoryCache.

(** ** Strings, as the completion client cleans them ([str] methods)

    A string is a sequence of characters with code points below 256. *)

Module Str.

(** [str.isspace] on one character: the white space of the range. *)
Definition isspace (c : Ascii.ascii) : bool :=
  let n := Ascii.N_of_ascii c in
  ((9 <=? n) && (n <=? 13) || (28 <=? n) && (n <=? 32) || (n =? 133) || (n =? 160))%N.

(** The line boundaries of [str.splitlines] other than CR LF. *)
Definition is_linebreak (c : Ascii.ascii) : bool :=
  let n := Ascii.N_of_ascii c in
  ((10 <=? n) && (n <=? 13) || (28 <=? n) && (n <=? 30) || (n =? 133))%N.

Definition LF : Ascii.ascii := Ascii.ascii_of_N 10.
Definition CR : Ascii.ascii := Ascii.ascii_of_N 13.

Fixpoint lstrip (s : string) : string :=
  match s with
  | String c s' => if isspace c then lstrip s' else s
  | EmptyString => EmptyString
  end.

(** [s.strip()] *)
Definition strip (s : string) : string :=
  String.rev (lstrip (String.rev (lstrip s))).

(** [s.startswith(p)] and [s.endswith(p)] *)
Definition startswith (s p : string) : bool := String.prefix p s.
Definition endswith (s p : string) : bool := String.prefix (String.rev p) (String.rev s).

(** [s.splitlines()]: [cur] is the current line, reversed. No empty last
    line is produced after a final line boundary. *)
Fixpoint splitlines_go (cur : string) (s : string) : list string :=
  match s with
  | EmptyString => match cur with EmptyString => [] | _ => [String.rev cur] end
  | String c s' =>
      if Ascii.eqb c CR then
        match s' with
        | String c' s'' =>
            if Ascii.eqb c' LF
            then String.rev cur :: splitlines_go EmptyString s''
            else String.rev cur :: splitlines_go EmptyString s'
        | EmptyString => [String.rev cur]
        end
      else if is_linebreak c then String.rev cur :: splitlines_go EmptyString s'
      else splitlines_go (String c cur) s'
  end.

Definition splitlines (s : string) : list string := splitlines_go EmptyString s.

(** [sep.join(l)] *)
Definition join (sep : string) (l : list string) : string := String.concat sep l.

(** [l[1:-1]] *)
Definition slice_1_m1 {A} (l : list A) : list A := drop 1 (take (length l - 1) l).

(** [s[:n]] *)
Definition take_chars (n : nat) (s : string) : string := String.substring 0 n s.

(** [k in s], for two strings *)
Fixpoint contains (k s : string) : bool :=
  String.prefix k s
  || match s with String _ s' => contains k s' | EmptyString => false end.

(** A text with no line boundary in it. *)
Definition one_line (s : string) : Prop :=
  forall c, In c (String.list_ascii_of_string s) -> is_linebreak c = false.

End Str.

(** [str(v)], as an f-string formats a value. [py_repr] is Python's
    [repr], used for the values whose [str] is their [repr]. *)
Definition py_str (py_repr : pyval -> string) (v : pyval) : string :=
  match v with
  | PStr s => s
  | PNone => "None"
  | PBool true => "True"
  | PBool false => "False"
  | _ => py_repr v
  end.

(** [v == s] for a string literal [s] *)
Definition py_eq_str (v : pyval) (s : string) : bool :=
  match v with PStr s' => String.eqb s' s | _ => false end.

(** ** The analysis job client ([clients/analysis.py]) *)

Module AnalysisClient.

Record AnalysisJobOptions : Type := {
  yaml_content : string;
  operation : string;
  solver : string;
  filters : option pydict;
  objective : option string
}.

Section Client.
(** [repr] and [json.dumps] of the Python library. *)
Variable py_repr : pyval -> string.
Variable json_dumps : pyval -> string.
(** The remote analysis service. [http_post path data file] is the
    decoded body of the reply to the submission; [http_get path k] is
    the decoded body of the reply to the [k]-th status request
    (counted from 0). [Raise] is a transport error, the error that
    [raise_for_status] raises on a non-success status, or a body that
    is no JSON object. *)
Variable http_post : string -> pydict -> string -> result pydict.
Variable http_get : string -> nat -> result pydict.
(** What the event loop does with a timer whose delay is infinite or
    NaN. It depends on the event loop and on the version of the
    library: the timer of an infinite delay does not fire on the
    standard loop, and a NaN delay is a [ValueError] from CPython 3.13
    on. [None] is a sleep that never returns. *)
Variable sleep_unbounded : float -> option (result unit).

(** [asyncio.sleep delay]. A delay of zero or below only yields to the
    event loop and returns; a positive delay below infinity is a timer
    of the event loop, which fires. *)
Definition asyncio_sleep (delay : float) : option (result unit) :=
  if (delay <=? 0)%float then Some (Ok tt)
  else if (delay <? infinity)%float then Some (Ok tt)
  else sleep_unbounded delay.

(** The [while] loop of [_poll_job]. [polls] counts the status
    requests made so far and [elapsed] is the loop variable. The loop
    runs for as long as the remote job is not terminal and the budget
    is not spent, so the model takes [fuel]: [None] means that the
    fuel ran out with the loop still running, or that a sleep never
    returns. The result is the number of status requests made and the
    outcome. *)
Fixpoint poll_loop (fuel : nat) (status_path : string)
  (poll_interval_seconds max_wait_seconds : float) (polls : nat) (elapsed : float)
  : option (nat * result pyval) :=
  match fuel with
  | O => None
  | S fuel' =>
      if (elapsed <? max_wait_seconds)%float then
        match http_get status_path polls with
        | Raise e => Some (S polls, Raise e)
        | Ok payload =>
            let status := dict_get "status" payload in
            if py_eq_str status "COMPLETED" then
              Some (S polls, Ok (dict_get_default "result" (PDict []) payload))
            else if py_eq_str status "FAILED" then
              let error := dict_get "error" payload in
              Some (S polls,
                    Raise (AnalysisError ("Analysis job failed: " +:+ py_str py_repr error)))
            else
              match asyncio_sleep poll_interval_seconds with
              | None => None
              | Some (Raise e) => Some (S polls, Raise e)
              | Some (Ok _) =>
                  poll_loop fuel' status_path poll_interval_seconds max_wait_seconds
                    (S polls) (elapsed + poll_interval_seconds)%float
              end
        end
      else Some (polls, Raise (AnalysisError "Timed out waiting for analysis result"))
  end.

Definition _poll_job (fuel : nat) (job_id : pyval)
  (poll_interval_seconds max_wait_seconds : float) : option (nat * result pyval) :=
  let elapsed := 0%float in
  let status_path := "/api/v1/pricing/analysis/" +:+ py_str py_repr job_id in
  poll_loop fuel status_path poll_interval_seconds max_wait_seconds 0 elapsed.

(** The form fields [data] that [submit_job] builds. *)
Definition job_data (options : AnalysisJobOptions) : pydict :=
  [("operation", PStr (operation options)); ("solver", PStr (solver options))]
  ++ match filters options with
     | Some f => [("filters", PStr (json_dumps (PDict f)))]
     | None => []
     end
  ++ match objective options with
     | Some o => [("objective", PStr o)]
     | None => []
     end.

Definition submit_job (fuel : nat) (options : AnalysisJobOptions)
  (poll_interval_seconds max_wait_seconds : float) : option (nat * result pyval) :=
  let data := job_data options in
  match http_post "/api/v1/pricing/analysis" data (yaml_content options) with
  | Raise e => Some (0, Raise e)
  | Ok payload =>
      match dict_lookup "jobId" payload with
      | None => Some (0, Raise (KeyError "jobId"))
      | Some job_id => _poll_job fuel job_id poll_interval_seconds max_wait_seconds
      end
  end.
End Client.

(** The path polled for a job. *)
Definition status_path (py_repr : pyval -> string) (job_id : pyval) : string :=
  "/api/v1/pricing/analysis/" +:+ py_str py_repr job_id.

(** A status payload that is neither [COMPLETED] nor [FAILED]: the job
    is still running. *)
Definition nonterminal (payload : pydict) : Prop :=
  py_eq_str (dict_get "status" payload) "COMPLETED" = false
  /\ py_eq_str (dict_get "status" payload) "FAILED" = false.

(** The loop variable after [k] more sleeps: [k] additions of the
    interval to [elapsed], each rounded to binary64 as [elapsed +=
    poll_interval_seconds] rounds it. *)
Fixpoint elapsed_from (elapsed poll_interval_seconds : float) (k : nat) : float :=
  match k with
  | O => elapsed
  | S k' => elapsed_from (elapsed + poll_interval_seconds)%float poll_interval_seconds k'
  end.

(** The first [n] status requests fit in the wait budget: before the
    request number [k] the client has slept [k] times, and the loop
    variable it has then is below the budget. *)
Definition within_budget (poll_interval_seconds max_wait_seconds : float) (n : nat)
  : Prop :=
  forall k, k < n ->
    (elapsed_from 0 poll_interval_seconds k <? max_wait_seconds)%float = true.

End AnalysisClient.

(** ** The completion client ([llm_client.py]) *)

Module GeminiClientConfig.
Record t : Type := {
  api_key : string;
  model : string;
  base_url : string;
  temperature : float;
  better_model : option string
}.
End GeminiClientConfig.

Module GeminiOpenAIClient.

Record _LLMGenerationState : Type := {
  prompt : string;
  model : string;
  accumulated : string;
  finish_reason : string;
  use_better_model : bool
}.

(** [range(lo, hi)] *)
Definition range (lo hi : Z) : list Z :=
  map (fun i => (lo + Z.of_nat i)%Z) (seq 0 (Z.to_nat (hi - lo))).

Definition exhausted : exn :=
  ValueError "Could not obtain a complete response from the LLM.".

(** [_normalize_response] *)
Definition _normalize_response (response : string) : string :=
  let stripped := Str.strip response in
  if Str.startswith stripped "```" && Str.endswith stripped "```" then
    let lines := Str.splitlines stripped in
    Str.strip (Str.join (String Str.LF EmptyString) (Str.slice_1_m1 lines))
  else stripped.

(** [_build_continue_prompt] *)
Definition _build_continue_prompt (initial_prompt accumulated : string) : string :=
  let nl := String Str.LF EmptyString in
  "The previous response was truncated. Resume exactly where it stopped." +:+ nl +:+
  "<initial_prompt>" +:+ nl +:+
  initial_prompt +:+ nl +:+
  "</initial_prompt>" +:+ nl +:+
  "<partial_response>" +:+ nl +:+
  accumulated +:+ nl +:+
  "</partial_response>".

Section Client.
Variable _config : GeminiClientConfig.t.
(** [json.loads] and [json.dumps]. *)
Variable json_loads : string -> loaded.
Variable json_dumps : pyval -> string.
(** The remote model behind [_send_prompt]: given the (prompt, model)
    pairs already sent and the pair sent now, the content and the
    finish reason of the first choice (each [""] when missing), or the
    exception of a failed call. *)
Variable _send_prompt :
  list (string * string) -> string -> string -> result (string * string).

(** The request an attempt sends. *)
Definition request_of (state : _LLMGenerationState) : string * string :=
  (prompt state, model state).

(** [_step_generation]. [sent] lists the states of the attempts already
    made, oldest first; the attempt made here is added to it. *)
Definition _step_generation (sent : list _LLMGenerationState)
  (state : _LLMGenerationState)
  : list _LLMGenerationState * result _LLMGenerationState :=
  (sent ++ [state],
   '(response_text, finish_reason) ←
      _send_prompt (map request_of sent) (prompt state) (model state);
   let cleaned := _normalize_response response_text in
   let accumulated := accumulated state +:+ cleaned in
   Ok {| prompt := prompt state;
         model := model state;
         accumulated := accumulated;
         finish_reason := finish_reason;
         use_better_model := use_better_model state |}).

(** [_try_finalize]: the text to return, [None] for an attempt that
    does not finalize, or the exception of a parse that raises another
    exception than the [JSONDecodeError] it catches. *)
Definition _try_finalize (state : _LLMGenerationState) (json_output : bool)
  : result (option string) :=
  if json_output then
    match json_loads (accumulated state) with
    | JSONDecodeError => Ok None
    | LoadError e => Raise e
    | Parsed parsed => Ok (Some (json_dumps parsed))
    end
  else if negb (String.eqb (finish_reason state) "length") then
    Ok (Some (accumulated state))
  else Ok None.

(** [_prepare_retry] *)
Definition _prepare_retry (state : _LLMGenerationState) (initial_prompt : string)
  : _LLMGenerationState :=
  if truthy (of_opt (GeminiClientConfig.better_model _config))
     && negb (use_better_model state)
  then
    {| prompt := initial_prompt;
       model := default "" (GeminiClientConfig.better_model _config);
       accumulated := "";
       finish_reason := "";
       use_better_model := true |}
  else
    let continue_prompt := _build_continue_prompt initial_prompt (accumulated state) in
    {| prompt := continue_prompt;
       model := model state;
       accumulated := accumulated state;
       finish_reason := "";
       use_better_model := use_better_model state |}.

(** The [for attempt in range(1, max_tries + 1)] loop of
    [make_full_request], over the attempt numbers still to come. *)
Fixpoint attempt_loop (attempts : list Z) (max_tries : Z) (initial_prompt : string)
  (json_output : bool) (sent : list _LLMGenerationState)
  (state : _LLMGenerationState) : list _LLMGenerationState * result string :=
  match attempts with
  | [] => (sent, Raise exhausted)
  | attempt :: rest =>
      match _step_generation sent state with
      | (sent', Raise e) => (sent', Raise e)
      | (sent', Ok state') =>
          match _try_finalize state' json_output with
          | Raise e => (sent', Raise e)
          | Ok (Some maybe_result) => (sent', Ok maybe_result)
          | Ok None =>
              if (attempt =? max_tries)%Z then (sent', Raise exhausted)
              else attempt_loop rest max_tries initial_prompt json_output sent'
                     (_prepare_retry state' initial_prompt)
          end
      end
  end.

(** [make_full_request]: the states of the attempts made, one per
    remote call and in order, and the outcome. *)
Definition make_full_request (initial_prompt : string) (max_tries : Z)
  (json_output : bool) : list _LLMGenerationState * result string :=
  let state := {| prompt := initial_prompt;
                  model := GeminiClientConfig.model _config;
                  accumulated := "";
                  finish_reason := "";
                  use_better_model := false |} in
  attempt_loop (range 1 (max_tries + 1)) max_tries initial_prompt json_output [] state.
End Client.

(** Attempt number [i] of a run (counted from 0) was sent in [state]
    and was not acceptable: replayed after the attempts before it, it
    gets a response, and the state it leaves does not finalize. *)
Definition unacceptable (json_loads : string -> loaded)
  (json_dumps : pyval -> string)
  (_send_prompt : list (string * string) -> string -> string -> result (string * string))
  (json_output : bool) (sent : list _LLMGenerationState) (i : nat)
  (state : _LLMGenerationState) : Prop :=
  exists state',
    snd (_step_generation _send_prompt (take i sent) state) = Ok state'
    /\ _try_finalize json_loads json_dumps state' json_output = Ok None.

(** Retry preparation as the specification words it: the escalation
    needs a configured higher-capability model that is distinct from the
    model in use. *)
Definition spec_prepare_retry (_config : GeminiClientConfig.t)
  (state : _LLMGenerationState) (initial_prompt : string) : _LLMGenerationState :=
  let better := default "" (GeminiClientConfig.better_model _config) in
  if negb (String.eqb better "") && negb (String.eqb better (model state))
     && negb (use_better_model state)
  then
    {| prompt := initial_prompt;
       model := better;
       accumulated := "";
       finish_reason := "";
       use_better_model := true |}
  else
    {| prompt := _build_continue_prompt initial_prompt (accumulated state);
       model := model state;
       accumulated := accumulated state;
       finish_reason := "";
       use_better_model := use_better_model state |}.

(** The model of a state is the one its flag stands for: the configured
    model with the flag down, the higher-capability model with it up. *)
Definition model_agrees (_config : GeminiClientConfig.t)
  (state : _LLMGenerationState) : Prop :=
  if use_better_model state
  then GeminiClientConfig.better_model _config = Some (model state)
  else model state = GeminiClientConfig.model _config.

(** The transitions of a run in which the escalation flag goes up. *)
Fixpoint escalations (sent : list _LLMGenerationState) : nat :=
  match sent with
  | s :: (s' :: _) as rest =>
      (if negb (use_better_model s) && use_better_model s' then 1 else 0)
      + escalations rest
  | _ => 0
  end.

End GeminiOpenAIClient.

(** ** The orchestration agent ([agent.py]) *)

(** Structural equality of values. The agent compares references only:
    the reference of an action, which is a string of its own or the
    reference of the request, with the reference of the request or with
    the references already refreshed. A reference that is no string is
    the one object the plan gave, so on these the membership test of a
    [set], which is identity or [==], is structural equality. *)
Fixpoint pyval_eqb (x y : pyval) : bool :=
  match x, y with
  | PNone, PNone => true
  | PBool a, PBool b => Bool.eqb a b
  | PInt a, PInt b => (a =? b)%Z
  | PFloat a, PFloat b => PrimFloat.Leibniz.eqb a b
  | PStr a, PStr b => String.eqb a b
  | PList a, PList b =>
      (fix list_eqb (a b : list pyval) : bool :=
         match a, b with
         | [], [] => true
         | x :: a', y :: b' => pyval_eqb x y && list_eqb a' b'
         | _, _ => false
         end) a b
  | PDict a, PDict b =>
      (fix dict_eqb (a b : pydict) : bool :=
         match a, b with
         | [], [] => true
         | (k, x) :: a', (k', y) :: b' =>
             String.eqb k k' && pyval_eqb x y && dict_eqb a' b'
         | _, _ => false
         end) a b
  | _, _ => false
  end.

(** [x == y] on the same references: structural equality again, but for
    a float, which IEEE equality compares: a NaN differs from itself. *)
Definition py_eq (x y : pyval) : bool :=
  match x, y with
  | PFloat a, PFloat b => (a =? b)%float
  | _, _ => pyval_eqb x y
  end.

(** The name of the type of a value, as error messages give it. *)
Definition type_name (v : pyval) : string :=
  match v with
  | PNone => "NoneType"
  | PBool _ => "bool"
  | PInt _ => "int"
  | PFloat _ => "float"
  | PStr _ => "str"
  | PList _ => "list"
  | PDict _ => "dict"
  end.

(** Whether [hash(v)] succeeds: lists and dicts are unhashable. *)
Definition hashable (v : pyval) : bool :=
  match v with PList _ | PDict _ => false | _ => true end.

Module PlannedAction.
Record t : Type := {
  name : string;
  objective : option string;
  pricing_url : option string
}.
End PlannedAction.

Module PricingAgent.

Definition ALLOWED_ACTIONS : gset string := {["optimal"; "subscriptions"; "summary"]}.

(** The calls the agent makes on the workflow collaborator, with their
    keyword arguments. *)
Inductive wf_call : Type :=
| run_summary (url : pyval) (yaml_content : option string) (refresh : bool)
| run_subscriptions (url : pyval) (filters : option pydict) (solver : pyval)
    (refresh : bool) (yaml_content : option string)
| run_optimal (url : pyval) (filters : option pydict) (solver : pyval)
    (objective : pyval) (refresh : bool) (yaml_content : option string).

Definition call_url (c : wf_call) : pyval :=
  match c with
  | run_summary url _ _ => url
  | run_subscriptions url _ _ _ _ => url
  | run_optimal url _ _ _ _ _ => url
  end.

Definition call_refresh (c : wf_call) : bool :=
  match c with
  | run_summary _ _ refresh => refresh
  | run_subscriptions _ _ _ refresh _ => refresh
  | run_optimal _ _ _ _ refresh _ => refresh
  end.

(** What [handle_question] returns: the dict with the keys [plan],
    [result] and [answer]. *)
Record response : Type := {
  resp_plan : pydict;
  resp_result : pyval;
  resp_answer : string
}.

(** [_validate_yaml_requirement] *)
Definition _validate_yaml_requirement (plan : pydict) (yaml_content : option string)
  : result unit :=
  if truthy (dict_get "requires_uploaded_yaml" plan) && negb (truthy (of_opt yaml_content))
  then Raise (ValueError
    "The assistant needs a YAML pricing file to proceed. Please upload one and retry.")
  else Ok ().

(** [_parse_action_entry], with the names of the warnings it logs. *)
Definition _parse_action_entry (entry : pyval)
  : option PlannedAction.t * list string :=
  match entry with
  | PStr entry_name =>
      if bool_decide (entry_name ∈ ALLOWED_ACTIONS)
      then (Some {| PlannedAction.name := entry_name;
                    PlannedAction.objective := None;
                    PlannedAction.pricing_url := None |}, [])
      else (None, ["pricing.agent.unsupported_action"])
  | PDict entry_dict =>
      match dict_get "name" entry_dict with
      | PStr name =>
          if bool_decide (name ∈ ALLOWED_ACTIONS) then
            let '(objective, w1) :=
              match dict_get "objective" entry_dict with
              | PNone => (None, [])
              | PStr o =>
                  if String.eqb o "minimize" || String.eqb o "maximize"
                  then (Some o, [])
                  else (None, ["pricing.agent.invalid_objective"])
              | _ => (None, ["pricing.agent.invalid_objective"])
              end in
            let '(pricing_url, w2) :=
              match py_or (dict_get "pricing_url" entry_dict) (dict_get "url" entry_dict) with
              | PNone => (None, [])
              | PStr u => (Some u, [])
              | _ => (None, ["pricing.agent.invalid_pricing_url"])
              end in
            (Some {| PlannedAction.name := name;
                     PlannedAction.objective := objective;
                     PlannedAction.pricing_url := pricing_url |}, w1 ++ w2)
          else (None, ["pricing.agent.invalid_action_object"])
      | _ => (None, ["pricing.agent.invalid_action_object"])
      end
  | _ => (None, ["pricing.agent.unrecognized_action_entry"])
  end.

(** The [for entry in raw_actions] loop of [_normalize_actions]. A
    [PlannedAction] is a dataclass instance and so always true. *)
Fixpoint normalize_entries (raw_actions : list pyval)
  : list PlannedAction.t * list string :=
  match raw_actions with
  | [] => ([], [])
  | entry :: rest =>
      let '(planned_action, w) := _parse_action_entry entry in
      let '(normalized, ws) := normalize_entries rest in
      (match planned_action with
       | Some a => a :: normalized
       | None => normalized
       end, w ++ ws)
  end.

(** [_normalize_actions] *)
Definition _normalize_actions (raw_actions : pyval)
  : list PlannedAction.t * list string :=
  match raw_actions with
  | PNone => ([], [])
  | PList entries => normalize_entries entries
  | _ => ([], ["pricing.agent.invalid_actions"])
  end.

(** [_extract_filters] *)
Definition _extract_filters (raw_filters : pyval) : option pydict * list string :=
  match raw_filters with
  | PNone => (None, [])
  | PDict [] => (None, [])
  | PDict d => (Some d, [])
  | _ => (None, ["pricing.agent.invalid_filters"])
  end.

(** [_resolve_pricing_reference] *)
Definition _resolve_pricing_reference (plan_url : pyval)
  (incoming_url yaml_content : option string) : pyval * list string :=
  let '(resolved_plan_url, w) :=
    match plan_url with
    | PStr _ => (plan_url, [])
    | PList l => (match l with x :: _ => x | [] => PNone end, [])
    | PNone => (PNone, [])
    | _ => (PNone, ["pricing.agent.unexpected_pricing_url"])
    end in
  let url := py_or resolved_plan_url (of_opt incoming_url) in
  if truthy (of_opt yaml_content) && negb (truthy url)
  then (PStr "uploaded://pricing", w)
  else (url, w).

(** [_ensure_pricing_context] *)
Fixpoint _ensure_pricing_context (actions : list PlannedAction.t) (url : pyval)
  (yaml_content : option string) : result unit :=
  match actions with
  | [] => Ok ()
  | action :: rest =>
      let action_url := py_or (of_opt (PlannedAction.pricing_url action)) url in
      let name := PlannedAction.name action in
      if bool_decide (name ∈ ({["subscriptions"; "optimal"]} : gset string))
         && negb (truthy (py_or action_url (of_opt yaml_content)))
      then Raise (ValueError
        "Running subscriptions or optimal analysis requires a pricing URL or an uploaded Pricing2Yaml file.")
      else if String.eqb name "summary"
              && negb (truthy (py_or action_url (of_opt yaml_content)))
      then Raise (ValueError
        "A summary requires pricing context. Provide a pricing URL or Pricing2Yaml upload before running it.")
      else _ensure_pricing_context rest url yaml_content
  end.

(** [x in s] for a [set], which hashes [x] first. *)
Definition set_contains (s : list pyval) (x : pyval) : result bool :=
  if hashable x then Ok (existsb (pyval_eqb x) s)
  else Raise (TypeError ("unhashable type: '" +:+ type_name x +:+ "'")).

(** [_prepare_action_inputs] *)
Definition _prepare_action_inputs (action : PlannedAction.t) (default_url : pyval)
  (refresh_requested : bool) (transformed_urls : list pyval)
  (yaml_content : option string) : result (pyval * bool * option string) :=
  let action_url := py_or (of_opt (PlannedAction.pricing_url action)) default_url in
  effective_refresh ←
    (if refresh_requested && truthy action_url
     then seen ← set_contains transformed_urls action_url; Ok (negb seen)
     else Ok false);
  let action_yaml :=
    if pyval_eqb action_url PNone || py_eq action_url default_url
    then yaml_content else None in
  Ok (action_url, effective_refresh, action_yaml).

(** The call [_run_single_action] makes. *)
Definition _run_single_action (action : PlannedAction.t) (url : pyval)
  (refresh : bool) (solver : pyval) (filters : option pydict) (objective : pyval)
  (yaml_content : option string) : wf_call :=
  let resolved_objective := py_or (of_opt (PlannedAction.objective action)) objective in
  if String.eqb (PlannedAction.name action) "summary" then
    run_summary url yaml_content refresh
  else if String.eqb (PlannedAction.name action) "subscriptions" then
    run_subscriptions (py_or url (PStr "")) filters solver refresh yaml_content
  else
    run_optimal (py_or url (PStr "")) filters solver resolved_objective refresh yaml_content.

(** [_compose_results_payload]: the payload for the answer and the
    result for the caller. *)
Definition _compose_results_payload (actions : list PlannedAction.t)
  (results : list pydict) (last_payload : pyval) : pyval * pyval :=
  match results with
  | [] =>
      let empty_payload := PDict [("steps", PList [])] in
      (empty_payload, empty_payload)
  | [step_record] =>
      let payload := dict_get "payload" step_record in
      let payload :=
        match payload with
        | PNone => py_or last_payload (PDict [])
        | _ => payload
        end in
      (payload, PDict step_record)
  | _ =>
      let combined :=
        [("actions", PList (map (fun action => PStr (PlannedAction.name action)) actions));
         ("steps", PList (map PDict results))]
        ++ match last_payload with
           | PNone => []
           | _ => [("lastPayload", last_payload)]
           end in
      (PDict combined, PDict combined)
  end.

(** The reference an action runs against: [action.pricing_url or url]. *)
Definition action_url (default_url : pyval) (action : PlannedAction.t) : pyval :=
  py_or (of_opt (PlannedAction.pricing_url action)) default_url.

(** Among the calls [new] of the actions, one before call number [n]
    carried [refresh=true] for the reference [r]. *)
Definition refreshed_before (url : pyval) (actions : list PlannedAction.t)
  (new : list wf_call) (n : nat) (r : pyval) : Prop :=
  exists j a' c', j < n /\ actions !! j = Some a' /\ new !! j = Some c'
                  /\ call_refresh c' = true /\ action_url url a' = r.

(** Reference resolution as the specification words it: the plan's
    reference if it is a string, the first candidate of a non-empty
    sequence, otherwise the caller's reference; the sentinel when there
    is none but document content was supplied. *)
Definition spec_resolve_pricing_reference (plan_url : pyval)
  (incoming_url yaml_content : option string) : pyval :=
  match plan_url with
  | PStr s => PStr s
  | PList (candidate :: _) => candidate
  | _ =>
      match incoming_url with
      | Some u => PStr u
      | None =>
          match yaml_content with
          | Some _ => PStr "uploaded://pricing"
          | None => PNone
          end
      end
  end.

Section Agent.
(** The workflow collaborator: the payload it returns for a call, or
    the exception it raises, given the calls it has served so far in
    this request. *)
Variable _workflow : list wf_call -> wf_call -> result pyval.
(** The two round trips to the language model, [_generate_plan] and
    [_generate_answer]. *)
Variable _generate_plan : string -> option string -> option string -> result pyval.
Variable _generate_answer : string -> pydict -> pyval -> result string.

(** The [for index, action in enumerate(actions)] loop of
    [_execute_actions]. [calls] lists the calls dispatched so far. *)
Fixpoint execute_loop (actions : list PlannedAction.t) (index : Z)
  (url : pyval) (refresh_requested : bool) (solver : pyval)
  (filters : option pydict) (objective : pyval) (yaml_content : option string)
  (calls : list wf_call) (results : list pydict) (transformed_urls : list pyval)
  (last_payload : pyval) : list wf_call * result (list pydict * pyval) :=
  match actions with
  | [] => (calls, Ok (results, last_payload))
  | action :: rest =>
      match _prepare_action_inputs action url refresh_requested
              transformed_urls yaml_content with
      | Raise e => (calls, Raise e)
      | Ok (action_url, effective_refresh, action_yaml) =>
          let call := _run_single_action action action_url effective_refresh
                        solver filters objective action_yaml in
          match _workflow calls call with
          | Raise e => (calls ++ [call], Raise e)
          | Ok payload =>
              let transformed_urls :=
                if effective_refresh && truthy action_url
                then action_url :: transformed_urls
                else transformed_urls in
              let step_record :=
                [("index", PInt index);
                 ("action", PStr (PlannedAction.name action));
                 ("payload", payload)]
                ++ (if String.eqb (PlannedAction.name action) "optimal"
                    then [("objective",
                           py_or (of_opt (PlannedAction.objective action)) objective)]
                    else [])
                ++ (if truthy action_url then [("url", action_url)] else []) in
              execute_loop rest (index + 1) url refresh_requested solver filters
                objective yaml_content (calls ++ [call]) (results ++ [step_record])
                transformed_urls payload
          end
      end
  end.

(** [_execute_actions]: the calls dispatched to the workflow, in
    order, and the step records with the last payload. *)
Definition _execute_actions (actions : list PlannedAction.t) (url : pyval)
  (refresh : bool) (solver : pyval) (filters : option pydict) (objective : pyval)
  (yaml_content : option string) : list wf_call * result (list pydict * pyval) :=
  match actions with
  | [] => ([], Ok ([], PNone))
  | _ =>
      match _ensure_pricing_context actions url yaml_content with
      | Raise e => ([], Raise e)
      | Ok _ =>
          let refresh_requested := refresh in
          execute_loop actions 0 url refresh_requested solver filters objective
            yaml_content [] [] [] PNone
      end
  end.

(** The inputs of [_execute_actions] that [handle_question] reads off
    the plan. *)
Definition plan_actions (plan : pydict) : list PlannedAction.t :=
  fst (_normalize_actions (dict_get "actions" plan)).
Definition plan_solver (plan : pydict) : pyval :=
  dict_get_default "solver" (PStr "minizinc") plan.
Definition plan_objective (plan : pydict) : pyval :=
  dict_get_default "objective" (PStr "minimize") plan.
Definition plan_filters (plan : pydict) : option pydict :=
  fst (_extract_filters (dict_get "filters" plan)).
Definition plan_refresh (plan : pydict) : bool :=
  truthy (dict_get_default "refresh" (PBool false) plan).
Definition plan_url (plan : pydict) (pricing_url yaml_content : option string) : pyval :=
  fst (_resolve_pricing_reference (dict_get "pricing_url" plan) pricing_url yaml_content).

(** [handle_question]: the calls dispatched to the workflow and the
    response or the exception. A plan that is no JSON object has no
    [get] method. *)
Definition handle_question (question : string)
  (pricing_url yaml_content : option string) : list wf_call * result response :=
  match _generate_plan question pricing_url yaml_content with
  | Raise e => ([], Raise e)
  | Ok (PDict plan) =>
      match _validate_yaml_requirement plan yaml_content with
      | Raise e => ([], Raise e)
      | Ok _ =>
          let actions := plan_actions plan in
          let solver := plan_solver plan in
          let objective := plan_objective plan in
          let filters := plan_filters plan in
          let refresh := plan_refresh plan in
          let url := plan_url plan pricing_url yaml_content in
          match _execute_actions actions url refresh solver filters objective
                  yaml_content with
          | (calls, Raise e) => (calls, Raise e)
          | (calls, Ok (results, last_payload)) =>
              let '(payload_for_answer, result_payload) :=
                _compose_results_payload actions results last_payload in
              (calls,
               answer ← _generate_answer question plan payload_for_answer;
               Ok {| resp_plan := plan;
                     resp_result := result_payload;
                     resp_answer := answer |})
          end
      end
  | Ok plan =>
      ([], Raise (AttributeError
                    ("'" +:+ type_name plan +:+ "' object has no attribute 'get'")))
  end.
End Agent.

(** The operation of a call, by the name of its action, and its
    document argument. *)
Definition call_name (c : wf_call) : string :=
  match c with
  | run_summary _ _ _ => "summary"
  | run_subscriptions _ _ _ _ _ => "subscriptions"
  | run_optimal _ _ _ _ _ _ => "optimal"
  end.

Definition call_yaml (c : wf_call) : option string :=
  match c with
  | run_summary _ yaml_content _ => yaml_content
  | run_subscriptions _ _ _ _ yaml_content => yaml_content
  | run_optimal _ _ _ _ _ yaml_content => yaml_content
  end.

End PricingAgent.

(** ** The agent and its language model ([agent.py], [llm_client.py]) *)

Module AgentLLM.
Import GeminiOpenAIClient.

(** The keywords of [_should_include_spec]. *)
Definition keywords : list string :=
  ["pricing2yaml"; "pricing 2 yaml"; "yaml spec"; "schema"; "syntax"; "ipricing"].

Definition plan_parse_error : exn :=
  ValueError "Failed to interpret assistant plan. Please rephrase your request.".

Section Agent.
(** The two system prompts, constants of the module, and the excerpt of
    the Pricing2Yaml specification read when the agent is built (empty
    when the file is missing). *)
Variable PLAN_SYSTEM_PROMPT : string.
Variable ANSWER_SYSTEM_PROMPT : string.
Variable _spec_excerpt : string.
(** [str.lower]; [json.loads];
    [json.dumps] with its defaults and with [ensure_ascii=False]. *)
Variable lower : string -> string.
Variable json_loads : string -> loaded.
Variable json_dumps : pyval -> string.
Variable json_dumps_text : pyval -> string.
(** The configuration of the completion client of the agent. *)
Variable _config : GeminiClientConfig.t.

(** [_should_include_spec] *)
Definition _should_include_spec (question : string) (plan : option pydict) : bool :=
  if match plan with
     | Some p => truthy (PDict p) && truthy (dict_get "use_pricing2yaml_spec" p)
     | None => false
     end
  then true
  else
    let lowered := lower question in
    existsb (fun keyword => Str.contains keyword lowered) keywords.

(** The lines about the specification, shared by the two prompts. *)
Definition spec_messages (question : string) (plan : option pydict) : list string :=
  if _should_include_spec question plan && truthy (PStr _spec_excerpt)
  then ["Pricing2Yaml specification excerpt (truncated):"; _spec_excerpt]
  else [].

(** The prompt of [_generate_plan]. *)
Definition plan_prompt (question : string) (pricing_url yaml_content : option string)
  : string :=
  let messages := [PLAN_SYSTEM_PROMPT; "Question: " +:+ question] in
  let messages :=
    messages ++ if truthy (of_opt pricing_url)
                then ["Candidate pricing URL: " +:+ default "" pricing_url]
                else [] in
  let messages :=
    messages ++ if truthy (of_opt yaml_content)
                then ["User provided YAML snippet (truncated to 2000 characters):";
                      Str.take_chars 2000 (default "" yaml_content)]
                else ["User provided YAML: False"] in
  let messages := messages ++ spec_messages question None in
  Str.join (String Str.LF EmptyString) messages.

(** The prompt of [_generate_answer]. *)
Definition answer_prompt (question : string) (plan : pydict) (payload : pyval) : string :=
  let result_snippet := Str.take_chars 4000 (json_dumps_text payload) in
  let messages :=
    [ANSWER_SYSTEM_PROMPT;
     "Question: " +:+ question;
     "Plan: " +:+ json_dumps_text (PDict plan);
     "Tool payload: " +:+ result_snippet] in
  let messages := messages ++ spec_messages question (Some plan) in
  Str.join (String Str.LF EmptyString) messages.

(** [_generate_plan], with the model that answers the planning run:
    the attempts made and the plan or the exception. *)
Definition _generate_plan
  (_send_prompt : list (string * string) -> string -> string -> result (string * string))
  (question : string) (pricing_url yaml_content : option string)
  : list _LLMGenerationState * result pyval :=
  let '(sent, text) :=
    make_full_request _config json_loads json_dumps _send_prompt
      (plan_prompt question pricing_url yaml_content) 5 true in
  (sent,
   text ← text;
   match json_loads text with
   | Parsed plan => Ok plan
   | JSONDecodeError => Raise plan_parse_error
   | LoadError e => Raise e
   end).

(** [_generate_answer], with the model that answers the answering run. *)
Definition _generate_answer
  (_send_prompt : list (string * string) -> string -> string -> result (string * string))
  (question : string) (plan : pydict) (payload : pyval)
  : list _LLMGenerationState * result string :=
  let '(sent, response) :=
    make_full_request _config json_loads json_dumps _send_prompt
      (answer_prompt question plan payload) 5 false in
  (sent,
   response ← response;
   Ok (if truthy (PStr response) then response else "No answer could be generated.")).

(** [handle_question] of an agent built on a workflow and on the
    completion client: [plan_model] answers the planning run of the
    request and [answer_model] its answering run. *)
Definition handle_question
  (_workflow : list PricingAgent.wf_call -> PricingAgent.wf_call -> result pyval)
  (plan_model answer_model :
     list (string * string) -> string -> string -> result (string * string))
  : string -> option string -> option string
    -> list PricingAgent.wf_call * result PricingAgent.response :=
  PricingAgent.handle_question _workflow
    (fun question pricing_url yaml_content =>
       snd (_generate_plan plan_model question pricing_url yaml_content))
    (fun question plan payload =>
       snd (_generate_answer answer_model question plan payload)).
End Agent.

End AgentLLM.

(** ** The entry points ([http.py], [mcp_server.py]) *)

Module Endpoints.
Import PricingAgent.

(** What [chat] gives back: the [ChatResponse], or the [HTTPException]
    it raises. *)
Inductive chat_result : Type :=
| ChatResponse (answer : string) (plan : pydict) (result : pyval)
| HTTPException (status_code : Z) (detail : string).

Section Endpoints.
(** [repr]; for an exception of a collaborator, its [str] and whether
    its class derives from [ValueError]. *)
Variable py_repr : pyval -> string.
Variable foreign_str : string -> string.
Variable foreign_is_value_error : string -> bool.
(** A validated [HttpUrl] and its [str]. *)
Variable HttpUrl : Type.
Variable str_url : HttpUrl -> string.
(** [container.agent.handle_question] *)
Variable handle_question :
  string -> option string -> option string -> list wf_call * result response.

(** [except ValueError] catches [exc]. *)
Definition is_value_error (exc : exn) : bool :=
  match exc with
  | ValueError _ => true
  | Foreign name => foreign_is_value_error name
  | _ => false
  end.

(** [str(exc)] *)
Definition str_exn (exc : exn) : string :=
  match exc with
  | ValueError msg | TypeError msg | AttributeError msg | AnalysisError msg => msg
  | KeyError key => py_repr (PStr key)
  | Foreign name => foreign_str name
  end.

(** [request.pricing_yaml.strip() if request.pricing_yaml else None] *)
Definition request_yaml (pricing_yaml : option string) : option string :=
  if truthy (of_opt pricing_yaml) then Some (Str.strip (default "" pricing_yaml))
  else None.

(** [chat], the handler of [POST /chat]: the calls dispatched to the
    workflow and the outcome. A validated [HttpUrl] is never false. *)
Definition chat (question : string) (pricing_url : option HttpUrl)
  (pricing_yaml : option string) : list wf_call * chat_result :=
  let question := Str.strip question in
  if negb (truthy (PStr question)) then ([], HTTPException 400 "Question is required.")
  else
    let yaml_content := request_yaml pricing_yaml in
    match handle_question question (str_url <$> pricing_url) yaml_content with
    | (calls, Raise exc) =>
        if is_value_error exc then (calls, HTTPException 400 (str_exn exc))
        else (calls, HTTPException 502 (str_exn exc))
    | (calls, Ok response_payload) =>
        (calls, ChatResponse (resp_answer response_payload) (resp_plan response_payload)
                  (resp_result response_payload))
    end.

(** [answer_pricing_question], the MCP tool. *)
Definition answer_pricing_question (question : string)
  (pricing_url pricing_yaml : option string) (hints : option pydict)
  : list wf_call * result pydict :=
  let cleaned_question := Str.strip question in
  if negb (truthy (PStr cleaned_question))
  then ([], Raise (ValueError "Question is required."))
  else
    let '(calls, response_payload) :=
      handle_question cleaned_question pricing_url pricing_yaml in
    (calls,
     response_payload ← response_payload;
     Ok [("answer", PStr (resp_answer response_payload));
         ("question", PStr cleaned_question);
         ("plan", PDict (resp_plan response_payload));
         ("result", resp_result response_payload);
         ("hints", py_or (match hints with Some h => PDict h | None => PNone end)
                     (PDict []))]).
End Endpoints.

End Endpoints.

(** ** Sample collaborators, for running the definitions *)

Module Sample.

Definition py_repr (v : pyval) : string := "<repr>".
Definition json_dumps (v : pyval) : string := "<json>".

Definition options : AnalysisClient.AnalysisJobOptions :=
  {| AnalysisClient.yaml_content := "saasName: demo";
     AnalysisClient.operation := "optimal";
     AnalysisClient.solver := "minizinc";
     AnalysisClient.filters := None;
     AnalysisClient.objective := Some "minimize" |}.

Definition accept_job (path : string) (data : pydict) (file : string) : result pydict :=
  Ok [("jobId", PStr "job-1")].

Definition running : pydict := [("status", PStr "RUNNING")].

(** A job that completes on the third status request. *)
Definition job_completes (path : string) (k : nat) : result pydict :=
  match k with
  | 0 | 1 => Ok running
  | _ => Ok [("status", PStr "COMPLETED"); ("result", PDict [("cardinality", PInt 3)])]
  end.

(** A job that fails on the second status request. *)
Definition job_fails (path : string) (k : nat) : result pydict :=
  match k with
  | 0 => Ok running
  | _ => Ok [("status", PStr "FAILED"); ("error", PStr "solver crashed")]
  end.

(** A job that never ends. *)
Definition job_hangs (path : string) (k : nat) : result pydict := Ok running.

(** The standard event loop of CPython 3.13: a NaN delay is refused
    and the timer of an infinite delay never fires. *)
Definition sleep_unbounded (delay : float) : option (result unit) :=
  if (delay =? delay)%float then None
  else Some (Raise (ValueError "Invalid delay: NaN (not a number)")).

Definition config : GeminiClientConfig.t :=
  {| GeminiClientConfig.api_key := "key";
     GeminiClientConfig.model := "gemini-2.5-flash";
     GeminiClientConfig.base_url := "https://generativelanguage.googleapis.com/v1beta/openai/";
     GeminiClientConfig.temperature := 0.7%float;
     GeminiClientConfig.better_model := Some "gemini-2.5-pro" |}.

(** A configuration whose higher-capability model is the model itself. *)
Definition config_same_model : GeminiClientConfig.t :=
  {| GeminiClientConfig.api_key := "key";
     GeminiClientConfig.model := "gemini-2.5-pro";
     GeminiClientConfig.base_url := "https://generativelanguage.googleapis.com/v1beta/openai/";
     GeminiClientConfig.temperature := 0.7%float;
     GeminiClientConfig.better_model := Some "gemini-2.5-pro" |}.

(** The state after a first, truncated attempt under [config_same_model]. *)
Definition truncated_state : GeminiOpenAIClient._LLMGenerationState :=
  {| GeminiOpenAIClient.prompt := "Summarise the plan.";
     GeminiOpenAIClient.model := "gemini-2.5-pro";
     GeminiOpenAIClient.accumulated := "The plan has";
     GeminiOpenAIClient.finish_reason := "length";
     GeminiOpenAIClient.use_better_model := false |}.

(** A workflow that answers every call, a planner that returns a given
    plan and an answer synthesis that always answers. *)
Definition workflow (calls : list PricingAgent.wf_call) (call : PricingAgent.wf_call)
  : result pyval :=
  match call with
  | PricingAgent.run_summary _ _ _ => Ok (PDict [("summary", PStr "three plans")])
  | _ => Ok (PDict [("cardinality", PInt 12)])
  end.
Definition planner (plan : pydict) (question : string)
  (pricing_url yaml_content : option string) : result pyval := Ok (PDict plan).
Definition answerer (question : string) (plan : pydict) (payload : pyval)
  : result string := Ok "There are three plans.".

Definition plan_summary : pydict :=
  [("actions", PList [PStr "summary"]); ("refresh", PBool true)].
Definition plan_shared : pydict :=
  [("actions", PList [PStr "subscriptions";
                      PDict [("name", PStr "optimal"); ("objective", PStr "maximize")]]);
   ("refresh", PBool true)].
Definition plan_optimal : pydict := [("actions", PList [PStr "optimal"])].

Definition summary_action : PlannedAction.t :=
  {| PlannedAction.name := "summary"; PlannedAction.objective := None;
     PlannedAction.pricing_url := None |}.
Definition subscriptions_action : PlannedAction.t :=
  {| PlannedAction.name := "subscriptions"; PlannedAction.objective := None;
     PlannedAction.pricing_url := None |}.
Definition optimal_action : PlannedAction.t :=
  {| PlannedAction.name := "optimal"; PlannedAction.objective := None;
     PlannedAction.pricing_url := None |}.
Definition optimal_maximize_action : PlannedAction.t :=
  {| PlannedAction.name := "optimal"; PlannedAction.objective := Some "maximize";
     PlannedAction.pricing_url := None |}.

(** A parser that refuses every text, and a model that always
    truncates. *)
Definition json_loads (s : string) : loaded := JSONDecodeError.
Definition always_truncated (sent : list (string * string)) (prompt model : string)
  : result (string * string) := Ok ("partial", "length").

(** A configuration with no higher-capability model. *)
Definition config_no_better : GeminiClientConfig.t :=
  {| GeminiClientConfig.api_key := "key";
     GeminiClientConfig.model := "gemini-2.5-flash";
     GeminiClientConfig.base_url := "https://generativelanguage.googleapis.com/v1beta/openai/";
     GeminiClientConfig.temperature := 0.7%float;
     GeminiClientConfig.better_model := None |}.

(** A model that answers at once, and one whose first response is
    truncated and whose later responses are complete. *)
Definition answers_at_once (sent : list (string * string)) (prompt model : string)
  : result (string * string) := Ok ("There are three plans.", "stop").
Definition truncated_then_done (sent : list (string * string)) (prompt model : string)
  : result (string * string) :=
  match sent with
  | [] => Ok ("There are", "length")
  | _ => Ok (" three plans. ", "stop")
  end.

(** A workflow whose [optimal] analysis fails, and plans of other
    shapes: an action pinned to a reference of its own, a plan of three
    actions, a plan with no valid action. *)
Definition workflow_fails (calls : list PricingAgent.wf_call) (call : PricingAgent.wf_call)
  : result pyval :=
  match call with
  | PricingAgent.run_optimal _ _ _ _ _ _ =>
      Raise (AnalysisError "Analysis job failed: solver crashed")
  | _ => Ok (PDict [("cardinality", PInt 12)])
  end.
Definition plan_pinned : pydict :=
  [("actions", PList [PStr "summary";
                      PDict [("name", PStr "subscriptions");
                             ("pricing_url", PStr "https://other.example.org/pricing")]])].
Definition plan_three : pydict :=
  [("actions", PList [PStr "optimal"; PStr "summary"; PStr "subscriptions"])].
Definition plan_empty : pydict := [("actions", PList [PStr "compare"])].

(** The agent on a language model: prompts, an ASCII [lower], a parser
    that reads every text but one as the summary plan, a model that
    plans at once, and the classes of the exceptions of collaborators. *)
Definition PLAN_SYSTEM_PROMPT : string := "You orchestrate pricing intelligence workflows.".
Definition ANSWER_SYSTEM_PROMPT : string := "You are a pricing intelligence assistant.".
Definition spec_excerpt : string := "# Pricing2Yaml".
Fixpoint lower (s : string) : string :=
  match s with
  | EmptyString => EmptyString
  | String c s' =>
      let n := Ascii.N_of_ascii c in
      String (if ((65 <=? n) && (n <=? 90))%N then Ascii.ascii_of_N (n + 32) else c)
        (lower s')
  end.
Definition json_loads_plan (s : string) : loaded :=
  if String.eqb s "not json" then JSONDecodeError else Parsed (PDict plan_summary).
Definition plans_at_once (sent : list (string * string)) (prompt model : string)
  : result (string * string) := Ok ("{}", "stop").
Definition answers_nothing (sent : list (string * string)) (prompt model : string)
  : result (string * string) := Ok ("  ", "stop").
Definition foreign_str (name : string) : string := name.
Definition foreign_is_value_error (name : string) : bool :=
  String.eqb name "ValidationError".
Definition str_url (url : string) : string := url.

(** A text that is nested too deep for the parser: it opens a hundred
    thousand arrays. On such a text [json.loads] raises a [RecursionError], which
    is no [JSONDecodeError]. A parser that does so and refuses every
    other text, and a model that replies with the deep text. *)
Definition deep_text : string := Pos.iter (String.append "[") EmptyString 100000.
Definition json_loads_deep (s : string) : loaded :=
  if String.eqb s deep_text then LoadError (Foreign "RecursionError")
  else JSONDecodeError.
Definition replies_nested (sent : list (string * string)) (prompt model : string)
  : result (string * string) := Ok (deep_text, "stop").

End Sample.

(** * Properties *)

(** ** Instants *)

Lemma Qltb_lt (x y : Q) : Qltb x y = true <-> (x < y)%Q.
Proof.
  unfold Qltb. rewrite negb_true_iff, <- not_true_iff_false, Qle_bool_iff.
  split; [apply Qnot_le_lt | apply Qlt_not_le].
Qed.

Lemma Qltb_ge (x y : Q) : Qltb x y = false <-> (y <= x)%Q.
Proof. unfold Qltb. rewrite negb_false_iff. apply Qle_bool_iff. Qed.

(** ** The in-process cache *)

Section CacheFacts.
Import MemoryCache.
Implicit Types (store : gmap string CacheEntry) (key : string) (v : pyval).

Lemma get_missing now key store :
  store !! key = None -> get now key store = (PNone, store).
Proof. intros H. unfold get. by rewrite H. Qed.

Lemma get_live now key store entry :
  store !! key = Some entry -> (now <= expires_at entry)%Q ->
  get now key store = (value entry, store).
Proof.
  intros H Hle. unfold get. rewrite H.
  apply Qltb_ge in Hle. by rewrite Hle.
Qed.

Lemma get_expired now key store entry :
  store !! key = Some entry -> (expires_at entry < now)%Q ->
  get now key store = (PNone, delete key store).
Proof.
  intros H Hlt. unfold get. rewrite H.
  apply Qltb_lt in Hlt. by rewrite Hlt.
Qed.

Lemma set_lookup now key v ttl store :
  set now key v ttl store !! key
  = Some {| value := v; expires_at := (now + inject_Z ttl)%Q |}.
Proof. unfold set. apply lookup_insert_eq. Qed.

(** A [get] leaves every other key as it was. *)
Lemma get_other now key key' store :
  key <> key' -> snd (get now key store) !! key' = store !! key'.
Proof.
  intros Hne. unfold get. destruct (store !! key) as [entry|]; [|done].
  destruct (Qltb _ _); simpl; [by rewrite lookup_delete_ne | done].
Qed.


(** C10. An entry is expired only at an instant strictly after its
    expiry instant: a [get] removes the entry exactly when
    [expires_at < now], and a [get] at the expiry instant itself
    returns the stored value and keeps the entry. *)
Theorem get_expiry_boundary store key entry (now : Q) :
  store !! key = Some entry ->
  (snd (get now key store) !! key = None <-> (expires_at entry < now)%Q)
  /\ ((now == expires_at entry)%Q ->
      get now key store = (value entry, store)
      /\ snd (get now key store) !! key = Some entry).
Proof.
  intros H. split.
  - destruct (Qlt_le_dec (expires_at entry) now) as [Hlt|Hle].
    + rewrite (get_expired _ _ _ _ H Hlt). simpl.
      rewrite lookup_delete_eq. tauto.
    + rewrite (get_live _ _ _ _ H Hle). simpl. rewrite H.
      split; [done|]. intros Hlt. exfalso. by apply (Qlt_not_le _ _ Hlt).
  - intros Heq.
    assert (now <= expires_at entry)%Q as Hle by (rewrite Heq; apply Qle_refl).
    rewrite (get_live _ _ _ _ H Hle). done.
Qed.
End CacheFacts.


Lemma get_expiry_boundary_witness :
  MemoryCache.get 1 "k" (MemoryCache.set 0 "k" (PStr "v") 1 ∅)
  = (PStr "v", MemoryCache.set 0 "k" (PStr "v") 1 ∅).
Proof.
  apply (get_expiry_boundary (MemoryCache.set 0 "k" (PStr "v") 1 ∅) "k"
           {| MemoryCache.value := PStr "v"; MemoryCache.expires_at := 0 + inject_Z 1 |} 1).
  - apply lookup_insert_eq.
  - reflexivity.
Defined.

(** ** Binary64 *)

Section FloatFacts.
Local Open Scope Z_scope.

Lemma shr_1_nonneg mrs : 0 <= shr_m mrs -> 0 <= shr_m (shr_1 mrs).
Proof. destruct mrs as [[|[p|p|]|[p|p|]] r s]; simpl; lia. Qed.

Lemma iter_shr_1_nonneg n mrs :
  0 <= shr_m mrs -> 0 <= shr_m (SpecFloat.iter_pos shr_1 n mrs).
Proof.
  revert mrs. induction n as [n IH|n IH|]; intros mrs H; simpl.
  - apply IH, IH. by apply shr_1_nonneg.
  - by apply IH, IH.
  - by apply shr_1_nonneg.
Qed.

Lemma shr_fexp_nonneg prec emax m e l :
  0 <= m -> 0 <= shr_m (fst (shr_fexp prec emax m e l)).
Proof.
  intros H. unfold shr_fexp, shr.
  assert (H0 : 0 <= shr_m (shr_record_of_loc m l)) by (by destruct l as [|[]]).
  destruct (fexp prec emax (Zdigits2 m + e) - e); simpl; [done| |done].
  by apply iter_shr_1_nonneg.
Qed.

Lemma round_nearest_even_nonneg m l : 0 <= m -> 0 <= round_nearest_even m l.
Proof.
  intros H. destruct l as [|[]]; simpl; [done| |done|lia]. destruct (Z.even m); lia.
Qed.

(** Rounding keeps the sign and gives no NaN. *)
Lemma binary_round_aux_sign prec emax sx m e l :
  0 <= m ->
  match binary_round_aux prec emax sx m e l with
  | S754_zero s | S754_infinity s | S754_finite s _ _ => s = sx
  | S754_nan => False
  end.
Proof.
  intros H. unfold binary_round_aux.
  pose proof (shr_fexp_nonneg prec emax m e l H) as H1.
  destruct (shr_fexp prec emax m e l) as [mrs' e']. simpl in H1.
  pose proof (shr_fexp_nonneg prec emax _ e' loc_Exact
                (round_nearest_even_nonneg _ (loc_of_shr_record mrs') H1)) as H2.
  destruct (shr_fexp prec emax _ e' loc_Exact) as [mrs'' e'']. simpl in H2.
  destruct (shr_m mrs'') as [|p|p]; [done| |lia].
  by destruct (e'' <=? emax - prec).
Qed.

Lemma binary_normalize_neg prec emax p e :
  match binary_normalize prec emax (Z.neg p) e false with
  | S754_zero s | S754_infinity s | S754_finite s _ _ => s = true
  | S754_nan => False
  end.
Proof.
  unfold binary_normalize, binary_round.
  destruct (shl_align p e _) as [mz ez]. by apply binary_round_aux_sign.
Qed.
End FloatFacts.

Section FloatOrder.
Local Open Scope float_scope.

Lemma Prim2SF_zero : Prim2SF 0 = S754_zero false.
Proof. reflexivity. Qed.

(** Zero and below is closed under addition. *)
Lemma add_nonpositive (e i : float) :
  (e <=? 0) = true -> (i <=? 0) = true -> (e + i <=? 0) = true.
Proof.
  rewrite !leb_spec, add_spec, Prim2SF_zero. unfold SF64add, SFadd.
  destruct (Prim2SF e) as [[]|[]| |[] me ee], (Prim2SF i) as [[]|[]| |[] mi ei];
    try done.
  intros _ _.
  set (a := fst (shl_align me ee (Z.min ee ei))).
  set (b := fst (shl_align mi ei (Z.min ee ei))).
  change (cond_Zopp true (Z.pos a) + cond_Zopp true (Z.pos b))%Z with (Z.neg (a + b)).
  pose proof (binary_normalize_neg prec emax (a + b) (Z.min ee ei)) as H.
  destruct (binary_normalize _ _ _ _ _) as [s|s| |s m x]; try done; by subst.
Qed.

(** What is zero or below is below what is above zero. *)
Lemma nonpositive_below (e m : float) :
  (e <=? 0) = true -> (0 <? m) = true -> (e <? m) = true.
Proof.
  rewrite leb_spec, !ltb_spec, Prim2SF_zero.
  by destruct (Prim2SF e) as [[]|[]| |[] me ee], (Prim2SF m) as [[]|[]| |[] mm em].
Qed.

(** A number whose sum with zero is below another is below infinity:
    it is neither infinity nor a NaN. *)
Lemma below_bounded (i m : float) : (0 + i <? m) = true -> (i <? infinity) = true.
Proof.
  rewrite !ltb_spec, add_spec, Prim2SF_zero. unfold SF64add, SFadd.
  change (Prim2SF infinity) with (S754_infinity false).
  by destruct (Prim2SF i) as [[]|[]| |[] mi ei], (Prim2SF m) as [[]|[]| |[] mm em].
Qed.
End FloatOrder.

(** ** The analysis job client *)

Section AnalysisFacts.
Import AnalysisClient.
Variable py_repr : pyval -> string.
Variable json_dumps : pyval -> string.
Variable http_post : string -> pydict -> string -> result pydict.
Variable http_get : string -> nat -> result pydict.
Variable sleep_unbounded : float -> option (result unit).

Abbreviation asyncio_sleep := (AnalysisClient.asyncio_sleep sleep_unbounded).
Abbreviation poll_loop := (AnalysisClient.poll_loop py_repr http_get sleep_unbounded).
Abbreviation submit_job :=
  (AnalysisClient.submit_job py_repr json_dumps http_post http_get sleep_unbounded).

(** The sleeps that return: those of a delay below infinity, and so
    those of a delay of zero or below. *)
Lemma sleep_bounded (delay : float) :
  (delay <? infinity)%float = true -> asyncio_sleep delay = Some (Ok tt).
Proof.
  intros H. unfold AnalysisClient.asyncio_sleep. rewrite H.
  by destruct (delay <=? 0)%float.
Qed.

Lemma sleep_nonpositive (delay : float) :
  (delay <=? 0)%float = true -> asyncio_sleep delay = Some (Ok tt).
Proof. intros H. unfold AnalysisClient.asyncio_sleep. by rewrite H. Qed.

(** A budget that lets the client go past its first sleep is one whose
    interval is below infinity. *)
Lemma within_budget_sleeps interval max_wait n :
  within_budget interval max_wait n -> 1 < n -> asyncio_sleep interval = Some (Ok tt).
Proof.
  intros Hbud Hn. apply sleep_bounded, (below_bounded _ max_wait). apply (Hbud 1 Hn).
Qed.

(** One more round of the loop on a job that is still running. *)
Lemma poll_loop_step fuel path interval max_wait polls (e : float) payload :
  (e <? max_wait)%float = true -> http_get path polls = Ok payload ->
  nonterminal payload -> asyncio_sleep interval = Some (Ok tt) ->
  poll_loop (S fuel) path interval max_wait polls e
  = poll_loop fuel path interval max_wait (S polls) (e + interval)%float.
Proof. intros Hlt Hget [Hc Hf] Hs. simpl. by rewrite Hlt, Hget, Hc, Hf, Hs. Qed.

(** [n] rounds on a job that is still running, within the budget. *)
Lemma poll_loop_rounds n fuel path interval max_wait polls (e : float) :
  (forall k, k < n ->
     exists payload, http_get path (polls + k) = Ok payload /\ nonterminal payload) ->
  (forall k, k < n -> (elapsed_from e interval k <? max_wait)%float = true) ->
  (0 < n -> asyncio_sleep interval = Some (Ok tt)) ->
  poll_loop (n + fuel) path interval max_wait polls e
  = poll_loop fuel path interval max_wait (polls + n) (elapsed_from e interval n).
Proof.
  revert polls e. induction n as [|n IH]; intros polls e Hrun Hbud Hs.
  - by rewrite Nat.add_0_r.
  - destruct (Hrun 0) as (payload & Hget & Hnt); [lia|]. rewrite Nat.add_0_r in Hget.
    change (S n + fuel) with (S (n + fuel)).
    rewrite (poll_loop_step _ _ _ _ _ _ payload);
      [|apply (Hbud 0); lia|done|done|apply Hs; lia].
    rewrite IH.
    + by replace (S polls + n) with (polls + S n) by lia.
    + intros k Hk. replace (S polls + k) with (polls + S k) by lia. apply Hrun. lia.
    + intros k Hk. apply (Hbud (S k)). lia.
    + intros _. apply Hs. lia.
Qed.

Lemma poll_loop_running n fuel path interval max_wait :
  (forall k, k < n -> exists payload, http_get path k = Ok payload /\ nonterminal payload) ->
  within_budget interval max_wait n ->
  (0 < n -> asyncio_sleep interval = Some (Ok tt)) ->
  poll_loop (n + fuel) path interval max_wait 0 0%float
  = poll_loop fuel path interval max_wait n (elapsed_from 0 interval n).
Proof. intros Hrun Hbud Hs. by apply (poll_loop_rounds n fuel path interval max_wait 0). Qed.

(** The three ways out of the loop. *)
Lemma poll_loop_completed fuel path interval max_wait polls (e : float) payload :
  (e <? max_wait)%float = true -> http_get path polls = Ok payload ->
  dict_get "status" payload = PStr "COMPLETED" ->
  poll_loop (S fuel) path interval max_wait polls e
  = Some (S polls, Ok (dict_get_default "result" (PDict []) payload)).
Proof. intros Hlt Hget Hst. simpl. by rewrite Hlt, Hget, Hst. Qed.

Lemma poll_loop_failed fuel path interval max_wait polls (e : float) payload :
  (e <? max_wait)%float = true -> http_get path polls = Ok payload ->
  dict_get "status" payload = PStr "FAILED" ->
  poll_loop (S fuel) path interval max_wait polls e
  = Some (S polls, Raise (AnalysisError
      ("Analysis job failed: " +:+ py_str py_repr (dict_get "error" payload)))).
Proof. intros Hlt Hget Hst. simpl. by rewrite Hlt, Hget, Hst. Qed.

Lemma poll_loop_timeout fuel path interval max_wait polls (e : float) :
  (e <? max_wait)%float = false ->
  poll_loop (S fuel) path interval max_wait polls e
  = Some (polls, Raise (AnalysisError "Timed out waiting for analysis result")).
Proof. intros Hle. simpl. by rewrite Hle. Qed.

Lemma running_nonterminal payload :
  dict_get "status" payload = PStr "RUNNING" -> nonterminal payload.
Proof. intros H. unfold nonterminal. by rewrite H. Qed.

(** The loop stops for good: more fuel does not change a result. *)
Lemma poll_loop_fuel_mono fuel fuel' path interval max_wait polls e r :
  poll_loop fuel path interval max_wait polls e = Some r -> fuel <= fuel' ->
  poll_loop fuel' path interval max_wait polls e = Some r.
Proof.
  revert fuel' polls e. induction fuel as [|fuel IH]; intros fuel' polls e H Hle; [done|].
  destruct fuel' as [|fuel']; [lia|]. simpl in *.
  destruct (e <? max_wait)%float; [|done].
  destruct (http_get path polls) as [payload|]; [|done].
  destruct (py_eq_str _ "COMPLETED"); [done|].
  destruct (py_eq_str _ "FAILED"); [done|].
  destruct (asyncio_sleep interval) as [[[]|err]|]; [|done..].
  apply IH; [done | lia].
Qed.

(** C4. Once the job is accepted, the outcome of [submit_job] follows
    the statuses the client observes, whatever the budget lets it
    observe. The elapsed wait is the loop variable of the code: the sum
    of the intervals slept, accumulated in binary64. It reaches the
    budget only if the sleeps return, which those of an interval below
    infinity do.
    - statuses [RUNNING], [RUNNING], [COMPLETED] on the first three
      status requests: the [result] field of the [COMPLETED] payload is
      returned, after three requests;
    - a first [FAILED] status on request number [n] (counted from 0),
      after [n] non-terminal ones: [AnalysisError] with the remote
      [error] in its message, after [n + 1] requests and no more;
    - [n] non-terminal statuses, an interval below infinity, and then
      an elapsed wait that is not below the budget: the time-out
      [AnalysisError], after those [n] requests. *)
Theorem submit_job_outcomes options accepted job_id (interval max_wait : float) :
  http_post "/api/v1/pricing/analysis" (job_data json_dumps options)
    (yaml_content options) = Ok accepted ->
  dict_lookup "jobId" accepted = Some job_id ->
  let path := status_path py_repr job_id in
  (forall p0 p1 p2,
      http_get path 0 = Ok p0 -> dict_get "status" p0 = PStr "RUNNING" ->
      http_get path 1 = Ok p1 -> dict_get "status" p1 = PStr "RUNNING" ->
      http_get path 2 = Ok p2 -> dict_get "status" p2 = PStr "COMPLETED" ->
      within_budget interval max_wait 3 ->
      forall fuel, 3 <= fuel ->
        submit_job fuel options interval max_wait
        = Some (3, Ok (dict_get_default "result" (PDict []) p2)))
  /\ (forall n failed,
      (forall k, k < n -> exists p, http_get path k = Ok p /\ nonterminal p) ->
      http_get path n = Ok failed -> dict_get "status" failed = PStr "FAILED" ->
      within_budget interval max_wait (S n) ->
      forall fuel, n < fuel ->
        submit_job fuel options interval max_wait
        = Some (S n, Raise (AnalysisError
            ("Analysis job failed: " +:+ py_str py_repr (dict_get "error" failed)))))
  /\ (forall n,
      (forall k, k < n -> exists p, http_get path k = Ok p /\ nonterminal p) ->
      within_budget interval max_wait n ->
      (interval <? infinity)%float = true ->
      (elapsed_from 0 interval n <? max_wait)%float = false ->
      forall fuel, n < fuel ->
        submit_job fuel options interval max_wait
        = Some (n, Raise (AnalysisError "Timed out waiting for analysis result"))).
Proof.
  intros Hpost Hid path.
  assert (Hsub : forall fuel, submit_job fuel options interval max_wait
                 = poll_loop fuel path interval max_wait 0 0%float).
  { intros fuel. unfold AnalysisClient.submit_job. by rewrite Hpost, Hid. }
  split; [|split].
  - intros p0 p1 p2 H0 S0 H1 S1 H2 S2 Hbud fuel Hfuel. rewrite Hsub.
    apply (poll_loop_fuel_mono 3); [|done].
    change 3 with (2 + 1). rewrite poll_loop_running.
    + apply poll_loop_completed; [apply (Hbud 2); lia | done | done].
    + intros [|[|k]] Hk; [exists p0 | exists p1 | lia];
        (split; [done | by apply running_nonterminal]).
    + intros k Hk. apply Hbud. lia.
    + intros _. apply (within_budget_sleeps _ _ _ Hbud). lia.
  - intros n failed Hrun Hget Hst Hbud fuel Hfuel. rewrite Hsub.
    apply (poll_loop_fuel_mono (n + 1)); [|lia].
    rewrite poll_loop_running;
      [|done | intros k Hk; apply Hbud; lia
       | intros Hn; apply (within_budget_sleeps _ _ _ Hbud); lia].
    apply poll_loop_failed; [apply (Hbud n); lia | done | done].
  - intros n Hrun Hbud Hfin Hmax fuel Hfuel. rewrite Hsub.
    apply (poll_loop_fuel_mono (n + 1)); [|lia].
    rewrite poll_loop_running; [|done|done|intros _; by apply sleep_bounded].
    by apply poll_loop_timeout.
Qed.
End AnalysisFacts.

Lemma submit_job_outcomes_witness :
  AnalysisClient.submit_job Sample.py_repr Sample.json_dumps Sample.accept_job
    Sample.job_completes Sample.sleep_unbounded 3 Sample.options 2%float 120%float
  = Some (3, Ok (PDict [("cardinality", PInt 3)]))
  /\ AnalysisClient.submit_job Sample.py_repr Sample.json_dumps Sample.accept_job
       Sample.job_fails Sample.sleep_unbounded 2 Sample.options 2%float 120%float
     = Some (2, Raise (AnalysisError "Analysis job failed: solver crashed"))
  /\ AnalysisClient.submit_job Sample.py_repr Sample.json_dumps Sample.accept_job
       Sample.job_hangs Sample.sleep_unbounded 12 Sample.options 0.1%float 1%float
     = Some (11, Raise (AnalysisError "Timed out waiting for analysis result")).
Proof.
  split; [|split].
  - refine (proj1 (submit_job_outcomes Sample.py_repr Sample.json_dumps
                     Sample.accept_job Sample.job_completes Sample.sleep_unbounded
                     Sample.options _ (PStr "job-1") 2%float 120%float eq_refl eq_refl)
              _ _ _ eq_refl eq_refl eq_refl eq_refl eq_refl eq_refl _ 3 _).
    + intros [|[|[|k]]] Hk; [reflexivity | reflexivity | reflexivity | lia].
    + lia.
  - refine (proj1 (proj2 (submit_job_outcomes Sample.py_repr Sample.json_dumps
                     Sample.accept_job Sample.job_fails Sample.sleep_unbounded
                     Sample.options _ (PStr "job-1") 2%float 120%float eq_refl eq_refl))
              1 _ _ eq_refl eq_refl _ 2 _).
    + intros [|k] Hk; [|lia]. exists Sample.running. by split.
    + intros [|[|k]] Hk; [reflexivity | reflexivity | lia].
    + lia.
  - refine (proj2 (proj2 (submit_job_outcomes Sample.py_repr Sample.json_dumps
                     Sample.accept_job Sample.job_hangs Sample.sleep_unbounded
                     Sample.options _ (PStr "job-1") 0.1%float 1%float eq_refl eq_refl))
              11 _ _ _ _ 12 _).
    + intros k Hk. exists Sample.running. by split.
    + intros k Hk. do 11 (destruct k as [|k]; [reflexivity|]). lia.
    + reflexivity.
    + reflexivity.
    + lia.
Defined.

(** ** The completion client *)

Section CompletionFacts.
Import GeminiOpenAIClient.
Variable cfg : GeminiClientConfig.t.
Variable json_loads : string -> loaded.
Variable json_dumps : pyval -> string.
Variable send : list (string * string) -> string -> string -> result (string * string).

Abbreviation step := (_step_generation send).
Abbreviation finalize := (_try_finalize json_loads json_dumps).
Abbreviation retry := (_prepare_retry cfg).
Abbreviation loop := (attempt_loop cfg json_loads json_dumps send).
Abbreviation run := (make_full_request cfg json_loads json_dumps send).

(** A step changes neither the model nor the escalation flag. *)
Lemma step_flag sent state state' :
  snd (step sent state) = Ok state' -> use_better_model state' = use_better_model state.
Proof.
  simpl. destruct (send _ _ _) as [[text fr]|]; simpl; [|done].
  by intros [= <-].
Qed.

(** One round of the attempt loop. *)
Lemma loop_unfold attempt rest max_tries p json_output sent state :
  loop (attempt :: rest) max_tries p json_output sent state
  = match snd (step sent state) with
    | Raise e => (sent ++ [state], Raise e)
    | Ok state' =>
        match finalize state' json_output with
        | Raise e => (sent ++ [state], Raise e)
        | Ok (Some r) => (sent ++ [state], Ok r)
        | Ok None =>
            if (attempt =? max_tries)%Z then (sent ++ [state], Raise exhausted)
            else loop rest max_tries p json_output (sent ++ [state]) (retry state' p)
        end
    end.
Proof. simpl. by destruct (send _ _ _) as [[text fr]|]. Qed.

(** The flag never goes down. *)
Lemma retry_flag_up state p :
  use_better_model state = true -> use_better_model (retry state p) = true.
Proof.
  intros H. unfold _prepare_retry. rewrite H, andb_false_r. done.
Qed.

(** What a run adds to the attempts made: it starts with the state
    given, the flag goes up at most once, and not at all once it is up. *)
Lemma loop_trace attempts max_tries p json_output sent state :
  exists tl,
    fst (loop attempts max_tries p json_output sent state) = sent ++ tl
    /\ (attempts <> [] -> exists tl', tl = state :: tl')
    /\ (tl = [] \/ exists tl', tl = state :: tl')
    /\ escalations tl <= (if use_better_model state then 0 else 1)
    /\ length tl <= length attempts.
Proof.
  revert sent state. induction attempts as [|attempt rest IH]; intros sent state.
  { exists []. simpl. rewrite app_nil_r.
    repeat split; auto; try lia; try done. }
  rewrite loop_unfold.
  assert (Hone : exists tl, sent ++ [state] = sent ++ tl
            /\ (attempt :: rest <> [] -> exists tl', tl = state :: tl')
            /\ (tl = [] \/ exists tl', tl = state :: tl')
            /\ escalations tl <= (if use_better_model state then 0 else 1)
            /\ length tl <= length (attempt :: rest)).
  { exists [state]. repeat split; eauto; simpl; lia. }
  destruct (snd (step sent state)) as [state'|e] eqn:Hstep; [|done].
  destruct (finalize state' json_output) as [[r|]|e]; [done| |done].
  destruct (attempt =? max_tries)%Z; [done|].
  destruct (IH (sent ++ [state]) (retry state' p)) as (tl & Hfst & _ & Hhd & Hesc & Hlen).
  exists (state :: tl). rewrite Hfst, <- app_assoc. simpl.
  repeat split; eauto; try lia.
  apply step_flag in Hstep.
  destruct Hhd as [-> | [tl' ->]]; [simpl; destruct (use_better_model state); lia|].
  change (escalations (state :: retry state' p :: tl'))
    with ((if negb (use_better_model state) && use_better_model (retry state' p)
           then 1 else 0) + escalations (retry state' p :: tl')).
  remember (escalations (retry state' p :: tl')) as n eqn:Hn. clear Hn.
  destruct (use_better_model state) eqn:Hflag; cbn [negb andb].
  - rewrite retry_flag_up in Hesc by congruence. lia.
  - destruct (use_better_model (retry state' p)); lia.
Qed.

(** C2, as amended. Retry preparation escalates when a
    higher-capability model is configured (a non-empty identifier,
    whether or not it differs from the model in use) and the call has
    not escalated yet: the next attempt uses that model, an empty
    buffer and the original prompt. Otherwise the next attempt keeps
    the model and the buffer and sends the continuation prompt, which
    embeds the original prompt and the accumulated text. In a run of
    [make_full_request] the escalation happens at most once. *)
Theorem prepare_retry_escalates_once :
  (forall state p better,
      GeminiClientConfig.better_model cfg = Some better -> better <> "" ->
      use_better_model state = false ->
      retry state p
      = {| prompt := p; model := better; accumulated := "";
           finish_reason := ""; use_better_model := true |})
  /\ (forall state p,
      GeminiClientConfig.better_model cfg = None
      \/ GeminiClientConfig.better_model cfg = Some ""
      \/ use_better_model state = true ->
      retry state p
      = {| prompt := _build_continue_prompt p (accumulated state);
           model := model state; accumulated := accumulated state;
           finish_reason := ""; use_better_model := use_better_model state |})
  /\ (forall p acc, exists pre mid post,
      _build_continue_prompt p acc = pre +:+ p +:+ mid +:+ acc +:+ post)
  /\ (forall p max_tries json_output,
      escalations (fst (run p max_tries json_output)) <= 1).
Proof.
  split; [|split; [|split]].
  - intros state p better Hcfg Hne Hflag. unfold _prepare_retry.
    rewrite Hcfg, Hflag. simpl.
    destruct (String.eqb_spec better ""); [done|]. done.
  - intros state p [Hcfg | [Hcfg | Hflag]]; unfold _prepare_retry.
    + by rewrite Hcfg.
    + by rewrite Hcfg.
    + by rewrite Hflag, andb_false_r.
  - intros p acc.
    exists ("The previous response was truncated. Resume exactly where it stopped."
            +:+ String Str.LF "<initial_prompt>" +:+ String Str.LF "").
    exists (String Str.LF "</initial_prompt>" +:+ String Str.LF "<partial_response>"
            +:+ String Str.LF "").
    exists (String Str.LF "</partial_response>").
    reflexivity.
  - intros p max_tries json_output. unfold make_full_request.
    destruct (loop_trace (range 1 (max_tries + 1)) max_tries p json_output []
                {| prompt := p; model := GeminiClientConfig.model cfg;
                   accumulated := ""; finish_reason := "";
                   use_better_model := false |})
      as (tl & Hfst & _ & _ & Hesc & _).
    rewrite Hfst. simpl in *. done.
Qed.

Lemma range_nil lo hi : (hi <= lo)%Z -> range lo hi = [].
Proof. intros H. unfold range. by replace (Z.to_nat (hi - lo)) with 0 by lia. Qed.

Lemma range_cons lo hi : (lo < hi)%Z -> range lo hi = lo :: range (lo + 1) hi.
Proof.
  intros H. unfold range.
  replace (Z.to_nat (hi - lo)) with (S (Z.to_nat (hi - (lo + 1)))) by lia.
  simpl. f_equal; [lia|].
  rewrite <- seq_shift, map_map. apply map_ext. intros i. lia.
Qed.

Lemma range_length lo hi : length (range lo hi) = Z.to_nat (hi - lo).
Proof. unfold range. by rewrite length_map, length_seq. Qed.

(** A run none of whose attempts is acceptable, from attempt number
    [attempt] on. *)
Lemma loop_exhausted (n : nat) (attempt max_tries : Z) p json_output sent state :
  Z.to_nat (max_tries + 1 - attempt) = n ->
  let out := loop (range attempt (max_tries + 1)) max_tries p json_output sent state in
  (forall i st, length sent <= i -> fst out !! i = Some st ->
                unacceptable json_loads json_dumps send json_output (fst out) i st) ->
  snd out = Raise exhausted /\ length (fst out) = length sent + n.
Proof.
  revert attempt sent state. induction n as [|n IH]; intros attempt sent state Hn out Hbad.
  { subst out. rewrite range_nil by lia. simpl. split; [done | lia]. }
  subst out. revert Hbad. rewrite range_cons by lia. intros Hbad.
  destruct (loop_trace (attempt :: range (attempt + 1) (max_tries + 1)) max_tries p
              json_output sent state) as (tl & Hfst & Hhd & _).
  destruct Hhd as [tl' ->]; [done|].
  destruct (Hbad (length sent) state) as (state' & Hstep & Hfin).
  { lia. }
  { rewrite Hfst. by apply list_lookup_middle. }
  rewrite Hfst, take_app_length in Hstep.
  clear Hfst. revert Hbad. rewrite loop_unfold, Hstep, Hfin. intros Hbad.
  destruct (attempt =? max_tries)%Z eqn:Hlast.
  - apply Z.eqb_eq in Hlast. simpl. rewrite length_app. simpl. split; [done | lia].
  - apply Z.eqb_neq in Hlast.
    destruct (IH (attempt + 1)%Z (sent ++ [state]) (retry state' p)) as [Hr Hl].
    + lia.
    + intros i st Hi. apply Hbad. rewrite length_app in Hi. simpl in Hi. lia.
    + split; [done|]. rewrite Hl, length_app. simpl. lia.
Qed.

(** A run stops at the first attempt that settles it: a remote call
    that fails, or a response that finalizes. *)
Lemma loop_stops attempts max_tries p json_output sent state :
  let out := loop attempts max_tries p json_output sent state in
  forall i st, length sent <= i -> fst out !! i = Some st ->
    match snd (step (take i (fst out)) st) with
    | Raise e => length (fst out) = S i /\ snd out = Raise e
    | Ok st' =>
        match finalize st' json_output with
        | Raise e => length (fst out) = S i /\ snd out = Raise e
        | Ok (Some text) => length (fst out) = S i /\ snd out = Ok text
        | Ok None => True
        end
    end.
Proof.
  revert sent state. induction attempts as [|attempt rest IH]; intros sent state out i st Hi Hst.
  { subst out. simpl in Hst. apply lookup_lt_Some in Hst. lia. }
  destruct (loop_trace (attempt :: rest) max_tries p json_output sent state)
    as (tl & Hfst & Hhd & _).
  destruct Hhd as [tl' ->]; [done|]. fold out in Hfst.
  destruct (decide (i = length sent)) as [->|Hne].
  - assert (st = state) as ->.
    { rewrite Hfst, list_lookup_middle in Hst by done. by injection Hst. }
    assert (Htake : take (length sent) (fst out) = sent)
      by (rewrite Hfst; apply take_app_length).
    rewrite Htake. clear Hfst Htake Hst. subst out. rewrite loop_unfold.
    destruct (snd (step sent state)) as [state'|e]; simpl.
    2: { split; [|done]. rewrite length_app. simpl. lia. }
    destruct (finalize state' json_output) as [[text|]|e]; simpl; [|done|];
      (split; [|done]; rewrite length_app; simpl; lia).
  - subst out. revert Hst. rewrite loop_unfold.
    destruct (snd (step sent state)) as [state'|e]; simpl.
    { destruct (finalize state' json_output) as [[text|]|e]; simpl.
      - intros Hst. apply lookup_lt_Some in Hst. rewrite length_app in Hst.
        simpl in Hst. lia.
      - destruct (attempt =? max_tries)%Z; simpl.
        + intros Hst. apply lookup_lt_Some in Hst. rewrite length_app in Hst.
          simpl in Hst. lia.
        + intros Hst. apply (IH (sent ++ [state]) (retry state' p) i st); [|done].
          rewrite length_app. simpl. lia.
      - intros Hst. apply lookup_lt_Some in Hst. rewrite length_app in Hst.
        simpl in Hst. lia. }
    intros Hst. apply lookup_lt_Some in Hst. rewrite length_app in Hst.
    simpl in Hst. lia.
Qed.

(** C5, as amended. A call of [make_full_request] in which every attempt
    made gets a response that is not acceptable (a text that the parser
    refuses with a [JSONDecodeError] in structured mode, a finish reason
    that tells truncation in plain mode) raises the error that stands
    for exhaustion, and it has made exactly [max_tries] remote calls:
    the attempts are all the calls of the run. A response on whose text
    the parse raises another exception is not retried: the run ends at
    that attempt, with that exception. *)
Theorem make_full_request_exhausted p max_tries json_output :
  ((forall i st, fst (run p max_tries json_output) !! i = Some st ->
      unacceptable json_loads json_dumps send json_output
        (fst (run p max_tries json_output)) i st) ->
   snd (run p max_tries json_output)
   = Raise (ValueError "Could not obtain a complete response from the LLM.")
   /\ length (fst (run p max_tries json_output)) = Z.to_nat max_tries)
  /\ (forall i st st' e,
        json_output = true ->
        fst (run p max_tries json_output) !! i = Some st ->
        snd (_step_generation send (take i (fst (run p max_tries json_output))) st)
        = Ok st' ->
        json_loads (accumulated st') = LoadError e ->
        snd (run p max_tries json_output) = Raise e
        /\ length (fst (run p max_tries json_output)) = S i).
Proof.
  split.
  - intros Hbad. unfold make_full_request in *.
    apply (loop_exhausted (Z.to_nat max_tries) 1 max_tries p json_output []);
      [f_equal; lia|].
    intros i st _. apply Hbad.
  - intros i st st' e -> Hst Hstep Hload. unfold make_full_request in *.
    pose proof (loop_stops (range 1 (max_tries + 1)) max_tries p true [] _ i st
                  ltac:(simpl; lia) Hst) as Hstop.
    rewrite Hstep in Hstop. unfold _try_finalize in Hstop. rewrite Hload in Hstop.
    by destruct Hstop.
Qed.

(** Whatever the responses, a run makes no more than [max_tries] remote
    calls. *)
Lemma make_full_request_bounded p max_tries json_output :
  length (fst (run p max_tries json_output)) <= Z.to_nat max_tries.
Proof.
  unfold make_full_request.
  destruct (loop_trace (range 1 (max_tries + 1)) max_tries p json_output []
              {| prompt := p; model := GeminiClientConfig.model cfg;
                 accumulated := ""; finish_reason := "";
                 use_better_model := false |})
    as (tl & Hfst & _ & _ & _ & Hlen).
  rewrite Hfst. rewrite range_length in Hlen. simpl. lia.
Qed.
End CompletionFacts.

Lemma prepare_retry_escalates_once_witness :
  GeminiOpenAIClient._prepare_retry Sample.config
    {| GeminiOpenAIClient.prompt := "Summarise the plan.";
       GeminiOpenAIClient.model := "gemini-2.5-flash";
       GeminiOpenAIClient.accumulated := "The plan has";
       GeminiOpenAIClient.finish_reason := "length";
       GeminiOpenAIClient.use_better_model := false |}
    "Summarise the plan."
  = {| GeminiOpenAIClient.prompt := "Summarise the plan.";
       GeminiOpenAIClient.model := "gemini-2.5-pro";
       GeminiOpenAIClient.accumulated := "";
       GeminiOpenAIClient.finish_reason := "";
       GeminiOpenAIClient.use_better_model := true |}
  /\ GeminiOpenAIClient.escalations
       (fst (GeminiOpenAIClient.make_full_request Sample.config Sample.json_loads
               Sample.json_dumps Sample.always_truncated "Summarise the plan." 5 false))
     <= 1.
Proof.
  pose proof (prepare_retry_escalates_once Sample.config Sample.json_loads
                Sample.json_dumps Sample.always_truncated) as (Hesc & _ & _ & Honce).
  split.
  - by apply Hesc.
  - apply Honce.
Defined.

(** C2, as the specification states it, fails where the configured
    higher-capability model is the model already in use: no distinct
    model is configured, so the specification keeps the buffer and
    sends a continuation prompt, but the code escalates all the same:
    it empties the buffer and restarts from the original prompt. *)
Lemma prepare_retry_same_model_counterexample :
  GeminiClientConfig.better_model Sample.config_same_model
  = Some (GeminiOpenAIClient.model Sample.truncated_state)
  /\ GeminiOpenAIClient.accumulated
       (GeminiOpenAIClient.spec_prepare_retry Sample.config_same_model
          Sample.truncated_state "Summarise the plan.") = "The plan has"
  /\ GeminiOpenAIClient.accumulated
       (GeminiOpenAIClient._prepare_retry Sample.config_same_model
          Sample.truncated_state "Summarise the plan.") = ""
  /\ GeminiOpenAIClient.prompt
       (GeminiOpenAIClient._prepare_retry Sample.config_same_model
          Sample.truncated_state "Summarise the plan.") = "Summarise the plan."
  /\ GeminiOpenAIClient._prepare_retry Sample.config_same_model
       Sample.truncated_state "Summarise the plan."
     <> GeminiOpenAIClient.spec_prepare_retry Sample.config_same_model
          Sample.truncated_state "Summarise the plan.".
Proof. repeat split. intros H. discriminate (f_equal GeminiOpenAIClient.accumulated H). Qed.

(** C5, as the specification states it, fails where the parse of a
    response raises another exception than a [JSONDecodeError]: here
    the response opens a hundred thousand arrays, and [json.loads] raises a
    [RecursionError] on it. The structured output does not parse, yet
    the run does not go on to exhaustion. It ends at that attempt, after
    one remote call of the three allowed, with the exception of the
    parser. *)
Lemma make_full_request_parse_error_counterexample :
  (forall v, Sample.json_loads_deep
               (GeminiOpenAIClient._normalize_response Sample.deep_text) <> Parsed v)
  /\ GeminiOpenAIClient.make_full_request Sample.config Sample.json_loads_deep
    Sample.json_dumps Sample.replies_nested "Plan the request." 3 true
  = ([ {| GeminiOpenAIClient.prompt := "Plan the request.";
          GeminiOpenAIClient.model := "gemini-2.5-flash";
          GeminiOpenAIClient.accumulated := "";
          GeminiOpenAIClient.finish_reason := "";
          GeminiOpenAIClient.use_better_model := false |} ],
     Raise (Foreign "RecursionError"))
  /\ snd (GeminiOpenAIClient.make_full_request Sample.config Sample.json_loads_deep
            Sample.json_dumps Sample.replies_nested "Plan the request." 3 true)
     <> Raise (ValueError "Could not obtain a complete response from the LLM.")
  /\ length (fst (GeminiOpenAIClient.make_full_request Sample.config
                    Sample.json_loads_deep Sample.json_dumps Sample.replies_nested
                    "Plan the request." 3 true)) <> Z.to_nat 3.
Proof.
  assert (Hrun : GeminiOpenAIClient.make_full_request Sample.config Sample.json_loads_deep
            Sample.json_dumps Sample.replies_nested "Plan the request." 3 true
          = ([ {| GeminiOpenAIClient.prompt := "Plan the request.";
                  GeminiOpenAIClient.model := "gemini-2.5-flash";
                  GeminiOpenAIClient.accumulated := "";
                  GeminiOpenAIClient.finish_reason := "";
                  GeminiOpenAIClient.use_better_model := false |} ],
             Raise (Foreign "RecursionError"))) by (vm_compute; reflexivity).
  assert (Hload : Sample.json_loads_deep
                    (GeminiOpenAIClient._normalize_response Sample.deep_text)
                  = LoadError (Foreign "RecursionError")) by (vm_compute; reflexivity).
  rewrite Hrun, Hload. split; [done|]. split; [done|].
  split; [discriminate | vm_compute; lia].
Qed.

Lemma make_full_request_exhausted_witness :
  snd (GeminiOpenAIClient.make_full_request Sample.config Sample.json_loads
         Sample.json_dumps Sample.always_truncated "Summarise the plan." 3 false)
  = Raise (ValueError "Could not obtain a complete response from the LLM.")
  /\ length (fst (GeminiOpenAIClient.make_full_request Sample.config Sample.json_loads
                    Sample.json_dumps Sample.always_truncated "Summarise the plan." 3 false))
     = 3.
Proof.
  apply (proj1 (make_full_request_exhausted Sample.config Sample.json_loads
                  Sample.json_dumps Sample.always_truncated "Summarise the plan." 3 false)).
  intros i st _. eexists. split; reflexivity.
Defined.

(** ** Truth values *)

Lemma py_or_true x y : truthy x = true -> py_or x y = x.
Proof. intros H. unfold py_or. by rewrite H. Qed.

Lemma py_or_false x y : truthy x = false -> py_or x y = y.
Proof. intros H. unfold py_or. by rewrite H. Qed.

Lemma truthy_py_or x y : truthy (py_or x y) = truthy x || truthy y.
Proof. unfold py_or. by destruct (truthy x) eqn:H; [rewrite H|]. Qed.

(** ** The orchestration agent: normalization and reference resolution *)

Section NormalizationFacts.
Import PricingAgent.

Lemma allowed_cases name :
  name ∈ ALLOWED_ACTIONS <-> name = "optimal" \/ name = "subscriptions" \/ name = "summary".
Proof.
  unfold ALLOWED_ACTIONS. rewrite !elem_of_union, !elem_of_singleton. tauto.
Qed.

Lemma normalize_entries_app l1 l2 :
  fst (normalize_entries (l1 ++ l2))
  = fst (normalize_entries l1) ++ fst (normalize_entries l2).
Proof.
  induction l1 as [|entry l1 IH]; [done|]. simpl.
  destruct (_parse_action_entry entry) as [[a|] w];
    destruct (normalize_entries (l1 ++ l2)) as [n ws];
    destruct (normalize_entries l1) as [n1 ws1]; simpl in *; by rewrite IH.
Qed.

Lemma normalize_entries_cons entry l :
  fst (normalize_entries (entry :: l))
  = match fst (_parse_action_entry entry) with
    | Some a => a :: fst (normalize_entries l)
    | None => fst (normalize_entries l)
    end.
Proof.
  simpl. destruct (_parse_action_entry entry) as [[a|] w];
    by destruct (normalize_entries l).
Qed.

(** An entry the parser turns down is not in the normalized plan. *)
Lemma normalize_entries_drop before entry after :
  fst (_parse_action_entry entry) = None ->
  fst (normalize_entries (before ++ entry :: after))
  = fst (normalize_entries (before ++ after)).
Proof.
  intros H. rewrite !normalize_entries_app, normalize_entries_cons. by rewrite H.
Qed.

(** What the parser accepts carries a name of the vocabulary. *)
Lemma parse_action_entry_allowed entry a :
  fst (_parse_action_entry entry) = Some a -> PlannedAction.name a ∈ ALLOWED_ACTIONS.
Proof.
  destruct entry as [| | | |s| |d]; simpl; try done.
  - case_bool_decide; [|done]. by intros [= <-].
  - destruct (dict_get "name" d) as [| | | |name| |]; try done.
    case_bool_decide; [|done].
    destruct (match dict_get "objective" d with PNone => _ | _ => _ end) as [o w1].
    destruct (match py_or _ _ with PNone => _ | _ => _ end) as [u w2].
    by intros [= <-].
Qed.

Lemma normalize_entries_allowed entries a :
  a ∈ fst (normalize_entries entries) -> PlannedAction.name a ∈ ALLOWED_ACTIONS.
Proof.
  induction entries as [|entry entries IH]; [by intros ?%elem_of_nil|].
  rewrite normalize_entries_cons.
  destruct (fst (_parse_action_entry entry)) as [a'|] eqn:Hp; [|done].
  intros [->|Hin]%elem_of_cons; [|by apply IH].
  by apply (parse_action_entry_allowed entry).
Qed.

Lemma normalize_actions_allowed raw a :
  a ∈ fst (_normalize_actions raw) -> PlannedAction.name a ∈ ALLOWED_ACTIONS.
Proof.
  destruct raw; simpl; try by intros ?%elem_of_nil.
  apply normalize_entries_allowed.
Qed.

(** C6. The raw list [["summary", {"name": "optimal", "objective":
    "maximize"}, {"name": "bogus"}]] normalizes to the two actions
    [summary] and [optimal] with objective [maximize]. In any raw list,
    an entry that has no name of the vocabulary is left out and the
    other entries are normalized as without it: a bare name outside the
    vocabulary, an object whose [name] is a string outside the
    vocabulary, an object whose [name] is missing or is no string, and
    an entry that is neither a string nor an object. A structured entry
    with a name of the vocabulary and an objective other than [None],
    ["minimize"], ["maximize"] is kept, at its place and with no
    objective, and the warning [pricing.agent.invalid_objective] is
    logged. Normalization is a total function: none of this raises. *)
Theorem normalize_actions_lenient :
  fst (_normalize_actions
         (PList [PStr "summary";
                 PDict [("name", PStr "optimal"); ("objective", PStr "maximize")];
                 PDict [("name", PStr "bogus")]]))
  = [ {| PlannedAction.name := "summary"; PlannedAction.objective := None;
         PlannedAction.pricing_url := None |};
      {| PlannedAction.name := "optimal"; PlannedAction.objective := Some "maximize";
         PlannedAction.pricing_url := None |} ]
  /\ (forall before after entry,
        (forall name,
           entry = PStr name
           \/ (exists object, entry = PDict object /\ dict_get "name" object = PStr name) ->
           name ∉ ALLOWED_ACTIONS) ->
        fst (_normalize_actions (PList (before ++ entry :: after)))
        = fst (_normalize_actions (PList (before ++ after))))
  /\ (forall before after entry name,
        dict_get "name" entry = PStr name -> name ∈ ALLOWED_ACTIONS ->
        dict_get "objective" entry <> PNone ->
        dict_get "objective" entry <> PStr "minimize" ->
        dict_get "objective" entry <> PStr "maximize" ->
        exists url,
          fst (_normalize_actions (PList (before ++ PDict entry :: after)))
          = fst (_normalize_actions (PList before))
            ++ {| PlannedAction.name := name; PlannedAction.objective := None;
                  PlannedAction.pricing_url := url |}
            :: fst (_normalize_actions (PList after))
          /\ "pricing.agent.invalid_objective" ∈ snd (_parse_action_entry (PDict entry))).
Proof.
  split; [by vm_compute|]. split.
  - intros before after entry Hout. simpl. apply normalize_entries_drop.
    destruct entry as [| | | |name| |object]; simpl; try done.
    + rewrite bool_decide_eq_false_2; [done|]. apply Hout. by left.
    + destruct (dict_get "name" object) as [| | | |name| |] eqn:Hname; try done.
      rewrite bool_decide_eq_false_2; [done|]. apply Hout. right. by exists object.
  - intros before after entry name Hname Hin Hnone Hmin Hmax.
    assert (Hobj : (match dict_get "objective" entry with
                    | PNone => (None, [])
                    | PStr o =>
                        if String.eqb o "minimize" || String.eqb o "maximize"
                        then (Some o, [])
                        else (None, ["pricing.agent.invalid_objective"])
                    | _ => (None, ["pricing.agent.invalid_objective"])
                    end) = (None, ["pricing.agent.invalid_objective"])).
    { destruct (dict_get "objective" entry) as [| | | |o| |]; try done.
      destruct (String.eqb_spec o "minimize") as [->|]; [done|].
      destruct (String.eqb_spec o "maximize") as [->|]; done. }
    assert (Hparse : exists url w,
               _parse_action_entry (PDict entry)
               = (Some {| PlannedAction.name := name; PlannedAction.objective := None;
                          PlannedAction.pricing_url := url |},
                  "pricing.agent.invalid_objective" :: w)).
    { simpl. rewrite Hname, bool_decide_eq_true_2, Hobj by done.
      destruct (match py_or _ _ with PNone => _ | _ => _ end) as [u w2].
      by exists u, w2. }
    destruct Hparse as (url & w & Hparse). exists url. split.
    + simpl. rewrite normalize_entries_app, normalize_entries_cons. by rewrite Hparse.
    + rewrite Hparse. simpl. apply elem_of_cons. by left.
Qed.

(** C8, as amended. The reference of the plan is the plan's value if
    it is a string, the first element if it is a non-empty list. If it
    is true (not empty, not [None]) it is the result. Otherwise a
    caller's reference that is not empty is the result. With neither,
    the result is the sentinel ["uploaded://pricing"] if non-empty
    document content was supplied, and else the caller's reference as
    it came: absent when the plan has no reference, the caller gave
    none and there is no document. *)
Theorem resolve_pricing_reference_cases plan_url incoming_url yaml_content :
  let candidate :=
    match plan_url with
    | PStr s => PStr s
    | PList (first :: _) => first
    | _ => PNone
    end in
  let resolved := fst (_resolve_pricing_reference plan_url incoming_url yaml_content) in
  (truthy candidate = true -> resolved = candidate)
  /\ (truthy candidate = false -> truthy (of_opt incoming_url) = true ->
      resolved = of_opt incoming_url)
  /\ (truthy candidate = false -> truthy (of_opt incoming_url) = false ->
      truthy (of_opt yaml_content) = true -> resolved = PStr "uploaded://pricing")
  /\ (truthy candidate = false -> truthy (of_opt incoming_url) = false ->
      truthy (of_opt yaml_content) = false -> resolved = of_opt incoming_url)
  /\ (plan_url = PNone -> incoming_url = None -> yaml_content = None -> resolved = PNone).
Proof.
  intros candidate resolved.
  assert (Hres : resolved
                 = if truthy (of_opt yaml_content)
                      && negb (truthy (py_or candidate (of_opt incoming_url)))
                   then PStr "uploaded://pricing"
                   else py_or candidate (of_opt incoming_url)).
  { subst resolved candidate. unfold _resolve_pricing_reference.
    destruct plan_url as [| | | |s|[|first l]|d]; simpl;
      by destruct (truthy (of_opt yaml_content) && _). }
  rewrite Hres. repeat split.
  - intros Hc. by rewrite (py_or_true _ _ Hc), Hc, andb_false_r.
  - intros Hc Hi. by rewrite (py_or_false _ _ Hc), Hi, andb_false_r.
  - intros Hc Hi Hy. by rewrite (py_or_false _ _ Hc), Hi, Hy.
  - intros Hc Hi Hy. by rewrite (py_or_false _ _ Hc), Hi, Hy.
  - by intros -> -> ->.
Qed.
End NormalizationFacts.

Lemma resolve_pricing_reference_cases_witness :
  fst (PricingAgent._resolve_pricing_reference
         (PList [PStr "https://example.org/pricing"; PStr "https://example.org/alt"])
         (Some "https://caller.example/pricing") None)
  = PStr "https://example.org/pricing"
  /\ fst (PricingAgent._resolve_pricing_reference (PStr "") None (Some "saasName: demo"))
     = PStr "uploaded://pricing".
Proof.
  split.
  - by apply (resolve_pricing_reference_cases
                (PList [PStr "https://example.org/pricing"; PStr "https://example.org/alt"])
                (Some "https://caller.example/pricing") None).
  - by apply (resolve_pricing_reference_cases (PStr "") None (Some "saasName: demo")).
Defined.

(** C8, as the specification states it, fails on a plan whose
    reference is the empty string: it is a string, so the specification
    makes it the result, but the code falls back on the caller's
    reference. *)
Lemma resolve_pricing_reference_empty_counterexample :
  fst (PricingAgent._resolve_pricing_reference
         (PStr "") (Some "https://caller.example/pricing") None)
  = PStr "https://caller.example/pricing"
  /\ PricingAgent.spec_resolve_pricing_reference
       (PStr "") (Some "https://caller.example/pricing") None
     = PStr ""
  /\ fst (PricingAgent._resolve_pricing_reference
            (PStr "") (Some "https://caller.example/pricing") None)
     <> PricingAgent.spec_resolve_pricing_reference
          (PStr "") (Some "https://caller.example/pricing") None.
Proof. repeat split. discriminate. Qed.

Lemma normalize_actions_lenient_witness :
  exists url,
    fst (PricingAgent._normalize_actions
           (PList [PStr "summary";
                   PDict [("name", PStr "optimal"); ("objective", PStr "cheapest")]]))
    = [ {| PlannedAction.name := "summary"; PlannedAction.objective := None;
           PlannedAction.pricing_url := None |};
        {| PlannedAction.name := "optimal"; PlannedAction.objective := None;
           PlannedAction.pricing_url := url |} ].
Proof.
  destruct normalize_actions_lenient as (_ & _ & Hkeep).
  destruct (Hkeep [PStr "summary"] []
              [("name", PStr "optimal"); ("objective", PStr "cheapest")] "optimal")
    as (url & Heq & _); try done.
  exists url. etrans; [exact Heq|]. by vm_compute.
Defined.

(** ** Equality of values *)

Lemma pyval_eqb_sound : forall x y, pyval_eqb x y = true -> x = y.
Proof.
  fix IH 1. intros x y.
  destruct x as [|a|a|a|a|a|a], y as [|b|b|b|b|b|b]; simpl; try discriminate; intros H.
  - done.
  - apply eqb_prop in H. by subst.
  - apply Z.eqb_eq in H. by subst.
  - apply FloatAxioms.Leibniz.eqb_spec in H. by subst.
  - apply String.eqb_eq in H. by subst.
  - f_equal. revert b H. induction a as [|x a IHa]; intros [|y b] H; try done.
    apply andb_true_iff in H as [H1 H2]. f_equal; [by apply IH | by apply IHa].
  - f_equal. revert b H. induction a as [|[k x] a IHa]; intros [|[k' y] b] H; try done.
    apply andb_true_iff in H as [H1 H2]. apply andb_true_iff in H1 as [H0 H1].
    apply String.eqb_eq in H0. subst.
    f_equal; [f_equal; by apply IH | by apply IHa].
Qed.

Lemma pyval_eqb_refl : forall x, pyval_eqb x x = true.
Proof.
  fix IH 1. intros x. destruct x as [|a|a|a|a|a|a]; simpl.
  - done.
  - by destruct a.
  - apply Z.eqb_refl.
  - by apply FloatAxioms.Leibniz.eqb_spec.
  - apply String.eqb_refl.
  - induction a as [|x a IHa]; [done|]. by rewrite IH, IHa.
  - induction a as [|[k x] a IHa]; [done|]. by rewrite String.eqb_refl, IH, IHa.
Qed.

Lemma pyval_eqb_eq x y : pyval_eqb x y = true <-> x = y.
Proof. split; [apply pyval_eqb_sound | intros ->; apply pyval_eqb_refl]. Qed.

Lemma existsb_pyval_eqb x (s : list pyval) : existsb (pyval_eqb x) s = true <-> x ∈ s.
Proof.
  rewrite existsb_exists. split.
  - intros (y & Hin & Heq). apply pyval_eqb_eq in Heq. subst.
    by apply list_elem_of_In.
  - intros Hin. exists x. split; [by apply list_elem_of_In | apply pyval_eqb_refl].
Qed.

(** ** The orchestration agent: execution *)

Section AgentFacts.
Import PricingAgent.
Variable workflow : list wf_call -> wf_call -> result pyval.
Variable generate_plan : string -> option string -> option string -> result pyval.
Variable generate_answer : string -> pydict -> pyval -> result string.

Abbreviation exec_loop := (execute_loop workflow).
Abbreviation exec_actions := (_execute_actions workflow).
Abbreviation handle := (handle_question workflow generate_plan generate_answer).

(** *** The context precondition *)

Lemma ensure_pricing_context_raises actions url yaml a :
  a ∈ actions -> PlannedAction.name a ∈ ALLOWED_ACTIONS ->
  truthy (py_or (action_url url a) (of_opt yaml)) = false ->
  exists msg, _ensure_pricing_context actions url yaml = Raise (ValueError msg).
Proof.
  intros Hin Hname Hnone. induction actions as [|a' rest IH]; [by apply elem_of_nil in Hin|].
  cbn [_ensure_pricing_context].
  destruct (bool_decide _ && negb _) eqn:H1; [eauto|].
  destruct (String.eqb _ "summary" && negb _) eqn:H2; [eauto|].
  apply elem_of_cons in Hin as [<-|Hin]; [|by apply IH].
  exfalso. fold (action_url url a) in H1, H2. rewrite Hnone in H1, H2.
  rewrite andb_true_r in H1, H2.
  apply bool_decide_eq_false in H1. apply String.eqb_neq in H2.
  apply allowed_cases in Hname.
  rewrite elem_of_union, !elem_of_singleton in H1. tauto.
Qed.

Lemma ensure_pricing_context_ok actions url yaml a :
  _ensure_pricing_context actions url yaml = Ok () ->
  a ∈ actions -> PlannedAction.name a ∈ ALLOWED_ACTIONS ->
  truthy (py_or (action_url url a) (of_opt yaml)) = true.
Proof.
  intros Hok Hin Hname.
  destruct (truthy (py_or (action_url url a) (of_opt yaml))) eqn:H; [done|].
  destruct (ensure_pricing_context_raises actions url yaml a Hin Hname H) as [msg Hr].
  congruence.
Qed.

(** With document content the resolved reference is never empty. *)
Lemma plan_url_truthy plan pricing_url yaml :
  truthy (of_opt yaml) = true -> truthy (plan_url plan pricing_url yaml) = true.
Proof.
  intros Hy. unfold plan_url, _resolve_pricing_reference.
  destruct (match dict_get "pricing_url" plan with PNone => _ | _ => _ end) as [r w].
  rewrite Hy. simpl. by destruct (truthy (py_or r (of_opt pricing_url))) eqn:H.
Qed.

(** *** The inputs of one action *)

Lemma prepare_action_inputs_ok a url refresh T yaml r eff y :
  _prepare_action_inputs a url refresh T yaml = Ok (r, eff, y) ->
  r = action_url url a
  /\ eff = refresh && truthy r && negb (existsb (pyval_eqb r) T).
Proof.
  unfold _prepare_action_inputs, set_contains. fold (action_url url a).
  destruct (refresh && truthy (action_url url a)) eqn:Hrt.
  - destruct (hashable (action_url url a)); [|done]. simpl. intros [= <- <- _].
    by rewrite Hrt.
  - simpl. intros [= <- <- _]. by rewrite Hrt.
Qed.

Lemma run_single_action_refresh a r eff solver filters objective y :
  call_refresh (_run_single_action a r eff solver filters objective y) = eff.
Proof. unfold _run_single_action. by repeat destruct (String.eqb _ _). Qed.

Lemma run_single_action_url a r eff solver filters objective y :
  truthy r = true ->
  call_url (_run_single_action a r eff solver filters objective y) = r.
Proof.
  intros H. unfold _run_single_action.
  repeat destruct (String.eqb _ _); simpl; by rewrite ?(py_or_true _ _ H).
Qed.

(** *** The calls of a run *)

(** The calls the loop adds are those of the actions, in order, and the
    refresh flag of each is decided by the plan's flag, the reference of
    the action and the references refreshed before it: those in
    [transformed_urls] at the start and those of the calls added. *)
Lemma execute_loop_calls actions :
  forall index url refresh solver filters objective yaml calls results T last,
  exists new,
    fst (exec_loop actions index url refresh solver filters objective yaml
           calls results T last) = calls ++ new
    /\ forall i c, new !! i = Some c ->
       exists a, actions !! i = Some a
         /\ (truthy (action_url url a) = true -> call_url c = action_url url a)
         /\ (call_refresh c = true ->
             refresh = true /\ truthy (action_url url a) = true
             /\ (action_url url a ∉ T)
             /\ ~ refreshed_before url actions new i (action_url url a))
         /\ (call_refresh c = false ->
             refresh = false \/ truthy (action_url url a) = false
             \/ action_url url a ∈ T
             \/ refreshed_before url actions new i (action_url url a)).
Proof.
  induction actions as [|action rest IH];
    intros index url refresh solver filters objective yaml calls results T last.
  { exists []. simpl. rewrite app_nil_r. split; [done|]. by intros i c ?. }
  cbn [execute_loop].
  destruct (_prepare_action_inputs action url refresh T yaml) as [[[r eff] y]|e] eqn:Hprep;
    [|exists []; rewrite app_nil_r; split; [done | by intros i c ?]].
  apply prepare_action_inputs_ok in Hprep as [-> Heff].
  set (r := action_url url action) in *.
  set (call := _run_single_action action r eff solver filters objective y).
  assert (Hhead : forall new,
    (truthy r = true -> call_url call = r)
    /\ (call_refresh call = true ->
        refresh = true /\ truthy r = true /\ (r ∉ T)
        /\ ~ refreshed_before url (action :: rest) new 0 r)
    /\ (call_refresh call = false ->
        refresh = false \/ truthy r = false \/ r ∈ T
        \/ refreshed_before url (action :: rest) new 0 r)).
  { intros new. subst call. rewrite run_single_action_refresh. split; [|split].
    - apply run_single_action_url.
    - intros ->. symmetry in Heff.
      apply andb_true_iff in Heff as [Hrt Hn].
      apply andb_true_iff in Hrt as [-> ->].
      apply negb_true_iff, not_true_iff_false in Hn. rewrite existsb_pyval_eqb in Hn.
      repeat split; [done|]. intros (j & ? & ? & ? & _). lia.
    - intros ->. destruct refresh; [|by left]. destruct (truthy r); [|by right; left].
      right; right; left. simpl in Heff. symmetry in Heff.
      apply negb_false_iff in Heff. by apply existsb_pyval_eqb. }
  destruct (workflow calls call) as [payload|e] eqn:Hwf.
  2: { exists [call]. split; [done|]. intros [|i] c Hc; [|done].
       injection Hc as <-. exists action. split; [done|]. apply Hhead. }
  match goal with
  | |- context [execute_loop workflow rest ?ix url refresh solver filters objective
                  yaml ?cs ?rs ?T' payload] =>
      destruct (IH ix url refresh solver filters objective yaml cs rs T' payload)
        as (new & Hfst & Hspec); set (T1 := T') in *
  end.
  exists (call :: new). split; [by rewrite Hfst, <- app_assoc|].
  intros [|i] c Hc.
  { injection Hc as <-. exists action. split; [done|]. apply Hhead. }
  cbn [lookup list_lookup] in Hc.
  destruct (Hspec i c Hc) as (a & Ha & Hurl & Htrue & Hfalse).
  exists a. split; [done|]. split; [done|].
  assert (HT1 : forall x, x ∈ T1 <-> x ∈ T \/ (call_refresh call = true /\ x = r)).
  { intros x. subst T1 call. rewrite run_single_action_refresh.
    destruct eff; simpl.
    - symmetry in Heff. apply andb_true_iff in Heff as [Hrt _].
      apply andb_true_iff in Hrt as [_ ->].
      rewrite elem_of_cons. split.
      + intros [->|HinT]; [by right | by left].
      + intros [HinT|[_ ->]]; [by right | by left].
    - split; [by left | by intros [HinT|[? _]]]. }
  assert (Hbefore : forall x,
    refreshed_before url (action :: rest) (call :: new) (S i) x
    <-> (call_refresh call = true /\ r = x) \/ refreshed_before url rest new i x).
  { intros x. unfold refreshed_before. split.
    - intros ([|j] & a' & c' & Hj & Ha' & Hc' & Hr & Hx).
      + left. injection Ha' as <-. injection Hc' as <-. done.
      + right. exists j, a', c'. repeat split; [lia|done..].
    - intros [[Hr Hx] | (j & a' & c' & Hj & Ha' & Hc' & Hr & Hx)].
      + exists 0, action, call. repeat split; [lia|done..].
      + exists (S j), a', c'. repeat split; [lia|done..]. }
  split.
  - intros Hc1. destruct (Htrue Hc1) as (Hr & Ht & HnT & Hnb).
    repeat split; [done | done | |].
    + intros HinT. apply HnT, HT1. by left.
    + intros [[Hr1 Hx] | Hb]%Hbefore; [|done]. apply HnT, HT1. by right.
  - intros Hc0. destruct (Hfalse Hc0) as [Hr | [Ht | [HinT | Hb]]].
    + by left.
    + by right; left.
    + apply HT1 in HinT as [HinT | [Hr1 Hx]]; [by right; right; left|].
      right; right; right. apply Hbefore. by left.
    + right; right; right. apply Hbefore. by right.
Qed.

(** *** A request *)

(** A request that has a plan dispatches nothing, or it has passed both
    checks and its calls are those of the loop over the normalized plan. *)
Lemma handle_question_calls question pricing_url yaml plan :
  generate_plan question pricing_url yaml = Ok (PDict plan) ->
  fst (handle question pricing_url yaml) = []
  \/ (_ensure_pricing_context (plan_actions plan) (plan_url plan pricing_url yaml) yaml
      = Ok ()
      /\ fst (handle question pricing_url yaml)
         = fst (exec_loop (plan_actions plan) 0 (plan_url plan pricing_url yaml)
                  (plan_refresh plan) (plan_solver plan) (plan_filters plan)
                  (plan_objective plan) yaml [] [] [] PNone)).
Proof.
  intros Hplan. unfold handle_question. rewrite Hplan.
  destruct (_validate_yaml_requirement plan yaml) as [[]|e0]; [|by left].
  unfold _execute_actions.
  destruct (plan_actions plan) as [|a rest] eqn:Hacts; [by left|].
  destruct (_ensure_pricing_context (a :: rest) _ yaml) as [[]|e]; [|by left].
  right. split; [done|].
  destruct (exec_loop _ _ _ _ _ _ _ _ _ _ _ _) as [calls [[results last]|e]]; [|done].
  by destruct (_compose_results_payload _ _ _).
Qed.

(** Past the context check every action of the plan has a reference
    that is not empty. *)
Lemma action_url_truthy plan pricing_url yaml a :
  _ensure_pricing_context (plan_actions plan) (plan_url plan pricing_url yaml) yaml = Ok () ->
  a ∈ plan_actions plan ->
  truthy (action_url (plan_url plan pricing_url yaml) a) = true.
Proof.
  intros Hok Hin.
  assert (Hname : PlannedAction.name a ∈ ALLOWED_ACTIONS)
    by (by apply (normalize_actions_allowed (dict_get "actions" plan))).
  pose proof (ensure_pricing_context_ok _ _ _ a Hok Hin Hname) as Hctx.
  rewrite truthy_py_or in Hctx.
  destruct (truthy (of_opt yaml)) eqn:Hy; [|by rewrite orb_false_r in Hctx].
  unfold action_url. rewrite truthy_py_or, (plan_url_truthy plan pricing_url yaml Hy).
  apply orb_true_r.
Qed.

(** C7. A request whose normalized plan has an action with no
    reference of its own, no resolved request reference and no document
    content fails with the [ValueError] that stands for an invalid
    request, and no call is dispatched to the workflow. *)
Theorem missing_context_rejected question pricing_url yaml plan a :
  generate_plan question pricing_url yaml = Ok (PDict plan) ->
  a ∈ plan_actions plan ->
  truthy (action_url (plan_url plan pricing_url yaml) a) = false ->
  truthy (of_opt yaml) = false ->
  exists msg, handle question pricing_url yaml = ([], Raise (ValueError msg)).
Proof.
  intros Hplan Hin Hurl Hyaml. unfold handle_question. rewrite Hplan.
  unfold _validate_yaml_requirement.
  destruct (truthy (dict_get "requires_uploaded_yaml" plan) && _); [eauto|].
  assert (Hname : PlannedAction.name a ∈ ALLOWED_ACTIONS)
    by (by apply (normalize_actions_allowed (dict_get "actions" plan))).
  destruct (ensure_pricing_context_raises (plan_actions plan)
              (plan_url plan pricing_url yaml) yaml a Hin Hname) as [msg Hraise].
  { by rewrite truthy_py_or, Hurl, Hyaml. }
  exists msg. unfold _execute_actions. rewrite Hraise.
  destruct (plan_actions plan); [by apply elem_of_nil in Hin | done].
Qed.

(** C3. In a request, the calls dispatched are those of the first
    actions of the normalized plan, each on the reference of its
    action, which is never empty. A call carries [refresh=true] exactly
    when the plan asks for a refresh, the action has a reference, and no
    earlier call of the request carried [refresh=true] for that
    reference. So no two calls with [refresh=true] are on the same
    reference; of two actions on one reference the later is dispatched
    with [refresh=false]; and the first call carries the plan's flag. *)
Theorem refresh_once_per_reference question pricing_url yaml plan :
  generate_plan question pricing_url yaml = Ok (PDict plan) ->
  let calls := fst (handle question pricing_url yaml) in
  let actions := plan_actions plan in
  let url := plan_url plan pricing_url yaml in
  (forall i c, calls !! i = Some c ->
     exists a, actions !! i = Some a
       /\ truthy (action_url url a) = true
       /\ call_url c = action_url url a
       /\ (call_refresh c = true <->
           plan_refresh plan = true /\ truthy (action_url url a) = true
           /\ ~ refreshed_before url actions calls i (action_url url a)))
  /\ (forall i j ci cj, i < j -> calls !! i = Some ci -> calls !! j = Some cj ->
        call_refresh ci = true -> call_refresh cj = true -> call_url ci <> call_url cj)
  /\ (forall i j ai aj cj, i < j ->
        actions !! i = Some ai -> actions !! j = Some aj ->
        action_url url ai = action_url url aj -> calls !! j = Some cj ->
        call_refresh cj = false)
  /\ (forall c, calls !! 0 = Some c -> call_refresh c = plan_refresh plan).
Proof.
  intros Hplan calls actions url.
  assert (Hspec : forall i c, calls !! i = Some c ->
    exists a, actions !! i = Some a
      /\ truthy (action_url url a) = true
      /\ call_url c = action_url url a
      /\ (call_refresh c = true ->
          plan_refresh plan = true
          /\ ~ refreshed_before url actions calls i (action_url url a))
      /\ (call_refresh c = false ->
          plan_refresh plan = false
          \/ refreshed_before url actions calls i (action_url url a))).
  { destruct (handle_question_calls question pricing_url yaml plan Hplan)
      as [Hnil | [Hok Hcalls]].
    { subst calls. rewrite Hnil. by intros i c ?. }
    destruct (execute_loop_calls actions 0 url (plan_refresh plan) (plan_solver plan)
                (plan_filters plan) (plan_objective plan) yaml [] [] [] PNone)
      as (new & Hnew & Hloop).
    assert (calls = new) as -> by (etrans; [exact Hcalls | exact Hnew]).
    intros i c Hc. destruct (Hloop i c Hc) as (a & Ha & Hurl & Htrue & Hfalse).
    assert (Ht : truthy (action_url url a) = true).
    { apply action_url_truthy; [done|]. apply list_elem_of_lookup. by exists i. }
    exists a. repeat split; [done | done | by apply Hurl | by apply Htrue | by apply Htrue |].
    intros Hc0. destruct (Hfalse Hc0) as [Hr | [Hf | [HinT | Hb]]].
    - by left.
    - congruence.
    - by apply elem_of_nil in HinT.
    - by right. }
  split; [|split; [|split]].
  - intros i c Hc. destruct (Hspec i c Hc) as (a & Ha & Ht & Hurl & Htrue & Hfalse).
    exists a. repeat split; [done | done | done | by apply Htrue | done | by apply Htrue |].
    intros (Hr & _ & Hnb). destruct (call_refresh c); [done|].
    destruct Hfalse as [Hr' | Hb]; [done | congruence | done].
  - intros i j ci cj Hij Hi Hj Hci Hcj Heq.
    destruct (Hspec i ci Hi) as (ai & Hai & _ & Hurli & _).
    destruct (Hspec j cj Hj) as (aj & Haj & _ & Hurlj & Htrue & _).
    destruct (Htrue Hcj) as [_ Hnb]. apply Hnb.
    exists i, ai, ci. repeat split; [done..|]. congruence.
  - intros i j ai aj cj Hij Hai Haj Heq Hj.
    destruct (call_refresh cj) eqn:Hcj; [exfalso|done].
    destruct (Hspec j cj Hj) as (aj' & Haj' & Htj & _ & Htrue & _).
    assert (aj' = aj) as -> by congruence.
    destruct (Htrue Hcj) as [Hr Hnb].
    destruct (lookup_lt_is_Some_2 calls i) as [ci Hi].
    { apply lookup_lt_Some in Hj. lia. }
    destruct (Hspec i ci Hi) as (ai' & Hai' & _ & _ & _ & Hfalse).
    assert (ai' = ai) as -> by congruence.
    destruct (call_refresh ci) eqn:Hci.
    + apply Hnb. exists i, ai, ci. by repeat split.
    + destruct (Hfalse eq_refl) as [Hr' | (k & ak & ck & Hk & Hak & Hck & Hrk & Hurlk)];
        [congruence|].
      apply Hnb. exists k, ak, ck. repeat split; [lia | done | done | done | congruence].
  - intros c Hc. destruct (Hspec 0 c Hc) as (a & _ & _ & _ & Htrue & Hfalse).
    destruct (call_refresh c).
    + symmetry. by apply Htrue.
    + destruct Hfalse as [Hr | (k & ? & ? & Hk & _)]; [done | done | lia].
Qed.

(** C1, as amended. For a request whose normalized plan is the one
    action [a] and that returns a response: one call was dispatched;
    the payload given to the answer synthesis is the payload of that
    call as the workflow returned it (an empty dict in place of
    [None]); the [result] of the response is not that payload but the
    step record around it, with the index 0, the name of the action, the
    payload, the resolved objective for [optimal], and the reference. *)
Theorem single_action_result question pricing_url yaml plan a calls resp :
  generate_plan question pricing_url yaml = Ok (PDict plan) ->
  plan_actions plan = [a] ->
  handle question pricing_url yaml = (calls, Ok resp) ->
  exists call payload,
    calls = [call]
    /\ workflow [] call = Ok payload
    /\ generate_answer question plan
         (match payload with PNone => PDict [] | _ => payload end)
       = Ok (resp_answer resp)
    /\ resp_result resp
       = PDict ([("index", PInt 0);
                 ("action", PStr (PlannedAction.name a));
                 ("payload", payload)]
                ++ (if String.eqb (PlannedAction.name a) "optimal"
                    then [("objective",
                           py_or (of_opt (PlannedAction.objective a)) (plan_objective plan))]
                    else [])
                ++ [("url", action_url (plan_url plan pricing_url yaml) a)]).
Proof.
  intros Hplan Hacts. unfold handle_question. rewrite Hplan.
  destruct (_validate_yaml_requirement plan yaml) as [[]|e0]; [|done].
  unfold _execute_actions. rewrite Hacts.
  destruct (_ensure_pricing_context [a] _ yaml) as [[]|e1] eqn:Hctx; [|done].
  assert (Ht : truthy (action_url (plan_url plan pricing_url yaml) a) = true).
  { apply action_url_truthy; rewrite Hacts; [done | apply elem_of_cons; by left]. }
  cbn [execute_loop].
  destruct (_prepare_action_inputs a _ _ [] yaml) as [[[r eff] y]|e2] eqn:Hprep; [|done].
  apply prepare_action_inputs_ok in Hprep as [-> _]. rewrite Ht.
  set (call := _run_single_action a _ eff _ _ _ y).
  cbn [app]. destruct (workflow [] call) as [payload|e3] eqn:Hwf; [|done].
  cbn [_compose_results_payload app dict_get String.eqb Ascii.eqb Bool.eqb].
  set (answer_payload := match payload with PNone => py_or payload (PDict []) | _ => payload end).
  assert (Hans : answer_payload = match payload with PNone => PDict [] | _ => payload end)
    by (subst answer_payload; by destruct payload).
  rewrite Hans.
  destruct (generate_answer question plan _) as [answer|e4] eqn:Hgen; [|done].
  cbn. intros [= <- <-]. exists call, payload. by repeat split.
Qed.
End AgentFacts.

Lemma single_action_result_witness :
  exists call payload,
    [PricingAgent.run_summary (PStr "https://example.org/pricing") None true] = [call]
    /\ Sample.workflow [] call = Ok payload
    /\ Sample.answerer "How many plans are there?" Sample.plan_summary
         (match payload with PNone => PDict [] | _ => payload end)
       = Ok "There are three plans."
    /\ PDict [("index", PInt 0); ("action", PStr "summary");
              ("payload", PDict [("summary", PStr "three plans")]);
              ("url", PStr "https://example.org/pricing")]
       = PDict ([("index", PInt 0); ("action", PStr "summary"); ("payload", payload)]
                ++ []
                ++ [("url", PStr "https://example.org/pricing")]).
Proof.
  apply (single_action_result Sample.workflow (Sample.planner Sample.plan_summary)
           Sample.answerer "How many plans are there?"
           (Some "https://example.org/pricing") None Sample.plan_summary
           Sample.summary_action
           [PricingAgent.run_summary (PStr "https://example.org/pricing") None true]
           {| PricingAgent.resp_plan := Sample.plan_summary;
              PricingAgent.resp_result :=
                PDict [("index", PInt 0); ("action", PStr "summary");
                       ("payload", PDict [("summary", PStr "three plans")]);
                       ("url", PStr "https://example.org/pricing")];
              PricingAgent.resp_answer := "There are three plans." |}).
  - reflexivity.
  - by vm_compute.
  - by vm_compute.
Defined.

(** C1, as the specification states it, fails on a plan with the one
    action [summary]: the workflow returns the payload
    [{"summary": "three plans"}], and the [result] of the response is
    the step record with the keys [index], [action], [payload] and
    [url], not the payload. *)
Lemma single_action_result_counterexample :
  PricingAgent.handle_question Sample.workflow (Sample.planner Sample.plan_summary)
    Sample.answerer "How many plans are there?" (Some "https://example.org/pricing") None
  = ([PricingAgent.run_summary (PStr "https://example.org/pricing") None true],
     Ok {| PricingAgent.resp_plan := Sample.plan_summary;
           PricingAgent.resp_result :=
             PDict [("index", PInt 0); ("action", PStr "summary");
                    ("payload", PDict [("summary", PStr "three plans")]);
                    ("url", PStr "https://example.org/pricing")];
           PricingAgent.resp_answer := "There are three plans." |})
  /\ Sample.workflow [] (PricingAgent.run_summary (PStr "https://example.org/pricing") None true)
     = Ok (PDict [("summary", PStr "three plans")])
  /\ PDict [("index", PInt 0); ("action", PStr "summary");
            ("payload", PDict [("summary", PStr "three plans")]);
            ("url", PStr "https://example.org/pricing")]
     <> PDict [("summary", PStr "three plans")].
Proof. split; [by vm_compute|]. split; [done | discriminate]. Qed.

Lemma missing_context_rejected_witness :
  exists msg,
    PricingAgent.handle_question Sample.workflow (Sample.planner Sample.plan_optimal)
      Sample.answerer "Which plan is the cheapest?" None None
    = ([], Raise (ValueError msg)).
Proof.
  apply (missing_context_rejected Sample.workflow (Sample.planner Sample.plan_optimal)
           Sample.answerer "Which plan is the cheapest?" None None Sample.plan_optimal
           Sample.optimal_action).
  - reflexivity.
  - vm_compute. constructor.
  - by vm_compute.
  - reflexivity.
Defined.

Lemma refresh_once_per_reference_witness :
  fst (PricingAgent.handle_question Sample.workflow (Sample.planner Sample.plan_shared)
         Sample.answerer "Which plan is the most expensive?"
         (Some "https://example.org/pricing") None)
  = [PricingAgent.run_subscriptions (PStr "https://example.org/pricing") None
       (PStr "minizinc") true None;
     PricingAgent.run_optimal (PStr "https://example.org/pricing") None
       (PStr "minizinc") (PStr "maximize") false None]
  /\ PricingAgent.call_refresh
       (PricingAgent.run_optimal (PStr "https://example.org/pricing") None
          (PStr "minizinc") (PStr "maximize") false None) = false.
Proof.
  split; [by vm_compute|].
  pose proof (refresh_once_per_reference Sample.workflow
                (Sample.planner Sample.plan_shared) Sample.answerer
                "Which plan is the most expensive?" (Some "https://example.org/pricing")
                None Sample.plan_shared eq_refl) as (_ & _ & Hlater & _).
  apply (Hlater 0 1 Sample.subscriptions_action Sample.optimal_maximize_action);
    [lia | by vm_compute..].
Defined.

(** * Further properties of the code *)

(** ** The in-process cache, beyond expiry *)

Section CacheMore.
Import MemoryCache.
Implicit Types (store : gmap string CacheEntry) (key : string) (v : pyval).

(** The three cases of a [get]. *)
Lemma get_cases now key store :
  (store !! key = None /\ get now key store = (PNone, store))
  \/ (exists entry, store !! key = Some entry /\ (expires_at entry < now)%Q
      /\ get now key store = (PNone, delete key store))
  \/ (exists entry, store !! key = Some entry /\ (now <= expires_at entry)%Q
      /\ get now key store = (value entry, store)).
Proof.
  destruct (store !! key) as [entry|] eqn:H.
  - destruct (Qlt_le_dec (expires_at entry) now) as [Hlt|Hle].
    + right; left. exists entry. by rewrite (get_expired _ _ _ _ H Hlt).
    + right; right. exists entry. by rewrite (get_live _ _ _ _ H Hle).
  - left. by rewrite (get_missing _ _ _ H).
Qed.

(** A [get] never serves a stale or an invented value: what it returns,
    if not [None], is the value of the entry stored under the key, that
    entry has not expired, and the store is left as it was. *)
Theorem get_serves_only_live now key store v :
  fst (get now key store) = v -> v <> PNone ->
  exists entry,
    store !! key = Some entry /\ value entry = v
    /\ (now <= expires_at entry)%Q
    /\ snd (get now key store) = store.
Proof.
  intros Hv Hne.
  destruct (get_cases now key store)
    as [[_ Hg] | [(entry & _ & _ & Hg) | (entry & He & Hle & Hg)]];
    rewrite Hg in Hv |- *; simpl in *; try congruence.
  exists entry. by repeat split.
Qed.

(** Keys do not interfere: what a [get] of [key'] returns is the same
    after a [set] or a [get] of another key, and a [get] only ever
    removes the entry of its own key. *)
Theorem cache_keys_independent now now' key key' store v ttl :
  key <> key' ->
  fst (get now' key' (set now key v ttl store)) = fst (get now' key' store)
  /\ fst (get now' key' (snd (get now key store))) = fst (get now' key' store)
  /\ snd (get now key store) !! key' = store !! key'.
Proof.
  intros Hne.
  assert (Hdep : forall s1 s2 : gmap string CacheEntry,
             s1 !! key' = s2 !! key' -> fst (get now' key' s1) = fst (get now' key' s2)).
  { intros s1 s2 Heq. unfold get. rewrite Heq.
    destruct (s2 !! key') as [entry|]; [|done]. by destruct (Qltb _ _). }
  repeat split.
  - apply Hdep. unfold set. by apply lookup_insert_ne.
  - apply Hdep. by apply get_other.
  - by apply get_other.
Qed.

(** The last [set] wins: an earlier [set] of the same key leaves no
    trace, so the expiry instant is the one of the last [set], also when
    the earlier one was later; a [get] before it returns the last value. *)
Theorem set_overwrites store key v1 v2 ttl1 ttl2 (t1 t2 t_get : Q) :
  set t2 key v2 ttl2 (set t1 key v1 ttl1 store) = set t2 key v2 ttl2 store
  /\ ((t_get <= t2 + inject_Z ttl2)%Q ->
      fst (get t_get key (set t2 key v2 ttl2 (set t1 key v1 ttl1 store))) = v2).
Proof.
  assert (Heq : set t2 key v2 ttl2 (set t1 key v1 ttl1 store) = set t2 key v2 ttl2 store)
    by (unfold set; apply insert_insert_eq).
  split; [done|]. intros Hle. rewrite Heq.
  by rewrite (get_live _ _ _ _ (set_lookup t2 key v2 ttl2 store)).
Qed.

(** A key that reads as absent stays absent: after a [get] that
    returned [None], every later [get] of the key returns [None], at
    whatever instant, as long as no [set] of the key comes between. *)
Theorem absent_stays_absent now now' key store :
  fst (get now key store) = PNone ->
  fst (get now' key (snd (get now key store))) = PNone.
Proof.
  intros Hnone.
  destruct (get_cases now key store)
    as [[Hmiss Hg] | [(entry & _ & _ & Hg) | (entry & He & _ & Hg)]];
    rewrite Hg in Hnone |- *; simpl in *.
  - by rewrite (get_missing _ _ _ Hmiss).
  - by rewrite (get_missing now' key (delete key store) (lookup_delete_eq _ _)).
  - destruct (get_cases now' key store)
      as [[_ Hg'] | [(entry' & _ & _ & Hg') | (entry' & He' & _ & Hg')]];
      rewrite Hg'; simpl; [done | done | congruence].
Qed.

(** An entry stored with a negative time to live is born expired: a
    [get] at the instant of the [set] or later returns [None] and removes
    it. With a zero time to live the entry can be read at the instant of
    the [set] only. *)
Theorem nonpositive_ttl store key v ttl (t_set t_get : Q) :
  (t_set <= t_get)%Q ->
  ((ttl < 0)%Z ->
     get t_get key (set t_set key v ttl store)
     = (PNone, delete key (set t_set key v ttl store)))
  /\ (ttl = 0%Z ->
     get t_set key (set t_set key v ttl store) = (v, set t_set key v ttl store)
     /\ ((t_set < t_get)%Q -> fst (get t_get key (set t_set key v ttl store)) = PNone)).
Proof.
  intros Hle. split.
  - intros Hneg. apply (get_expired _ _ _ _ (set_lookup t_set key v ttl store)). simpl.
    assert (H0 : (inject_Z ttl < inject_Z 0)%Q) by (by rewrite <- Zlt_Qlt).
    change (inject_Z 0) with 0%Q in H0. lra.
  - intros ->. split.
    + apply (get_live _ _ _ _ (set_lookup t_set key v 0 store)). simpl.
      change (inject_Z 0) with 0%Q. lra.
    + intros Hlt.
      rewrite (get_expired _ _ _ _ (set_lookup t_set key v 0 store)); [done|]. simpl.
      change (inject_Z 0) with 0%Q. lra.
Qed.
End CacheMore.

Lemma get_serves_only_live_witness :
  exists entry,
    MemoryCache.set 0 "k" (PStr "v") 5 ∅ !! "k" = Some entry
    /\ MemoryCache.value entry = PStr "v"
    /\ (3 <= MemoryCache.expires_at entry)%Q
    /\ snd (MemoryCache.get 3 "k" (MemoryCache.set 0 "k" (PStr "v") 5 ∅))
       = MemoryCache.set 0 "k" (PStr "v") 5 ∅.
Proof.
  apply (get_serves_only_live 3 "k" (MemoryCache.set 0 "k" (PStr "v") 5 ∅) (PStr "v")).
  - reflexivity.
  - discriminate.
Defined.

Lemma cache_keys_independent_witness :
  fst (MemoryCache.get 1 "b" (MemoryCache.set 0 "a" (PStr "x") 5
                                (MemoryCache.set 0 "b" (PStr "y") 5 ∅)))
  = fst (MemoryCache.get 1 "b" (MemoryCache.set 0 "b" (PStr "y") 5 ∅)).
Proof.
  apply (cache_keys_independent 0 1 "a" "b" (MemoryCache.set 0 "b" (PStr "y") 5 ∅)
           (PStr "x") 5).
  discriminate.
Defined.

Lemma absent_stays_absent_witness :
  fst (MemoryCache.get 0 "k"
         (snd (MemoryCache.get 9 "k" (MemoryCache.set 0 "k" (PStr "v") 5 ∅)))) = PNone.
Proof.
  apply (absent_stays_absent 9 0 "k" (MemoryCache.set 0 "k" (PStr "v") 5 ∅)).
  reflexivity.
Defined.

Lemma nonpositive_ttl_witness :
  MemoryCache.get 0 "k" (MemoryCache.set 0 "k" (PStr "v") (-1) ∅)
  = (PNone, delete "k" (MemoryCache.set 0 "k" (PStr "v") (-1) ∅)).
Proof.
  apply (nonpositive_ttl ∅ "k" (PStr "v") (-1) 0 0); [by vm_compute | lia].
Defined.

(** ** The analysis job client: the budget *)

Section AnalysisMore.
Import AnalysisClient.
Variable py_repr : pyval -> string.
Variable json_dumps : pyval -> string.
Variable http_post : string -> pydict -> string -> result pydict.
Variable http_get : string -> nat -> result pydict.
Variable sleep_unbounded : float -> option (result unit).

Abbreviation asyncio_sleep := (AnalysisClient.asyncio_sleep sleep_unbounded).
Abbreviation poll := (AnalysisClient.poll_loop py_repr http_get sleep_unbounded).
Abbreviation submit_job :=
  (AnalysisClient.submit_job py_repr json_dumps http_post http_get sleep_unbounded).

(** What [submit_job] does once the submission is settled. *)
Lemma submit_job_cases fuel options interval max_wait :
  (exists e, http_post "/api/v1/pricing/analysis" (job_data json_dumps options)
               (yaml_content options) = Raise e
             /\ submit_job fuel options interval max_wait = Some (0, Raise e))
  \/ (exists accepted,
        http_post "/api/v1/pricing/analysis" (job_data json_dumps options)
          (yaml_content options) = Ok accepted
        /\ dict_lookup "jobId" accepted = None
        /\ submit_job fuel options interval max_wait = Some (0, Raise (KeyError "jobId")))
  \/ (exists accepted job_id,
        http_post "/api/v1/pricing/analysis" (job_data json_dumps options)
          (yaml_content options) = Ok accepted
        /\ dict_lookup "jobId" accepted = Some job_id
        /\ submit_job fuel options interval max_wait
           = poll fuel (status_path py_repr job_id) interval max_wait 0 0%float).
Proof.
  unfold AnalysisClient.submit_job.
  destruct (http_post _ _ _) as [accepted|e]; [|left; by exists e].
  destruct (dict_lookup "jobId" accepted) as [job_id|] eqn:Hid.
  - right; right. by exists accepted, job_id.
  - right; left. by exists accepted.
Qed.

(** Every status request of the loop is made with budget left. *)
Lemma poll_loop_within fuel path interval max_wait polls (e : float) n r :
  poll fuel path interval max_wait polls e = Some (n, r) ->
  polls <= n
  /\ forall k, polls + k < n -> (elapsed_from e interval k <? max_wait)%float = true.
Proof.
  revert polls e. induction fuel as [|fuel IH]; intros polls e H; [done|].
  simpl in H. destruct (e <? max_wait)%float eqn:Hlt.
  2: { injection H as <- _. split; [lia|]. intros k Hk. lia. }
  assert (Hnow : forall k, polls + k < S polls ->
                   (elapsed_from e interval k <? max_wait)%float = true).
  { intros [|k] Hk; [done | lia]. }
  destruct (http_get path polls) as [payload|err].
  2: { injection H as <- _. split; [lia | done]. }
  destruct (py_eq_str _ "COMPLETED"); [injection H as <- _; split; [lia | done]|].
  destruct (py_eq_str _ "FAILED"); [injection H as <- _; split; [lia | done]|].
  destruct (asyncio_sleep interval) as [[[]|err]|];
    [|injection H as <- _; split; [lia | done]|done].
  apply IH in H as [Hle Hin]. split; [lia|].
  intros [|k] Hk; [done|]. apply (Hin k). lia.
Qed.

(** The client never asks for the status once the budget is spent:
    whatever the service answers, if [submit_job] ends after [n] status
    requests, each of them was made with the elapsed wait it had
    accumulated, in binary64, below [max_wait_seconds]. So a budget that
    is not above zero allows no request at all, and neither does a
    submission that fails or that carries no [jobId]. *)
Theorem polls_within_budget fuel options (interval max_wait : float) n r :
  submit_job fuel options interval max_wait = Some (n, r) ->
  within_budget interval max_wait n
  /\ ((0 <? max_wait)%float = false -> n = 0)
  /\ (forall e, http_post "/api/v1/pricing/analysis" (job_data json_dumps options)
                  (yaml_content options) = Raise e -> n = 0 /\ r = Raise e)
  /\ (forall accepted,
        http_post "/api/v1/pricing/analysis" (job_data json_dumps options)
          (yaml_content options) = Ok accepted ->
        dict_lookup "jobId" accepted = None -> n = 0 /\ r = Raise (KeyError "jobId")).
Proof.
  intros H.
  assert (Hbud : within_budget interval max_wait n).
  { destruct (submit_job_cases fuel options interval max_wait)
      as [(e & _ & Hs) | [(acc & _ & _ & Hs) | (acc & id & _ & _ & Hs)]];
      rewrite Hs in H.
    - injection H as <- _. intros k Hk. lia.
    - injection H as <- _. intros k Hk. lia.
    - apply poll_loop_within in H as [_ Hin]. intros k Hk. by apply Hin. }
  split; [done|]. split; [|split].
  - intros Hmax. destruct n as [|n]; [done|]. exfalso.
    specialize (Hbud 0 ltac:(lia)). simpl in Hbud. congruence.
  - intros e He. unfold AnalysisClient.submit_job in H. rewrite He in H.
    by injection H as <- <-.
  - intros accepted Hacc Hid. unfold AnalysisClient.submit_job in H.
    rewrite Hacc, Hid in H. by injection H as <- <-.
Qed.

(** The first terminal event decides the outcome, at whatever request
    it comes: after [n] non-terminal statuses within the budget, a
    [COMPLETED] payload returns its [result] field, or an empty dict if
    it has none, and an error of the status request itself is raised as
    it is; in both cases after [n + 1] requests. The budget is the one
    of the code: the request number [k] fits when the wait accumulated
    in binary64 over [k] sleeps is below [max_wait_seconds]. *)
Theorem first_terminal_event options accepted job_id (interval max_wait : float) n :
  http_post "/api/v1/pricing/analysis" (job_data json_dumps options)
    (yaml_content options) = Ok accepted ->
  dict_lookup "jobId" accepted = Some job_id ->
  let path := status_path py_repr job_id in
  (forall k, k < n -> exists p, http_get path k = Ok p /\ nonterminal p) ->
  within_budget interval max_wait (S n) ->
  (forall done_, http_get path n = Ok done_ ->
     dict_get "status" done_ = PStr "COMPLETED" ->
     forall fuel, n < fuel ->
       submit_job fuel options interval max_wait
       = Some (S n, Ok (dict_get_default "result" (PDict []) done_))
       /\ (dict_lookup "result" done_ = None ->
           submit_job fuel options interval max_wait = Some (S n, Ok (PDict []))))
  /\ (forall e, http_get path n = Raise e ->
      forall fuel, n < fuel ->
        submit_job fuel options interval max_wait = Some (S n, Raise e)).
Proof.
  intros Hpost Hid path Hrun Hbud.
  assert (Hsub : forall fuel, n < fuel ->
            exists f, submit_job fuel options interval max_wait
            = poll (S f) path interval max_wait n (elapsed_from 0 interval n)).
  { intros fuel Hfuel. exists (fuel - n - 1). unfold AnalysisClient.submit_job, _poll_job.
    rewrite Hpost, Hid. fold (status_path py_repr job_id). fold path.
    replace fuel with (n + S (fuel - n - 1)) at 1 by lia.
    apply poll_loop_running;
      [done | intros k Hk; apply Hbud; lia
       | intros Hn; apply (within_budget_sleeps _ _ _ _ Hbud); lia]. }
  assert (Hlt : (elapsed_from 0 interval n <? max_wait)%float = true)
    by (apply Hbud; lia).
  split.
  - intros done_ Hget Hst fuel Hfuel. destruct (Hsub fuel Hfuel) as [f ->].
    rewrite (poll_loop_completed py_repr http_get sleep_unbounded
               f _ _ _ _ _ done_ Hlt Hget Hst).
    split; [done|]. intros Hnone. do 3 f_equal.
    clear -Hnone. induction done_ as [|[k v] d IH]; [done|]. simpl in *.
    destruct (String.eqb k "result"); [done | by apply IH].
  - intros e Hget fuel Hfuel. destruct (Hsub fuel Hfuel) as [f ->]. simpl.
    by rewrite Hlt, Hget.
Qed.

(** The loop with a count of the rounds left. *)
Lemma poll_loop_bound m path (interval max_wait : float) polls e :
  (interval <? infinity)%float = true ->
  (elapsed_from e interval m <? max_wait)%float = false ->
  exists n r, n <= polls + m /\ poll (S m) path interval max_wait polls e = Some (n, r).
Proof.
  intros Hfin. revert polls e. induction m as [|m IH]; intros polls e Hm.
  - exists polls. eexists. split; [lia|]. by apply poll_loop_timeout.
  - destruct (e <? max_wait)%float eqn:Hlt.
    2: { exists polls. eexists. split; [lia | by apply poll_loop_timeout]. }
    destruct (http_get path polls) as [payload|err] eqn:Hget.
    2: { exists (S polls). eexists. split; [lia|]. simpl. by rewrite Hlt, Hget. }
    destruct (py_eq_str (dict_get "status" payload) "COMPLETED") eqn:Hc.
    { exists (S polls). eexists. split; [lia|]. simpl. by rewrite Hlt, Hget, Hc. }
    destruct (py_eq_str (dict_get "status" payload) "FAILED") eqn:Hf.
    { exists (S polls). eexists. split; [lia|]. simpl. by rewrite Hlt, Hget, Hc, Hf. }
    rewrite (poll_loop_step py_repr http_get sleep_unbounded _ _ _ _ _ _ payload);
      [|done|done|done|by apply sleep_bounded].
    destruct (IH (S polls) (e + interval)%float Hm) as (n & r & Hn & Hr).
    exists n, r. split; [lia | done].
Qed.

(** The client stops asking once the wait it accumulates is no longer
    below the budget: with an interval below infinity, whose sleeps
    return, if after [m] sleeps the elapsed wait, summed in binary64,
    is not below [max_wait_seconds], then [submit_job] ends after at
    most [m] status requests, whatever the service answers. *)
Theorem submit_job_ends options (interval max_wait : float) m :
  (interval <? infinity)%float = true ->
  (elapsed_from 0 interval m <? max_wait)%float = false ->
  exists n r, n <= m
    /\ forall fuel, m < fuel -> submit_job fuel options interval max_wait = Some (n, r).
Proof.
  intros Hfin Hm.
  destruct (submit_job_cases 0 options interval max_wait)
    as [(e & He & _) | [(acc & Hacc & Hid & _) | (acc & id & Hacc & Hid & _)]].
  - exists 0. eexists. split; [lia|]. intros fuel _. unfold AnalysisClient.submit_job.
    by rewrite He.
  - exists 0. eexists. split; [lia|]. intros fuel _. unfold AnalysisClient.submit_job.
    by rewrite Hacc, Hid.
  - destruct (poll_loop_bound m (status_path py_repr id) interval max_wait 0 0%float
                Hfin Hm) as (n & r & Hn & Hr).
    exists n, r. split; [lia|]. intros fuel Hfuel.
    unfold AnalysisClient.submit_job, _poll_job.
    rewrite Hacc, Hid.
    apply (poll_loop_fuel_mono py_repr http_get sleep_unbounded (S m)); [done | lia].
Qed.

(** With an interval that is not positive the elapsed wait never grows:
    on a job that stays non-terminal the loop polls for ever and the
    time-out is never raised. No amount of fuel ends the run. *)
Theorem nonpositive_interval_never_times_out options accepted job_id
  (interval max_wait : float) :
  http_post "/api/v1/pricing/analysis" (job_data json_dumps options)
    (yaml_content options) = Ok accepted ->
  dict_lookup "jobId" accepted = Some job_id ->
  (interval <=? 0)%float = true -> (0 <? max_wait)%float = true ->
  (forall k, exists p, http_get (status_path py_repr job_id) k = Ok p /\ nonterminal p) ->
  forall fuel, submit_job fuel options interval max_wait = None.
Proof.
  intros Hpost Hid Hneg Hpos Hrun fuel. unfold AnalysisClient.submit_job, _poll_job.
  rewrite Hpost, Hid. fold (status_path py_repr job_id).
  assert (Hloop : forall polls e, (e <=? 0)%float = true ->
            poll fuel (status_path py_repr job_id) interval max_wait polls e = None).
  { induction fuel as [|fuel IH]; intros polls e He; [done|].
    destruct (Hrun polls) as (p & Hget & Hnt).
    rewrite (poll_loop_step py_repr http_get sleep_unbounded _ _ _ _ _ _ p);
      [|by apply nonpositive_below|done|done|by apply sleep_nonpositive].
    apply IH. by apply add_nonpositive. }
  by apply Hloop.
Qed.
End AnalysisMore.

Lemma polls_within_budget_witness :
  AnalysisClient.within_budget 2%float 120%float 3.
Proof.
  apply (polls_within_budget Sample.py_repr Sample.json_dumps Sample.accept_job
           Sample.job_completes Sample.sleep_unbounded 3 Sample.options
           2%float 120%float 3
           (Ok (PDict [("cardinality", PInt 3)]))).
  reflexivity.
Defined.

Lemma first_terminal_event_witness :
  AnalysisClient.submit_job Sample.py_repr Sample.json_dumps Sample.accept_job
    Sample.job_completes Sample.sleep_unbounded 5 Sample.options
    0.1%float (0.1 * 3)%float
  = Some (3, Ok (PDict [("cardinality", PInt 3)])).
Proof.
  refine (proj1 (proj1 (first_terminal_event Sample.py_repr Sample.json_dumps
                   Sample.accept_job Sample.job_completes Sample.sleep_unbounded
                   Sample.options _ (PStr "job-1") 0.1%float (0.1 * 3)%float 2
                   eq_refl eq_refl _ _)
            _ eq_refl eq_refl 5 _)).
  - intros [|[|k]] Hk; [| |lia]; exists Sample.running; by split.
  - intros [|[|[|k]]] Hk; [reflexivity | reflexivity | reflexivity | lia].
  - lia.
Defined.

Lemma submit_job_ends_witness :
  exists n r, n <= 11
    /\ forall fuel, 11 < fuel ->
         AnalysisClient.submit_job Sample.py_repr Sample.json_dumps Sample.accept_job
           Sample.job_hangs Sample.sleep_unbounded fuel Sample.options
           0.1%float 1%float = Some (n, r).
Proof.
  apply (submit_job_ends Sample.py_repr Sample.json_dumps Sample.accept_job
           Sample.job_hangs Sample.sleep_unbounded Sample.options 0.1%float 1%float 11).
  - reflexivity.
  - reflexivity.
Defined.

Lemma nonpositive_interval_never_times_out_witness :
  AnalysisClient.submit_job Sample.py_repr Sample.json_dumps Sample.accept_job
    Sample.job_hangs Sample.sleep_unbounded 1000 Sample.options 0%float 5%float = None.
Proof.
  apply (nonpositive_interval_never_times_out Sample.py_repr Sample.json_dumps
           Sample.accept_job Sample.job_hangs Sample.sleep_unbounded Sample.options
           [("jobId", PStr "job-1")] (PStr "job-1") 0%float 5%float eq_refl eq_refl).
  - reflexivity.
  - reflexivity.
  - intros k. exists Sample.running. by split.
Defined.

(** ** The completion client: what a run does and does not do *)

Section CompletionMore.
Import GeminiOpenAIClient.
Variable cfg : GeminiClientConfig.t.
Variable json_loads : string -> loaded.
Variable json_dumps : pyval -> string.
Variable send : list (string * string) -> string -> string -> result (string * string).

Abbreviation step1 := (_step_generation send).
Abbreviation final := (_try_finalize json_loads json_dumps).
Abbreviation retry1 := (_prepare_retry cfg).
Abbreviation loop1 := (attempt_loop cfg json_loads json_dumps send).
Abbreviation make_full_request :=
  (GeminiOpenAIClient.make_full_request cfg json_loads json_dumps send).

(** The state of the first attempt. *)
Abbreviation first_state p :=
  {| prompt := p; model := GeminiClientConfig.model cfg; accumulated := "";
     finish_reason := ""; use_better_model := false |}.

Lemma step_model sent state state' :
  snd (step1 sent state) = Ok state' ->
  model state' = model state /\ use_better_model state' = use_better_model state
  /\ prompt state' = prompt state.
Proof.
  simpl. destruct (send _ _ _) as [[text fr]|]; simpl; [|done].
  by intros [= <-].
Qed.

Lemma retry_model_agrees state p :
  model_agrees cfg state -> model_agrees cfg (retry1 state p).
Proof.
  unfold model_agrees, _prepare_retry.
  destruct (GeminiClientConfig.better_model cfg) as [b|]; simpl.
  - destruct (negb (String.eqb b "") && negb (use_better_model state)); simpl; [done|].
    by destruct (use_better_model state).
  - by destruct (use_better_model state).
Qed.

(** Every state a run sends agrees with its flag, and the flag stays up. *)
Lemma loop_models attempts max_tries p json_output sent state :
  model_agrees cfg state ->
  exists tl,
    fst (loop1 attempts max_tries p json_output sent state) = sent ++ tl
    /\ Forall (model_agrees cfg) tl.
Proof.
  revert sent state. induction attempts as [|attempt rest IH]; intros sent state Hin.
  { exists []. simpl. by rewrite app_nil_r. }
  rewrite loop_unfold.
  assert (Hone : exists tl, sent ++ [state] = sent ++ tl /\ Forall (model_agrees cfg) tl).
  { exists [state]. split; [done | by constructor]. }
  destruct (snd (step1 sent state)) as [state'|e] eqn:Hstep; [|done].
  destruct (final state' json_output) as [[r|]|e]; [done| |done].
  destruct (attempt =? max_tries)%Z; [done|].
  apply step_model in Hstep as (Hm & Hf & _).
  assert (Hin' : model_agrees cfg state').
  { unfold model_agrees in *. by rewrite Hm, Hf. }
  destruct (IH (sent ++ [state]) (retry1 state' p) (retry_model_agrees _ p Hin'))
    as (tl & Hfst & Hall).
  exists (state :: tl). rewrite Hfst, <- app_assoc. split; [done | by constructor].
Qed.

(** Once the flag is up, it is up in every state the run sends. *)
Lemma loop_flag_up attempts max_tries p json_output sent state :
  use_better_model state = true ->
  exists tl,
    fst (loop1 attempts max_tries p json_output sent state) = sent ++ tl
    /\ Forall (fun s => use_better_model s = true) tl.
Proof.
  revert sent state. induction attempts as [|attempt rest IH]; intros sent state Hup.
  { exists []. simpl. by rewrite app_nil_r. }
  rewrite loop_unfold.
  assert (Hone : exists tl, sent ++ [state] = sent ++ tl
            /\ Forall (fun s => use_better_model s = true) tl).
  { exists [state]. split; [done | by constructor]. }
  destruct (snd (step1 sent state)) as [state'|e] eqn:Hstep; [|done].
  destruct (final state' json_output) as [[r|]|e]; [done| |done].
  destruct (attempt =? max_tries)%Z; [done|].
  apply step_model in Hstep as (_ & Hf & _).
  destruct (IH (sent ++ [state]) (retry1 state' p)) as (tl & Hfst & Hall).
  { apply retry_flag_up. congruence. }
  exists (state :: tl). rewrite Hfst, <- app_assoc. split; [done | by constructor].
Qed.

Lemma loop_flag_stays attempts max_tries p json_output sent state i j si sj :
  length sent <= i -> i <= j ->
  fst (loop1 attempts max_tries p json_output sent state) !! i = Some si ->
  fst (loop1 attempts max_tries p json_output sent state) !! j = Some sj ->
  use_better_model si = true -> use_better_model sj = true.
Proof.
  revert sent state. induction attempts as [|attempt rest IH];
    intros sent state Hlen Hij Hi Hj Hup.
  { simpl in Hi. apply lookup_lt_Some in Hi. lia. }
  destruct (decide (i = length sent)) as [->|Hne].
  - destruct (loop_trace cfg json_loads json_dumps send (attempt :: rest) max_tries p
                json_output sent state) as (tl0 & Hfst0 & Hhd & _).
    destruct Hhd as [tl' ->]; [done|].
    rewrite Hfst0, list_lookup_middle in Hi by done. injection Hi as <-.
    destruct (loop_flag_up (attempt :: rest) max_tries p json_output sent state Hup)
      as (tl & Hfst & Hall).
    rewrite Hfst, lookup_app_r in Hj by lia.
    by apply (Forall_lookup_1 _ _ _ _ Hall Hj).
  - revert Hi Hj. rewrite loop_unfold.
    assert (Hshort : forall s, (sent ++ [state]) !! i = Some s -> False).
    { intros s Hs. apply lookup_lt_Some in Hs. rewrite length_app in Hs.
      simpl in Hs. lia. }
    destruct (snd (step1 sent state)) as [state'|e]; simpl;
      [|intros Hi _; exfalso; by apply (Hshort si)].
    destruct (final state' json_output) as [[r|]|e]; simpl;
      [intros Hi _; exfalso; by apply (Hshort si) |
       | intros Hi _; exfalso; by apply (Hshort si)].
    destruct (attempt =? max_tries)%Z; simpl;
      [intros Hi _; exfalso; by apply (Hshort si)|].
    intros Hi Hj. apply (IH (sent ++ [state]) (retry1 state' p)); try done.
    rewrite length_app. simpl. lia.
Qed.

(** The budget of remote calls: a run never makes more than [max_tries]
    of them, and with [max_tries] at 0 or below it makes none and fails
    at once. *)
Theorem completion_call_budget p max_tries json_output :
  length (fst (make_full_request p max_tries json_output)) <= Z.to_nat max_tries
  /\ ((max_tries <= 0)%Z ->
      make_full_request p max_tries json_output
      = ([], Raise (ValueError "Could not obtain a complete response from the LLM."))).
Proof.
  split; [apply make_full_request_bounded|].
  intros Hle. unfold GeminiOpenAIClient.make_full_request. by rewrite range_nil by lia.
Qed.

(** No call after the one that settles the run: if the remote call of an
    attempt fails, the run ends there with that exception, and if its
    response finalizes, the run ends there with the finalized text. *)
Theorem no_call_after_settled p max_tries json_output i st :
  fst (make_full_request p max_tries json_output) !! i = Some st ->
  (forall e,
     snd (_step_generation send (take i (fst (make_full_request p max_tries json_output))) st)
     = Raise e ->
     length (fst (make_full_request p max_tries json_output)) = S i
     /\ snd (make_full_request p max_tries json_output) = Raise e)
  /\ (forall st' text,
     snd (_step_generation send (take i (fst (make_full_request p max_tries json_output))) st)
     = Ok st' ->
     _try_finalize json_loads json_dumps st' json_output = Ok (Some text) ->
     length (fst (make_full_request p max_tries json_output)) = S i
     /\ snd (make_full_request p max_tries json_output) = Ok text).
Proof.
  intros Hst. unfold GeminiOpenAIClient.make_full_request in *.
  pose proof (loop_stops cfg json_loads json_dumps send
                (range 1 (max_tries + 1)) max_tries p json_output []
                (first_state p) i st ltac:(simpl; lia) Hst) as Hstop.
  split.
  - intros e He. by rewrite He in Hstop.
  - intros st' text Hs Hf. by rewrite Hs, Hf in Hstop.
Qed.

(** The models a run talks to: the first attempt goes to the configured
    model; every attempt goes to the configured model, flag down, or to
    the configured higher-capability model, flag up; and once the flag
    is up it stays up, so the run never goes back to the first model. *)
Theorem attempt_models p max_tries json_output :
  let sent := fst (make_full_request p max_tries json_output) in
  (forall st, sent !! 0 = Some st -> st = first_state p)
  /\ (forall i st, sent !! i = Some st -> model_agrees cfg st)
  /\ (forall i j si sj, i <= j -> sent !! i = Some si -> sent !! j = Some sj ->
        use_better_model si = true -> use_better_model sj = true).
Proof.
  intros sent. subst sent. unfold GeminiOpenAIClient.make_full_request. split; [|split].
  - intros st Hst.
    destruct (loop_trace cfg json_loads json_dumps send (range 1 (max_tries + 1))
                max_tries p json_output [] (first_state p)) as (tl & Hfst & _ & Hhd & _).
    rewrite Hfst in Hst. destruct Hhd as [-> | [tl' ->]]; [done|].
    by injection Hst as <-.
  - intros i st Hst.
    destruct (loop_models (range 1 (max_tries + 1)) max_tries p json_output []
                (first_state p)) as (tl & Hfst & Hall); [done|].
    rewrite Hfst in Hst. by apply (Forall_lookup_1 _ _ _ _ Hall Hst).
  - intros i j si sj Hij Hi Hj Hup.
    apply (loop_flag_stays (range 1 (max_tries + 1)) max_tries p json_output []
             (first_state p) i j si sj); try done.
    simpl. lia.
Qed.
End CompletionMore.

Section CompletionOutcome.
Import GeminiOpenAIClient.
Variable cfg : GeminiClientConfig.t.
Variable json_loads : string -> loaded.
Variable json_dumps : pyval -> string.
Variable send : list (string * string) -> string -> string -> result (string * string).

Abbreviation step2 := (_step_generation send).
Abbreviation final2 := (_try_finalize json_loads json_dumps).
Abbreviation loop2 := (attempt_loop cfg json_loads json_dumps send).
Abbreviation make_full_request :=
  (GeminiOpenAIClient.make_full_request cfg json_loads json_dumps send).
Abbreviation first_state2 p :=
  {| prompt := p; model := GeminiClientConfig.model cfg; accumulated := "";
     finish_reason := ""; use_better_model := false |}.

(** A run that returns a text returns what its last attempt finalized. *)
Lemma loop_ok attempts max_tries p json_output sent state text :
  snd (loop2 attempts max_tries p json_output sent state) = Ok text ->
  exists sent0 st st',
    fst (loop2 attempts max_tries p json_output sent state) = sent0 ++ [st]
    /\ snd (step2 sent0 st) = Ok st'
    /\ final2 st' json_output = Ok (Some text).
Proof.
  revert sent state. induction attempts as [|attempt rest IH]; intros sent state; [done|].
  rewrite loop_unfold.
  destruct (snd (step2 sent state)) as [state'|e] eqn:Hstep; [|done].
  destruct (final2 state' json_output) as [[r|]|e] eqn:Hfin; [| |done].
  - simpl. intros [= <-]. by exists sent, state, state'.
  - destruct (attempt =? max_tries)%Z; [done|]. apply IH.
Qed.

(** The text a run returns is never raw: in structured mode it is the
    re-serialization of a value that the accumulated text of the last
    attempt parses to; in plain mode it is the accumulated text of a last
    attempt whose finish reason is not ["length"]. *)
Theorem result_is_finalized p max_tries json_output text :
  snd (make_full_request p max_tries json_output) = Ok text ->
  exists sent0 st st',
    fst (make_full_request p max_tries json_output) = sent0 ++ [st]
    /\ snd (_step_generation send sent0 st) = Ok st'
    /\ (json_output = true ->
        exists v, json_loads (accumulated st') = Parsed v /\ text = json_dumps v)
    /\ (json_output = false ->
        finish_reason st' <> "length" /\ text = accumulated st').
Proof.
  intros Hok. unfold GeminiOpenAIClient.make_full_request in *.
  destruct (loop_ok _ _ _ _ _ _ _ Hok) as (sent0 & st & st' & Hfst & Hstep & Hfin).
  exists sent0, st, st'. split; [done|]. split; [done|]. split.
  - intros ->. simpl in Hfin.
    destruct (json_loads (accumulated st')) as [v| |e]; [|done..].
    exists v. split; [done | congruence].
  - intros ->. simpl in Hfin.
    destruct (String.eqb_spec (finish_reason st') "length"); simpl in Hfin; [done|].
    split; [done | congruence].
Qed.

(** The first two attempts of a run with room for them. *)
Lemma run_two_attempts p max_tries json_output state1 :
  (2 <= max_tries)%Z ->
  snd (step2 [] (first_state2 p)) = Ok state1 ->
  final2 state1 json_output = Ok None ->
  make_full_request p max_tries json_output
  = match snd (step2 [first_state2 p] (_prepare_retry cfg state1 p)) with
    | Raise e => ([first_state2 p; _prepare_retry cfg state1 p], Raise e)
    | Ok state2 =>
        match final2 state2 json_output with
        | Raise e => ([first_state2 p; _prepare_retry cfg state1 p], Raise e)
        | Ok (Some r) => ([first_state2 p; _prepare_retry cfg state1 p], Ok r)
        | Ok None =>
            if (2 =? max_tries)%Z
            then ([first_state2 p; _prepare_retry cfg state1 p], Raise exhausted)
            else loop2 (range 3 (max_tries + 1)) max_tries p json_output
                   [first_state2 p; _prepare_retry cfg state1 p]
                   (_prepare_retry cfg (state2) p)
        end
    end.
Proof.
  intros Hmax Hstep Hfin. unfold GeminiOpenAIClient.make_full_request.
  rewrite (range_cons 1) by lia. rewrite (range_cons (1 + 1)) by lia.
  rewrite loop_unfold, Hstep, Hfin.
  destruct (1 =? max_tries)%Z eqn:H1; [apply Z.eqb_eq in H1; lia|].
  rewrite loop_unfold. simpl app. change (1 + 1)%Z with 2%Z. change (2 + 1)%Z with 3%Z.
  done.
Qed.

(** Escalation starts over. When the first response does not finalize
    and a higher-capability model is configured, the second attempt
    sends the original prompt to that model with an empty buffer; if its
    response then ends the run in plain mode, the text returned is that
    response alone, cleaned: nothing of the first response is in it. *)
Theorem second_attempt_starts_over p max_tries json_output better state1 :
  GeminiClientConfig.better_model cfg = Some better -> better <> "" ->
  (2 <= max_tries)%Z ->
  snd (_step_generation send [] (first_state2 p)) = Ok state1 ->
  _try_finalize json_loads json_dumps state1 json_output = Ok None ->
  let second := {| prompt := p; model := better; accumulated := "";
                   finish_reason := ""; use_better_model := true |} in
  fst (make_full_request p max_tries json_output) !! 1 = Some second
  /\ (forall text2 reason2,
        send [(p, GeminiClientConfig.model cfg)] p better = Ok (text2, reason2) ->
        json_output = false -> reason2 <> "length" ->
        make_full_request p max_tries json_output
        = ([first_state2 p; second], Ok (_normalize_response text2))).
Proof.
  intros Hcfg Hne Hmax Hstep Hfin second.
  assert (Hretry : _prepare_retry cfg state1 p = second).
  { unfold _prepare_retry. rewrite Hcfg. simpl.
    destruct (String.eqb_spec better ""); [done|].
    apply step_flag in Hstep. simpl in Hstep. by rewrite Hstep. }
  rewrite (run_two_attempts p max_tries json_output state1 Hmax Hstep Hfin), Hretry.
  split.
  - destruct (snd (step2 [first_state2 p] second)) as [state2|e]; [|done].
    destruct (final2 state2 json_output) as [[r|]|e]; [done| |done].
    destruct (2 =? max_tries)%Z; [done|].
    destruct (loop_trace cfg json_loads json_dumps send (range 3 (max_tries + 1))
                max_tries p json_output [first_state2 p; second]
                (_prepare_retry cfg state2 p)) as (tl & -> & _).
    done.
  - intros text2 reason2 Hsend -> Hreason. simpl. unfold request_of. simpl.
    rewrite Hsend. simpl.
    destruct (String.eqb_spec reason2 "length"); [done|]. done.
Qed.

(** Continuation appends. With no higher-capability model configured,
    a truncated first response is followed by a second attempt on the
    same model, with the continuation prompt built from the original
    prompt and the text so far; if its response ends the run in plain
    mode, the text returned is the first response followed by the
    second, each cleaned. *)
Theorem continuation_appends p max_tries text1 text2 reason2 :
  GeminiClientConfig.better_model cfg = None ->
  (2 <= max_tries)%Z ->
  send [] p (GeminiClientConfig.model cfg) = Ok (text1, "length") ->
  let second :=
    {| prompt := _build_continue_prompt p (_normalize_response text1);
       model := GeminiClientConfig.model cfg;
       accumulated := _normalize_response text1;
       finish_reason := ""; use_better_model := false |} in
  send [(p, GeminiClientConfig.model cfg)] (prompt second)
    (GeminiClientConfig.model cfg) = Ok (text2, reason2) ->
  reason2 <> "length" ->
  make_full_request p max_tries false
  = ([first_state2 p; second],
     Ok (_normalize_response text1 +:+ _normalize_response text2)).
Proof.
  intros Hcfg Hmax Hsend1 second Hsend2 Hreason.
  set (state1 := {| prompt := p; model := GeminiClientConfig.model cfg;
                    accumulated := _normalize_response text1;
                    finish_reason := "length"; use_better_model := false |}).
  assert (Hstep : snd (step2 [] (first_state2 p)) = Ok state1).
  { simpl. by rewrite Hsend1. }
  assert (Hretry : _prepare_retry cfg state1 p = second).
  { unfold _prepare_retry. by rewrite Hcfg. }
  rewrite (run_two_attempts p max_tries false state1 Hmax Hstep eq_refl), Hretry.
  simpl. unfold request_of. simpl. simpl in Hsend2. rewrite Hsend2. simpl.
  destruct (String.eqb_spec reason2 "length"); [done|]. done.
Qed.
End CompletionOutcome.

Lemma no_call_after_settled_witness :
  length (fst (GeminiOpenAIClient.make_full_request Sample.config Sample.json_loads
                 Sample.json_dumps Sample.answers_at_once "How many plans?" 5 false)) = 1
  /\ snd (GeminiOpenAIClient.make_full_request Sample.config Sample.json_loads
            Sample.json_dumps Sample.answers_at_once "How many plans?" 5 false)
     = Ok "There are three plans.".
Proof.
  refine (proj2 (no_call_after_settled Sample.config Sample.json_loads Sample.json_dumps
                   Sample.answers_at_once "How many plans?" 5 false 0 _ eq_refl)
            _ "There are three plans." eq_refl eq_refl).
Defined.

Lemma result_is_finalized_witness :
  exists sent0 st st',
    fst (GeminiOpenAIClient.make_full_request Sample.config Sample.json_loads
           Sample.json_dumps Sample.answers_at_once "How many plans?" 5 false)
    = sent0 ++ [st]
    /\ snd (GeminiOpenAIClient._step_generation Sample.answers_at_once sent0 st) = Ok st'
    /\ (false = true ->
        exists v, Sample.json_loads (GeminiOpenAIClient.accumulated st') = Parsed v
                  /\ "There are three plans." = Sample.json_dumps v)
    /\ (false = false ->
        GeminiOpenAIClient.finish_reason st' <> "length"
        /\ "There are three plans." = GeminiOpenAIClient.accumulated st').
Proof.
  apply (result_is_finalized Sample.config Sample.json_loads Sample.json_dumps
           Sample.answers_at_once "How many plans?" 5 false "There are three plans.").
  reflexivity.
Defined.

Lemma second_attempt_starts_over_witness :
  GeminiOpenAIClient.make_full_request Sample.config Sample.json_loads
    Sample.json_dumps Sample.truncated_then_done "How many plans?" 5 false
  = ([ {| GeminiOpenAIClient.prompt := "How many plans?";
          GeminiOpenAIClient.model := "gemini-2.5-flash";
          GeminiOpenAIClient.accumulated := "";
          GeminiOpenAIClient.finish_reason := "";
          GeminiOpenAIClient.use_better_model := false |};
       {| GeminiOpenAIClient.prompt := "How many plans?";
          GeminiOpenAIClient.model := "gemini-2.5-pro";
          GeminiOpenAIClient.accumulated := "";
          GeminiOpenAIClient.finish_reason := "";
          GeminiOpenAIClient.use_better_model := true |} ],
     Ok "three plans.").
Proof.
  refine (proj2 (second_attempt_starts_over Sample.config Sample.json_loads
                   Sample.json_dumps Sample.truncated_then_done "How many plans?" 5 false
                   "gemini-2.5-pro" _ eq_refl _ _ eq_refl eq_refl)
            " three plans. " "stop" eq_refl eq_refl _).
  - discriminate.
  - lia.
  - discriminate.
Defined.

Lemma continuation_appends_witness :
  snd (GeminiOpenAIClient.make_full_request Sample.config_no_better Sample.json_loads
         Sample.json_dumps Sample.truncated_then_done "How many plans?" 5 false)
  = Ok "There arethree plans.".
Proof.
  refine (f_equal snd
            (continuation_appends Sample.config_no_better Sample.json_loads
               Sample.json_dumps Sample.truncated_then_done "How many plans?" 5
               "There are" " three plans. " "stop" eq_refl _ eq_refl eq_refl _)).
  - lia.
  - discriminate.
Defined.

(** ** The orchestration agent: dispatch, failure and aggregation *)

Section AgentMore.
Import PricingAgent.
Variable workflow : list wf_call -> wf_call -> result pyval.
Variable generate_plan : string -> option string -> option string -> result pyval.
Variable generate_answer : string -> pydict -> pyval -> result string.

Abbreviation xloop := (execute_loop workflow).
Abbreviation handle_question :=
  (PricingAgent.handle_question workflow generate_plan generate_answer).

(** The document an action is given: the uploaded one if the action
    runs on the reference of the request, none otherwise. *)
Lemma prepare_action_inputs_yaml a url refresh T yaml r eff y :
  _prepare_action_inputs a url refresh T yaml = Ok (r, eff, y) ->
  y = if pyval_eqb (action_url url a) PNone || py_eq (action_url url a) url
      then yaml else None.
Proof.
  unfold _prepare_action_inputs, set_contains. fold (action_url url a).
  destruct (refresh && truthy (action_url url a)).
  - destruct (hashable (action_url url a)); [|done]. simpl. by intros [= _ _ <-].
  - simpl. by intros [= _ _ <-].
Qed.

(** A run of the loop, call by call: each call is the one of its action,
    a call on which the workflow raises is the last one and its
    exception is the outcome, and a run that returns has one call and
    one step record per action. *)
Lemma execute_loop_run actions :
  forall index url refresh solver filters objective yaml calls results T last0,
  let out := xloop actions index url refresh solver filters objective yaml
               calls results T last0 in
  exists new,
    fst out = calls ++ new
    /\ (forall i c, new !! i = Some c ->
          exists a, actions !! i = Some a
            /\ c = _run_single_action a (action_url url a) (call_refresh c) solver
                     filters objective
                     (if pyval_eqb (action_url url a) PNone
                         || py_eq (action_url url a) url
                      then yaml else None)
            /\ (forall e, workflow (calls ++ take i new) c = Raise e ->
                  length new = S i /\ snd out = Raise e))
    /\ (forall rs lp, snd out = Ok (rs, lp) ->
          length new = length actions
          /\ exists steps,
               rs = results ++ steps /\ length steps = length actions
               /\ (forall i s, steps !! i = Some s ->
                     exists a c payload,
                       actions !! i = Some a /\ new !! i = Some c
                       /\ workflow (calls ++ take i new) c = Ok payload
                       /\ dict_get "index" s = PInt (index + Z.of_nat i)
                       /\ dict_get "action" s = PStr (PlannedAction.name a)
                       /\ dict_get "payload" s = payload)
               /\ lp = match last steps with
                       | Some s => dict_get "payload" s
                       | None => last0
                       end).
Proof.
  induction actions as [|action rest IH];
    intros index url refresh solver filters objective yaml calls results T last0 out.
  { exists []. subst out. simpl. rewrite app_nil_r. split; [done|]. split; [by intros i c ?|].
    intros rs lp [= <- <-]. split; [done|]. exists []. rewrite app_nil_r.
    split; [done|]. split; [done|]. split; [by intros i s ?|done]. }
  subst out. cbn [execute_loop].
  destruct (_prepare_action_inputs action url refresh T yaml) as [[[r eff] y]|e] eqn:Hprep.
  2: { exists []. rewrite app_nil_r. split; [done|]. split; [by intros i c ?|]. done. }
  pose proof (prepare_action_inputs_yaml _ _ _ _ _ _ _ _ Hprep) as Hy.
  apply prepare_action_inputs_ok in Hprep as [-> _].
  set (r := action_url url action) in *.
  set (call := _run_single_action action r eff solver filters objective y).
  assert (Hcall : call = _run_single_action action r (call_refresh call) solver filters
                           objective
                           (if pyval_eqb r PNone || py_eq r url then yaml else None)).
  { subst call. by rewrite run_single_action_refresh, <- Hy. }
  destruct (workflow calls call) as [payload|e] eqn:Hwf.
  2: { exists [call]. split; [done|]. split; [|done].
       intros [|i] c Hc; [|done]. injection Hc as <-. exists action.
       split; [done|]. split; [done|]. intros e'. simpl. rewrite app_nil_r, Hwf.
       by intros [= <-]. }
  match goal with
  | |- context [execute_loop workflow rest ?ix url refresh solver filters objective
                  yaml ?cs (results ++ [?rec]) ?T' payload] =>
      set (step0 := rec);
      destruct (IH ix url refresh solver filters objective yaml cs (results ++ [step0])
                  T' payload) as (new & Hfst & Hcalls & Hok);
      set (out := execute_loop workflow rest ix url refresh solver filters objective
                    yaml cs (results ++ [step0]) T' payload) in *
  end.
  exists (call :: new). split; [by rewrite Hfst, <- app_assoc|]. split.
  - intros [|i] c Hc.
    + injection Hc as <-. exists action. split; [done|]. split; [done|].
      intros e. simpl. rewrite app_nil_r, Hwf. done.
    + cbn [lookup list_lookup] in Hc.
      destruct (Hcalls i c Hc) as (a & Ha & Heq & Hraise).
      exists a. split; [done|]. split; [done|]. intros e He.
      assert (Hhist : calls ++ take (S i) (call :: new) = (calls ++ [call]) ++ take i new)
        by (by rewrite <- app_assoc).
      rewrite Hhist in He. destruct (Hraise e He) as [Hlen Hout].
      split; [simpl; lia | done].
  - intros rs lp Hout. destruct (Hok rs lp Hout) as (Hlen & steps & Hrs & Hsl & Hsteps & Hlp).
    split; [simpl; lia|]. exists (step0 :: steps).
    split; [by rewrite Hrs, <- app_assoc|]. split; [simpl; lia|]. split.
    + intros [|i] s Hs.
      * injection Hs as <-. exists action, call, payload.
        repeat split; [simpl; by rewrite app_nil_r | subst step0; simpl; f_equal; lia].
      * cbn [lookup list_lookup] in Hs.
        destruct (Hsteps i s Hs) as (a & c & p & Ha & Hc & Hw & Hi & Hn & Hp).
        exists a, c, p. repeat split; try done.
        -- by rewrite <- app_assoc in Hw.
        -- rewrite Hi. f_equal. lia.
    + rewrite Hlp. destruct steps as [|s steps]; [done|].
      rewrite (last_cons step0). destruct (last (s :: steps)) eqn:E; [done|].
      rewrite last_cons in E. by destruct (last steps).
Qed.

Lemma run_single_action_yaml a r eff solver filters objective y :
  call_yaml (_run_single_action a r eff solver filters objective y) = y.
Proof. unfold _run_single_action. by repeat destruct (String.eqb _ _). Qed.

(** A request past both checks is the loop over its actions, then the
    aggregation and the answer. *)
Lemma handle_question_run question pricing_url yaml plan :
  generate_plan question pricing_url yaml = Ok (PDict plan) ->
  _validate_yaml_requirement plan yaml = Ok () ->
  plan_actions plan <> [] ->
  _ensure_pricing_context (plan_actions plan) (plan_url plan pricing_url yaml) yaml = Ok () ->
  let run := xloop (plan_actions plan) 0 (plan_url plan pricing_url yaml)
               (plan_refresh plan) (plan_solver plan) (plan_filters plan)
               (plan_objective plan) yaml [] [] [] PNone in
  handle_question question pricing_url yaml
  = (fst run,
     match snd run with
     | Raise e => Raise e
     | Ok (rs, lp) =>
         answer ← generate_answer question plan
                    (fst (_compose_results_payload (plan_actions plan) rs lp));
         Ok {| resp_plan := plan;
               resp_result := snd (_compose_results_payload (plan_actions plan) rs lp);
               resp_answer := answer |}
     end).
Proof.
  intros Hplan Hval Hne Hctx run. subst run. unfold PricingAgent.handle_question.
  rewrite Hplan, Hval. unfold _execute_actions.
  destruct (plan_actions plan) as [|a rest] eqn:Hacts; [done|]. rewrite Hctx.
  destruct (xloop _ _ _ _ _ _ _ _ _ _ _ _) as [calls [[rs lp]|e]]; [|done].
  simpl. by destruct (_compose_results_payload _ _ _).
Qed.

(** The calls of a request, each with its action. *)
Lemma handle_question_dispatch question pricing_url yaml plan :
  generate_plan question pricing_url yaml = Ok (PDict plan) ->
  let url := plan_url plan pricing_url yaml in
  forall i c, fst (handle_question question pricing_url yaml) !! i = Some c ->
    exists a, plan_actions plan !! i = Some a
      /\ PlannedAction.name a ∈ ALLOWED_ACTIONS
      /\ truthy (action_url url a) = true
      /\ c = _run_single_action a (action_url url a) (call_refresh c) (plan_solver plan)
               (plan_filters plan) (plan_objective plan)
               (if py_eq (action_url url a) url then yaml else None)
      /\ (forall e, workflow (take i (fst (handle_question question pricing_url yaml))) c = Raise e ->
            length (fst (handle_question question pricing_url yaml)) = S i
            /\ snd (handle_question question pricing_url yaml) = Raise e).
Proof.
  intros Hplan url i c Hc.
  destruct (handle_question_calls workflow generate_plan generate_answer
              question pricing_url yaml plan Hplan) as [Hnil | [Hok Hcalls]].
  { by rewrite Hnil in Hc. }
  assert (Hne : plan_actions plan <> []).
  { intros Hnil. revert Hc. unfold PricingAgent.handle_question. rewrite Hplan.
    destruct (_validate_yaml_requirement plan yaml); [|done].
    unfold _execute_actions. by rewrite Hnil. }
  assert (Hval : _validate_yaml_requirement plan yaml = Ok ()).
  { revert Hc. unfold PricingAgent.handle_question. rewrite Hplan.
    by destruct (_validate_yaml_requirement plan yaml) as [[]|]. }
  pose proof (handle_question_run question pricing_url yaml plan Hplan Hval Hne Hok) as Hrun.
  cbv zeta in Hrun.
  destruct (execute_loop_run (plan_actions plan) 0 url (plan_refresh plan)
              (plan_solver plan) (plan_filters plan) (plan_objective plan) yaml
              [] [] [] PNone) as (new & Hnew & Hspec & _).
  cbv zeta in Hnew, Hspec. fold url in Hrun.
  rewrite Hrun in Hc |- *. cbn [fst snd] in Hc |- *. rewrite Hnew in Hc |- *.
  cbn [app] in Hc |- *.
  destruct (Hspec i c Hc) as (a & Ha & Heq & Hraise).
  assert (Hin : a ∈ plan_actions plan) by (apply list_elem_of_lookup; by exists i).
  assert (Ht : truthy (action_url url a) = true) by (by apply action_url_truthy).
  exists a. split; [done|]. split.
  { by apply (normalize_actions_allowed (dict_get "actions" plan)). }
  split; [done|]. split.
  - assert (Hnn : pyval_eqb (action_url url a) PNone = false).
    { destruct (pyval_eqb (action_url url a) PNone) eqn:E; [|done].
      apply pyval_eqb_eq in E. by rewrite E in Ht. }
    by rewrite Hnn in Heq.
  - intros e He. destruct (Hraise e He) as [Hlen Hout]. split; [done|].
    by rewrite Hout.
Qed.

(** Each call dispatched is the operation its action names, on the
    reference of the action, with the filters and the solver of the
    plan; an [optimal] call carries the objective of its action, or the
    one of the plan when the action has none. No action outside the
    vocabulary is ever dispatched. *)
Theorem dispatch_follows_plan question pricing_url yaml plan i c :
  generate_plan question pricing_url yaml = Ok (PDict plan) ->
  fst (handle_question question pricing_url yaml) !! i = Some c ->
  exists a,
    plan_actions plan !! i = Some a
    /\ call_name c = PlannedAction.name a
    /\ call_url c = action_url (plan_url plan pricing_url yaml) a
    /\ (forall url filters solver refresh y,
          c = run_subscriptions url filters solver refresh y ->
          filters = plan_filters plan /\ solver = plan_solver plan)
    /\ (forall url filters solver objective refresh y,
          c = run_optimal url filters solver objective refresh y ->
          filters = plan_filters plan /\ solver = plan_solver plan
          /\ objective = match PlannedAction.objective a with
                         | Some own => PStr own
                         | None => plan_objective plan
                         end).
Proof.
  intros Hplan Hc.
  destruct (handle_question_dispatch question pricing_url yaml plan Hplan i c Hc)
    as (a & Ha & Hname & Ht & Heq & _).
  exists a. split; [done|].
  assert (Hobj : py_or (of_opt (PlannedAction.objective a)) (plan_objective plan)
                 = match PlannedAction.objective a with
                   | Some own => PStr own
                   | None => plan_objective plan
                   end).
  { destruct (PlannedAction.objective a) as [own|] eqn:Hown; [|done].
    apply py_or_true. simpl.
    assert (Hin : a ∈ plan_actions plan) by (apply list_elem_of_lookup; by exists i).
    clear -Hin Hown. unfold plan_actions in Hin.
    assert (Hgen : forall entries, a ∈ fst (normalize_entries entries) -> own <> "").
    { induction entries as [|entry entries IH]; [by intros ?%elem_of_nil|].
      rewrite normalize_entries_cons.
      destruct (fst (_parse_action_entry entry)) as [a'|] eqn:Hp; [|done].
      intros [->|Hin']%elem_of_cons; [|by apply IH].
      destruct entry as [| | | |s| |d]; simpl in Hp; try done.
      - case_bool_decide; [|done]. injection Hp as <-. done.
      - destruct (dict_get "name" d) as [| | | |name| |]; try done.
        case_bool_decide; [|done].
        destruct (dict_get "objective" d) as [| | | |o| |] eqn:Ho;
          destruct (match py_or _ _ with PNone => _ | _ => _ end) as [u w2];
          try (injection Hp as <-; simpl in Hown; done).
        destruct (String.eqb o "minimize" || String.eqb o "maximize") eqn:Hoo;
          injection Hp as <-; simpl in Hown; [|done].
        injection Hown as <-. intros ->. done. }
    destruct (dict_get "actions" plan); simpl in Hin;
      try (by apply elem_of_nil in Hin).
    destruct (String.eqb_spec own ""); [|done]. by apply Hgen in Hin. }
  rewrite Heq. unfold _run_single_action.
  apply allowed_cases in Hname as [Hn | [Hn | Hn]]; rewrite Hn; simpl;
    rewrite ?(py_or_true _ _ Ht).
  - split; [done|]. split; [done|]. split; [done|].
    intros u f s o r y [= _ <- <- <- _ _]. by rewrite Hobj.
  - split; [done|]. split; [done|]. split; [|done].
    by intros u f s r y [= _ <- <- _ _].
  - by repeat split.
Qed.

(** [==] on references: a value equals itself unless it is a NaN, and
    a string equals that string only. *)
Lemma py_eq_refl x :
  (forall f, x = PFloat f -> (f =? f)%float = true) -> py_eq x x = true.
Proof.
  intros Hx. destruct x as [| | |f| | |]; try apply pyval_eqb_refl. by apply Hx.
Qed.

Lemma py_eq_string s y : py_eq (PStr s) y = true <-> y = PStr s.
Proof. unfold py_eq. rewrite pyval_eqb_eq. split; by intros ->. Qed.

(** Who is given the uploaded document. A call carries it exactly when
    the reference of its action compares equal, by [==], to the reference
    of the request. So an action with no reference of its own is given
    the document, unless the reference of the request is a NaN; an action
    pinned to a reference is given it only if the reference of the
    request is that same string; and when the reference of the request
    is a NaN, which differs from itself, no call is given the document. *)
Theorem document_forwarding question pricing_url yaml plan i c :
  generate_plan question pricing_url yaml = Ok (PDict plan) ->
  fst (handle_question question pricing_url yaml) !! i = Some c ->
  let url := plan_url plan pricing_url yaml in
  exists a,
    plan_actions plan !! i = Some a
    /\ call_yaml c = (if py_eq (action_url url a) url then yaml else None)
    /\ (truthy (of_opt (PlannedAction.pricing_url a)) = false ->
        (forall f, url = PFloat f -> (f =? f)%float = true) ->
        call_yaml c = yaml)
    /\ (forall own, PlannedAction.pricing_url a = Some own -> own <> "" ->
        (url = PStr own -> call_yaml c = yaml)
        /\ (url <> PStr own -> call_yaml c = None))
    /\ (forall f, url = PFloat f -> (f =? f)%float = false -> call_yaml c = None).
Proof.
  intros Hplan Hc url.
  destruct (handle_question_dispatch question pricing_url yaml plan Hplan i c Hc)
    as (a & Ha & _ & _ & Heq & _).
  fold url in Heq.
  assert (Hy : call_yaml c = if py_eq (action_url url a) url then yaml else None)
    by (by rewrite Heq, run_single_action_yaml).
  exists a. split; [done|]. split; [done|]. rewrite Hy. unfold action_url.
  split; [|split].
  - intros Hown Hnan. rewrite (py_or_false _ _ Hown). by rewrite py_eq_refl.
  - intros own Hown Hne. rewrite Hown. cbn [of_opt].
    rewrite py_or_true by (simpl; by destruct (String.eqb_spec own "")).
    split.
    + intros ->. by rewrite (proj2 (py_eq_string own (PStr own))).
    + intros Hdiff. destruct (py_eq (PStr own) url) eqn:E; [|done].
      by apply py_eq_string in E.
  - intros f Hf Hnan. rewrite Hf.
    destruct (PlannedAction.pricing_url a) as [own|]; cbn [of_opt]; unfold py_or.
    + by destruct (truthy (PStr own)); [|simpl; rewrite Hnan].
    + simpl. by rewrite Hnan.
Qed.

(** A failure of the workflow aborts the request: the call on which the
    workflow raises is the last call dispatched, and the request fails
    with that exception. *)
Theorem failure_aborts_request question pricing_url yaml plan i c e :
  generate_plan question pricing_url yaml = Ok (PDict plan) ->
  fst (handle_question question pricing_url yaml) !! i = Some c ->
  workflow (take i (fst (handle_question question pricing_url yaml))) c = Raise e ->
  length (fst (handle_question question pricing_url yaml)) = S i
  /\ snd (handle_question question pricing_url yaml) = Raise e.
Proof.
  intros Hplan Hc He.
  destruct (handle_question_dispatch question pricing_url yaml plan Hplan i c Hc)
    as (a & _ & _ & _ & _ & Hraise).
  by apply Hraise.
Qed.

(** A request that returns a response has passed the document check,
    and the context check unless its plan is empty. *)
Lemma handle_question_ok question pricing_url yaml plan calls resp :
  generate_plan question pricing_url yaml = Ok (PDict plan) ->
  handle_question question pricing_url yaml = (calls, Ok resp) ->
  _validate_yaml_requirement plan yaml = Ok ()
  /\ (plan_actions plan = []
      \/ _ensure_pricing_context (plan_actions plan) (plan_url plan pricing_url yaml) yaml
         = Ok ()).
Proof.
  intros Hplan. unfold PricingAgent.handle_question. rewrite Hplan.
  destruct (_validate_yaml_requirement plan yaml) as [[]|e0]; [|done].
  unfold _execute_actions.
  destruct (plan_actions plan) as [|a rest]; [by intros _; split; [|left]|].
  destruct (_ensure_pricing_context (a :: rest) _ yaml) as [[]|e1]; [|done].
  intros _. split; [done | by right].
Qed.

(** The result of a plan with two actions or more, on success: one call
    and one step record per action, in the order of the plan; record
    number [i] carries the index [i], the name of its action and the
    payload the workflow returned for its call; the [result] lists the
    action names, the records, and under [lastPayload] the payload of the
    last record unless it is [None]; the answer synthesis is given that
    same object. *)
Theorem aggregated_result question pricing_url yaml plan calls resp :
  generate_plan question pricing_url yaml = Ok (PDict plan) ->
  2 <= length (plan_actions plan) ->
  handle_question question pricing_url yaml = (calls, Ok resp) ->
  length calls = length (plan_actions plan)
  /\ exists steps last_step,
       last steps = Some last_step
       /\ length steps = length (plan_actions plan)
       /\ resp_result resp
          = PDict ([("actions",
                     PList (map (fun a => PStr (PlannedAction.name a)) (plan_actions plan)));
                    ("steps", PList (map PDict steps))]
                   ++ match dict_get "payload" last_step with
                      | PNone => []
                      | _ => [("lastPayload", dict_get "payload" last_step)]
                      end)
       /\ (forall i s, steps !! i = Some s ->
             exists a c payload,
               plan_actions plan !! i = Some a /\ calls !! i = Some c
               /\ workflow (take i calls) c = Ok payload
               /\ dict_get "index" s = PInt (Z.of_nat i)
               /\ dict_get "action" s = PStr (PlannedAction.name a)
               /\ dict_get "payload" s = payload)
       /\ generate_answer question plan (resp_result resp) = Ok (resp_answer resp).
Proof.
  intros Hplan Hlen Hok.
  destruct (handle_question_ok _ _ _ _ _ _ Hplan Hok) as [Hval [Hnil | Hctx]].
  { rewrite Hnil in Hlen. simpl in Hlen. lia. }
  assert (Hne : plan_actions plan <> []).
  { intros Hnil. rewrite Hnil in Hlen. simpl in Hlen. lia. }
  rewrite (handle_question_run question pricing_url yaml plan Hplan Hval Hne Hctx) in Hok.
  cbv zeta in Hok.
  destruct (execute_loop_run (plan_actions plan) 0 (plan_url plan pricing_url yaml)
              (plan_refresh plan) (plan_solver plan) (plan_filters plan)
              (plan_objective plan) yaml [] [] [] PNone) as (new & Hnew & _ & Hrun).
  cbv zeta in Hnew, Hrun.
  destruct (xloop _ _ _ _ _ _ _ _ _ _ _ _) as [calls' [[rs lp]|e]]; [|done].
  cbn [fst snd] in *. cbn [app] in Hnew. subst calls'.
  destruct (Hrun rs lp eq_refl) as (Hcalls & steps & Hrs & Hsl & Hsteps & Hlp).
  cbn [app] in Hrs. subst rs.
  destruct steps as [|s1 [|s2 steps]]; [simpl in Hsl; lia.. |].
  cbn [_compose_results_payload fst snd] in Hok.
  destruct (generate_answer question plan _) as [answer|e] eqn:Hgen; [|done].
  injection Hok as <- <-. split; [done|].
  destruct (last (s1 :: s2 :: steps)) as [last_step|] eqn:Hlast.
  2: { rewrite !last_cons in Hlast. by destruct (last steps). }
  exists (s1 :: s2 :: steps), last_step. split; [done|]. split; [done|].
  cbn [resp_result resp_answer]. rewrite <- Hlp. split; [done|]. split; [|done].
  intros i s Hs. destruct (Hsteps i s Hs) as (a & c & payload & Ha & Hc & Hw & Hi & Hn & Hp).
  exists a, c, payload. by rewrite Z.add_0_l in Hi.
Qed.

(** A plan with no valid action dispatches nothing and has no pricing
    context checked. The one check it goes through is the document
    requirement of the plan: if the plan requires an uploaded document
    and there is none, the request fails with the error of the
    requirement. Otherwise it is answered directly, with no reference
    and no document needed, and the result, for the caller and for the
    answer synthesis alike, is the empty shell with no steps. *)
Theorem empty_plan_answers_directly question pricing_url yaml plan :
  generate_plan question pricing_url yaml = Ok (PDict plan) ->
  plan_actions plan = [] ->
  handle_question question pricing_url yaml
  = ([], if truthy (dict_get "requires_uploaded_yaml" plan)
            && negb (truthy (of_opt yaml))
         then Raise (ValueError
           "The assistant needs a YAML pricing file to proceed. Please upload one and retry.")
         else
           answer ← generate_answer question plan (PDict [("steps", PList [])]);
           Ok {| resp_plan := plan;
                 resp_result := PDict [("steps", PList [])];
                 resp_answer := answer |}).
Proof.
  intros Hplan Hnil. unfold PricingAgent.handle_question, _validate_yaml_requirement.
  rewrite Hplan. destruct (truthy _ && negb _); [done|]. by rewrite Hnil.
Qed.
End AgentMore.

(** ** Normalization as a filter *)

Section NormalizationMore.
Import PricingAgent.

Lemma parse_action_entry_objective entry a :
  fst (_parse_action_entry entry) = Some a ->
  PlannedAction.objective a = None
  \/ PlannedAction.objective a = Some "minimize"
  \/ PlannedAction.objective a = Some "maximize".
Proof.
  destruct entry as [| | | |s| |d]; simpl; try done.
  - case_bool_decide; [|done]. intros [= <-]. by left.
  - destruct (dict_get "name" d) as [| | | |name| |]; try done.
    case_bool_decide; [|done].
    destruct (dict_get "objective" d) as [| | | |o| |];
      destruct (match py_or _ _ with PNone => _ | _ => _ end) as [u w2];
      try (intros [= <-]; by left).
    destruct (String.eqb_spec o "minimize") as [->|]; simpl.
    { intros [= <-]. by right; left. }
    destruct (String.eqb_spec o "maximize") as [->|]; simpl.
    { intros [= <-]. by right; right. }
    intros [= <-]. by left.
Qed.

(** The data invariant of a normalized plan: whatever the planner sent,
    every action kept has a name of the vocabulary and an objective that
    is absent, ["minimize"] or ["maximize"]; and normalization only
    selects: it keeps no more actions than the raw list has entries. *)
Theorem normalized_actions_wellformed raw :
  (forall a, a ∈ fst (_normalize_actions raw) ->
     PlannedAction.name a ∈ ALLOWED_ACTIONS
     /\ (PlannedAction.objective a = None
         \/ PlannedAction.objective a = Some "minimize"
         \/ PlannedAction.objective a = Some "maximize"))
  /\ (forall entries, raw = PList entries ->
        length (fst (_normalize_actions raw)) <= length entries).
Proof.
  split.
  - intros a Hin. split; [by apply (normalize_actions_allowed raw)|].
    destruct raw as [| | | | |entries|]; simpl in Hin; try (by apply elem_of_nil in Hin).
    induction entries as [|entry entries IH]; [by apply elem_of_nil in Hin|].
    rewrite normalize_entries_cons in Hin.
    destruct (fst (_parse_action_entry entry)) as [a'|] eqn:Hp; [|by apply IH].
    apply elem_of_cons in Hin as [->|Hin]; [|by apply IH].
    by apply (parse_action_entry_objective entry).
  - intros entries ->. simpl.
    induction entries as [|entry entries IH]; [done|].
    rewrite normalize_entries_cons.
    destruct (fst (_parse_action_entry entry)); simpl; lia.
Qed.

(** Valid plans pass unchanged: a list of bare names of the vocabulary
    normalizes to the actions of these names, in the same order, none
    with an objective or a reference of its own, and no warning is
    logged. *)
Theorem valid_names_kept names :
  Forall (fun name => name ∈ ALLOWED_ACTIONS) names ->
  _normalize_actions (PList (map PStr names))
  = (map (fun name => {| PlannedAction.name := name;
                         PlannedAction.objective := None;
                         PlannedAction.pricing_url := None |}) names, []).
Proof.
  intros Hall. simpl. induction Hall as [|name names Hname _ IH]; [done|].
  simpl. rewrite bool_decide_eq_true_2 by done. by rewrite IH.
Qed.
End NormalizationMore.

Lemma dispatch_follows_plan_witness :
  exists a,
    PricingAgent.plan_actions Sample.plan_shared !! 1 = Some a
    /\ PricingAgent.call_name
         (PricingAgent.run_optimal (PStr "https://example.org/pricing") None
            (PStr "minizinc") (PStr "maximize") false None)
       = PlannedAction.name a
    /\ PricingAgent.call_url
         (PricingAgent.run_optimal (PStr "https://example.org/pricing") None
            (PStr "minizinc") (PStr "maximize") false None)
       = PricingAgent.action_url
           (PricingAgent.plan_url Sample.plan_shared (Some "https://example.org/pricing") None) a
    /\ (forall url filters solver refresh y,
          PricingAgent.run_optimal (PStr "https://example.org/pricing") None
            (PStr "minizinc") (PStr "maximize") false None
          = PricingAgent.run_subscriptions url filters solver refresh y ->
          filters = PricingAgent.plan_filters Sample.plan_shared
          /\ solver = PricingAgent.plan_solver Sample.plan_shared)
    /\ (forall url filters solver objective refresh y,
          PricingAgent.run_optimal (PStr "https://example.org/pricing") None
            (PStr "minizinc") (PStr "maximize") false None
          = PricingAgent.run_optimal url filters solver objective refresh y ->
          filters = PricingAgent.plan_filters Sample.plan_shared
          /\ solver = PricingAgent.plan_solver Sample.plan_shared
          /\ objective = match PlannedAction.objective a with
                         | Some own => PStr own
                         | None => PricingAgent.plan_objective Sample.plan_shared
                         end).
Proof.
  apply (dispatch_follows_plan Sample.workflow (Sample.planner Sample.plan_shared)
           Sample.answerer "Which plan is the most expensive?"
           (Some "https://example.org/pricing") None Sample.plan_shared 1).
  - reflexivity.
  - by vm_compute.
Defined.

Lemma document_forwarding_witness :
  exists a,
    PricingAgent.plan_actions Sample.plan_pinned !! 1 = Some a
    /\ PricingAgent.call_yaml
         (PricingAgent.run_subscriptions (PStr "https://other.example.org/pricing") None
            (PStr "minizinc") false None)
       = (if py_eq
               (PricingAgent.action_url
                  (PricingAgent.plan_url Sample.plan_pinned
                     (Some "https://example.org/pricing") (Some "saasName: demo")) a)
               (PricingAgent.plan_url Sample.plan_pinned
                  (Some "https://example.org/pricing") (Some "saasName: demo"))
          then Some "saasName: demo" else None).
Proof.
  destruct (document_forwarding Sample.workflow (Sample.planner Sample.plan_pinned)
              Sample.answerer "What does it cost elsewhere?"
              (Some "https://example.org/pricing") (Some "saasName: demo")
              Sample.plan_pinned 1
              (PricingAgent.run_subscriptions (PStr "https://other.example.org/pricing")
                 None (PStr "minizinc") false None))
    as (a & Ha & Hy & _); [reflexivity | by vm_compute |].
  by exists a.
Defined.

Lemma failure_aborts_request_witness :
  length (fst (PricingAgent.handle_question Sample.workflow_fails
                 (Sample.planner Sample.plan_three) Sample.answerer
                 "What is the cheapest subscription?"
                 (Some "https://example.org/pricing") None)) = 1
  /\ snd (PricingAgent.handle_question Sample.workflow_fails
            (Sample.planner Sample.plan_three) Sample.answerer
            "What is the cheapest subscription?"
            (Some "https://example.org/pricing") None)
     = Raise (AnalysisError "Analysis job failed: solver crashed").
Proof.
  apply (failure_aborts_request Sample.workflow_fails (Sample.planner Sample.plan_three)
           Sample.answerer "What is the cheapest subscription?"
           (Some "https://example.org/pricing") None Sample.plan_three 0
           (PricingAgent.run_optimal (PStr "https://example.org/pricing") None
              (PStr "minizinc") (PStr "minimize") false None)).
  - reflexivity.
  - by vm_compute.
  - by vm_compute.
Defined.

Lemma aggregated_result_witness :
  length [PricingAgent.run_subscriptions (PStr "https://example.org/pricing") None
            (PStr "minizinc") true None;
          PricingAgent.run_optimal (PStr "https://example.org/pricing") None
            (PStr "minizinc") (PStr "maximize") false None]
  = length (PricingAgent.plan_actions Sample.plan_shared).
Proof.
  eapply proj1.
  apply (aggregated_result Sample.workflow (Sample.planner Sample.plan_shared)
           Sample.answerer "Which plan is the most expensive?"
           (Some "https://example.org/pricing") None Sample.plan_shared
           [PricingAgent.run_subscriptions (PStr "https://example.org/pricing") None
              (PStr "minizinc") true None;
            PricingAgent.run_optimal (PStr "https://example.org/pricing") None
              (PStr "minizinc") (PStr "maximize") false None]
           {| PricingAgent.resp_plan := Sample.plan_shared;
              PricingAgent.resp_result :=
                PDict
                  [("actions", PList [PStr "subscriptions"; PStr "optimal"]);
                   ("steps",
                    PList
                      [PDict
                         [("index", PInt 0); ("action", PStr "subscriptions");
                          ("payload", PDict [("cardinality", PInt 12)]);
                          ("url", PStr "https://example.org/pricing")];
                       PDict
                         [("index", PInt 1); ("action", PStr "optimal");
                          ("payload", PDict [("cardinality", PInt 12)]);
                          ("objective", PStr "maximize");
                          ("url", PStr "https://example.org/pricing")]]);
                   ("lastPayload", PDict [("cardinality", PInt 12)])];
              PricingAgent.resp_answer := "There are three plans." |}).
  - reflexivity.
  - vm_compute. lia.
  - by vm_compute.
Defined.

Lemma empty_plan_answers_directly_witness :
  PricingAgent.handle_question Sample.workflow (Sample.planner Sample.plan_empty)
    Sample.answerer "Compare the two products." None None
  = ([], answer ← Sample.answerer "Compare the two products." Sample.plan_empty
                    (PDict [("steps", PList [])]);
         Ok {| PricingAgent.resp_plan := Sample.plan_empty;
               PricingAgent.resp_result := PDict [("steps", PList [])];
               PricingAgent.resp_answer := answer |}).
Proof.
  apply (empty_plan_answers_directly Sample.workflow (Sample.planner Sample.plan_empty)
           Sample.answerer "Compare the two products." None None Sample.plan_empty).
  - reflexivity.
  - by vm_compute.
Defined.

Lemma valid_names_kept_witness :
  PricingAgent._normalize_actions (PList (map PStr ["optimal"; "summary"; "subscriptions"]))
  = ([Sample.optimal_action; Sample.summary_action; Sample.subscriptions_action], []).
Proof.
  apply (valid_names_kept ["optimal"; "summary"; "subscriptions"]).
  repeat constructor; by vm_compute.
Defined.

(** ** The agent on its language model *)

Section PlanningMore.
Import GeminiOpenAIClient.
Variable PLAN_SYSTEM_PROMPT : string.
Variable ANSWER_SYSTEM_PROMPT : string.
Variable _spec_excerpt : string.
Variable lower : string -> string.
Variable json_loads : string -> loaded.
Variable json_dumps : pyval -> string.
Variable json_dumps_text : pyval -> string.
Variable cfg : GeminiClientConfig.t.

Abbreviation plan_prompt := (AgentLLM.plan_prompt PLAN_SYSTEM_PROMPT _spec_excerpt lower).
Abbreviation answer_prompt :=
  (AgentLLM.answer_prompt ANSWER_SYSTEM_PROMPT _spec_excerpt lower json_dumps_text).
Abbreviation _generate_plan :=
  (AgentLLM._generate_plan PLAN_SYSTEM_PROMPT _spec_excerpt lower json_loads json_dumps cfg).
Abbreviation _generate_answer :=
  (AgentLLM._generate_answer ANSWER_SYSTEM_PROMPT _spec_excerpt lower json_loads json_dumps
     json_dumps_text cfg).
Abbreviation make_full_request :=
  (GeminiOpenAIClient.make_full_request cfg json_loads json_dumps).
Abbreviation agent_handle_question :=
  (AgentLLM.handle_question PLAN_SYSTEM_PROMPT ANSWER_SYSTEM_PROMPT _spec_excerpt lower
     json_loads json_dumps json_dumps_text cfg).

(** The planning run and the answering run are completion runs of five
    attempts at most. *)
Lemma generate_plan_run send question pricing_url yaml :
  _generate_plan send question pricing_url yaml
  = (fst (make_full_request send (plan_prompt question pricing_url yaml) 5 true),
     text ← snd (make_full_request send (plan_prompt question pricing_url yaml) 5 true);
     match json_loads text with
     | Parsed plan => Ok plan
     | JSONDecodeError => Raise AgentLLM.plan_parse_error
     | LoadError e => Raise e
     end).
Proof.
  unfold AgentLLM._generate_plan. by destruct (make_full_request _ _ _ _).
Qed.

(** A run that raises is exhausted, or its last attempt raised: the
    remote call did, or the parse of the text it had then. *)
Lemma loop_raise send attempts max_tries p json_output sent state e :
  snd (attempt_loop cfg json_loads json_dumps send attempts max_tries p json_output
         sent state) = Raise e ->
  e = exhausted
  \/ exists sent0 st,
       fst (attempt_loop cfg json_loads json_dumps send attempts max_tries p json_output
              sent state) = sent0 ++ [st]
       /\ (snd (_step_generation send sent0 st) = Raise e
           \/ exists st',
                snd (_step_generation send sent0 st) = Ok st'
                /\ _try_finalize json_loads json_dumps st' json_output = Raise e).
Proof.
  revert sent state. induction attempts as [|attempt rest IH]; intros sent state.
  { simpl. intros [= <-]. by left. }
  rewrite loop_unfold.
  destruct (snd (_step_generation send sent state)) as [state'|e0] eqn:Hstep.
  - destruct (_try_finalize json_loads json_dumps state' json_output)
      as [[r|]|e0] eqn:Hfin.
    + done.
    + destruct (attempt =? max_tries)%Z; [|apply IH]. simpl. intros [= <-]. by left.
    + simpl. intros [= <-]. right. exists sent, state. split; [done|].
      right. by exists state'.
  - simpl. intros [= <-]. right. exists sent, state. split; [done|]. by left.
Qed.

Lemma generate_answer_run send question plan payload :
  _generate_answer send question plan payload
  = (fst (make_full_request send (answer_prompt question plan payload) 5 false),
     response ← snd (make_full_request send (answer_prompt question plan payload) 5 false);
     Ok (if truthy (PStr response) then response else "No answer could be generated.")).
Proof.
  unfold AgentLLM._generate_answer. by destruct (make_full_request _ _ _ _).
Qed.

(** Planning has no parse failure of its own. The text a completion run
    returns in JSON mode is a re-serialization, so with a [json.dumps]
    whose output [json.loads] does not refuse with a [JSONDecodeError],
    [_generate_plan] never raises its own error for a plan it cannot
    interpret. An exception of [_generate_plan] is the exception of its
    completion run, or one that the parse of the re-serialization
    raises; an exception of the run is the exhaustion of the five
    attempts, the exception of the remote call of its last attempt, or
    the exception other than [JSONDecodeError] that the parse of the
    text of the last attempt raises. A plan returned is the value read
    back from the re-serialization of what the model's text parsed to.
    The run makes five completion calls at most. *)
Theorem plan_parse_never_fails send question pricing_url yaml :
  (forall v, json_loads (json_dumps v) <> JSONDecodeError) ->
  let run := make_full_request send (plan_prompt question pricing_url yaml) 5 true in
  fst (_generate_plan send question pricing_url yaml) = fst run
  /\ length (fst run) <= 5
  /\ (forall e, snd (_generate_plan send question pricing_url yaml) = Raise e ->
        snd run = Raise e
        \/ exists parsed,
             snd run = Ok (json_dumps parsed)
             /\ json_loads (json_dumps parsed) = LoadError e)
  /\ (forall e, snd run = Raise e ->
        e = exhausted
        \/ exists sent0 st,
             fst run = sent0 ++ [st]
             /\ (snd (_step_generation send sent0 st) = Raise e
                 \/ exists st',
                      snd (_step_generation send sent0 st) = Ok st'
                      /\ json_loads (accumulated st') = LoadError e))
  /\ (forall plan, snd (_generate_plan send question pricing_url yaml) = Ok plan ->
        exists st parsed,
          last (fst run) = Some st
          /\ snd run = Ok (json_dumps parsed)
          /\ json_loads (json_dumps parsed) = Parsed plan).
Proof.
  intros Hparse run. subst run. rewrite generate_plan_run. cbn [fst snd].
  generalize (plan_prompt question pricing_url yaml). intros p.
  split; [done|]. split.
  { apply (make_full_request_bounded cfg json_loads json_dumps send _ 5 true). }
  assert (Hraise : forall e, snd (make_full_request send p 5 true) = Raise e ->
            e = exhausted
            \/ exists sent0 st,
                 fst (make_full_request send p 5 true) = sent0 ++ [st]
                 /\ (snd (_step_generation send sent0 st) = Raise e
                     \/ exists st',
                          snd (_step_generation send sent0 st) = Ok st'
                          /\ json_loads (accumulated st') = LoadError e)).
  { intros e He. apply loop_raise in He as [->|(sent0 & st & Hfst & Hlast)]; [by left|].
    right. exists sent0, st. split; [done|].
    destruct Hlast as [Hcall|(st' & Hcall & Hfin)]; [by left|].
    right. exists st'. split; [done|]. simpl in Hfin.
    by destruct (json_loads (accumulated st')) as [v| |e0]; [| |injection Hfin as ->]. }
  pose proof (loop_ok cfg json_loads json_dumps send (range 1 (5 + 1)) 5 p true []
                {| prompt := p;
                   model := GeminiClientConfig.model cfg; accumulated := "";
                   finish_reason := ""; use_better_model := false |}) as Hok.
  fold (make_full_request send p 5 true) in Hok.
  destruct (snd (make_full_request send p 5 true)) as [text|e0]; cbn.
  - destruct (Hok text eq_refl) as (sent0 & st & st' & Hfst & _ & Hfin).
    simpl in Hfin. destruct (json_loads (accumulated st')) as [parsed| |e0]; [|done..].
    injection Hfin as <-. split; [|split; [done|]].
    + intros e He. right. exists parsed. split; [done|].
      destruct (json_loads (json_dumps parsed)) as [v| |e1] eqn:Hp; [done| |].
      * by apply Hparse in Hp.
      * by injection He as ->.
    + intros plan Hplan. exists st, parsed. rewrite Hfst, last_snoc.
      split; [done|]. split; [done|].
      destruct (json_loads (json_dumps parsed)) as [v| |e1] eqn:Hp; [|done..].
      by injection Hplan as ->.
  - split; [intros e [= <-]; by left|]. split; [|done]. apply Hraise.
Qed.

(** What the answer synthesis hands over, from a completion. *)
Lemma generate_answer_never_empty send question plan payload answer :
  snd (_generate_answer send question plan payload) = Ok answer ->
  answer <> ""
  /\ exists text,
       snd (make_full_request send (answer_prompt question plan payload) 5 false) = Ok text
       /\ answer = if String.eqb text "" then "No answer could be generated." else text.
Proof.
  rewrite generate_answer_run. cbn [snd].
  generalize (answer_prompt question plan payload). intros p.
  destruct (snd (make_full_request send p 5 false)) as [text|e]; [|done].
  cbn. intros [= <-]. split; [|exists text; split; [done|]].
  - destruct (String.eqb_spec text ""); simpl; [done|done].
  - by destruct (String.eqb text "").
Qed.

(** The answer of a response is what the answer synthesis returned for
    its plan and some payload. *)
Lemma handle_question_answer workflow generate_plan generate_answer
  question pricing_url yaml calls resp :
  PricingAgent.handle_question workflow generate_plan generate_answer
    question pricing_url yaml = (calls, Ok resp) ->
  exists payload,
    generate_answer question (PricingAgent.resp_plan resp) payload
    = Ok (PricingAgent.resp_answer resp).
Proof.
  unfold PricingAgent.handle_question.
  destruct (generate_plan question pricing_url yaml) as [[| | | | | |plan]|e]; try done.
  destruct (PricingAgent._validate_yaml_requirement plan yaml) as [[]|e]; [|done].
  cbv zeta.
  destruct (PricingAgent._execute_actions _ _ _ _ _ _ _ _) as [calls' [[results lp]|e]];
    [|done].
  destruct (PricingAgent._compose_results_payload _ _ _) as [payload rp].
  destruct (generate_answer question plan payload) as [answer|e] eqn:Hanswer; [|done].
  cbn. intros [= _ <-]. by exists payload.
Qed.

(** A response never carries an empty answer: the answer is the text of
    the answering run of the request, a run in plain mode on a prompt
    built from the plan of the response, or the fixed sentence when that
    text is empty. *)
Theorem response_answer_never_empty workflow plan_model answer_model
  question pricing_url yaml calls resp :
  agent_handle_question workflow plan_model answer_model question pricing_url yaml
  = (calls, Ok resp) ->
  PricingAgent.resp_answer resp <> ""
  /\ exists payload text,
       snd (make_full_request answer_model
              (answer_prompt question (PricingAgent.resp_plan resp) payload) 5 false)
       = Ok text
       /\ PricingAgent.resp_answer resp
          = if String.eqb text "" then "No answer could be generated." else text.
Proof.
  intros Hok. unfold AgentLLM.handle_question in Hok.
  apply handle_question_answer in Hok as [payload Hanswer].
  apply generate_answer_never_empty in Hanswer as [Hne (text & Hrun & Htext)].
  split; [done|]. by exists payload, text.
Qed.
End PlanningMore.

(** ** The entry points *)

Section EndpointsMore.
Import PricingAgent Endpoints.
Variable py_repr : pyval -> string.
Variable foreign_str : string -> string.
Variable foreign_is_value_error : string -> bool.
Variable HttpUrl : Type.
Variable str_url : HttpUrl -> string.

Abbreviation is_value_error := (Endpoints.is_value_error foreign_is_value_error).
Abbreviation str_exn := (Endpoints.str_exn py_repr foreign_str).
Abbreviation chat :=
  (Endpoints.chat py_repr foreign_str foreign_is_value_error HttpUrl str_url).

(** [chat] on a question that is not blank. *)
Lemma chat_run handler question pricing_url pricing_yaml :
  Str.strip question <> "" ->
  chat handler question pricing_url pricing_yaml
  = let run := handler (Str.strip question) (str_url <$> pricing_url)
                 (request_yaml pricing_yaml) in
    (fst run,
     match snd run with
     | Raise exc => HTTPException (if is_value_error exc then 400 else 502) (str_exn exc)
     | Ok resp => ChatResponse (resp_answer resp) (resp_plan resp) (resp_result resp)
     end).
Proof.
  intros Hq. unfold Endpoints.chat. simpl.
  destruct (String.eqb_spec (Str.strip question) ""); [done|]. simpl.
  destruct (handler _ _ _) as [calls [resp|exc]]; [done|].
  simpl. by destruct (is_value_error exc).
Qed.

(** A request without the context an action needs fails with a
    [ValueError] and dispatches nothing. *)
Lemma handle_question_missing_context workflow generate_plan generate_answer
  question pricing_url yaml plan a :
  generate_plan question pricing_url yaml = Ok (PDict plan) ->
  a ∈ plan_actions plan ->
  truthy (action_url (plan_url plan pricing_url yaml) a) = false ->
  truthy (of_opt yaml) = false ->
  exists msg,
    handle_question workflow generate_plan generate_answer question pricing_url yaml
    = ([], Raise (ValueError msg)).
Proof.
  intros Hplan Hin Hurl Hyaml. unfold handle_question. rewrite Hplan.
  unfold _validate_yaml_requirement.
  destruct (truthy (dict_get "requires_uploaded_yaml" plan) && _); [eauto|].
  assert (Hname : PlannedAction.name a ∈ ALLOWED_ACTIONS)
    by (by apply (normalize_actions_allowed (dict_get "actions" plan))).
  destruct (ensure_pricing_context_raises (plan_actions plan)
              (plan_url plan pricing_url yaml) yaml a Hin Hname) as [msg Hraise].
  { by rewrite truthy_py_or, Hurl, Hyaml. }
  exists msg. unfold _execute_actions. rewrite Hraise.
  destruct (plan_actions plan); [by apply elem_of_nil in Hin | done].
Qed.

Section Chat.
Variable workflow : list wf_call -> wf_call -> result pyval.
Variable generate_plan : string -> option string -> option string -> result pyval.
Variable generate_answer : string -> pydict -> pyval -> result string.

Abbreviation handle_question :=
  (PricingAgent.handle_question workflow generate_plan generate_answer).


End Chat.
End EndpointsMore.

(** ** A chat request whose planning fails *)

Section ChatPlanning.
Import GeminiOpenAIClient PricingAgent Endpoints.
Variable PLAN_SYSTEM_PROMPT : string.
Variable ANSWER_SYSTEM_PROMPT : string.
Variable _spec_excerpt : string.
Variable lower : string -> string.
Variable json_loads : string -> loaded.
Variable json_dumps : pyval -> string.
Variable json_dumps_text : pyval -> string.
Variable cfg : GeminiClientConfig.t.
Variable py_repr : pyval -> string.
Variable foreign_str : string -> string.
Variable foreign_is_value_error : string -> bool.
Variable HttpUrl : Type.
Variable str_url : HttpUrl -> string.
Variable workflow : list wf_call -> wf_call -> result pyval.
Variable plan_model : list (string * string) -> string -> string -> result (string * string).
Variable answer_model : list (string * string) -> string -> string -> result (string * string).

Abbreviation plan_prompt := (AgentLLM.plan_prompt PLAN_SYSTEM_PROMPT _spec_excerpt lower).
Abbreviation make_full_request :=
  (GeminiOpenAIClient.make_full_request cfg json_loads json_dumps).
Abbreviation handle_question :=
  (AgentLLM.handle_question PLAN_SYSTEM_PROMPT ANSWER_SYSTEM_PROMPT _spec_excerpt lower
     json_loads json_dumps json_dumps_text cfg workflow plan_model answer_model).
Abbreviation chat :=
  (Endpoints.chat py_repr foreign_str foreign_is_value_error HttpUrl str_url handle_question).

(** A request whose planning run raises fails with that exception and
    dispatches nothing; so does a request whose plan is no JSON object,
    with an [AttributeError]. *)
Lemma handle_question_planning question pricing_url yaml :
  let run := make_full_request plan_model (plan_prompt question pricing_url yaml) 5 true in
  (forall exc, snd run = Raise exc ->
     handle_question question pricing_url yaml = ([], Raise exc))
  /\ (forall text v, snd run = Ok text -> json_loads text = Parsed v ->
        (forall plan, v <> PDict plan) ->
        exists msg, handle_question question pricing_url yaml
                    = ([], Raise (AttributeError msg))).
Proof.
  intros run. subst run.
  unfold AgentLLM.handle_question, PricingAgent.handle_question.
  rewrite generate_plan_run. cbn [snd].
  generalize (plan_prompt question pricing_url yaml). intros p. split.
  - by intros exc ->.
  - intros text v -> Hv Hplan. cbn. rewrite Hv.
    destruct v as [| | | | | |plan]; eauto. by destruct (Hplan plan).
Qed.

(** A run whose first response has a text on which the parse raises
    another exception than [JSONDecodeError] ends there, with it. *)
Lemma first_parse_raises p text reason e :
  plan_model [] p (GeminiClientConfig.model cfg) = Ok (text, reason) ->
  json_loads (_normalize_response text) = LoadError e ->
  snd (make_full_request plan_model p 5 true) = Raise e.
Proof.
  intros Hsend Hload. unfold GeminiOpenAIClient.make_full_request.
  rewrite (range_cons 1) by lia. rewrite loop_unfold.
  simpl. rewrite Hsend. simpl.
  change ("" +:+ _normalize_response text) with (_normalize_response text).
  by rewrite Hload.
Qed.

End ChatPlanning.

Lemma plan_parse_never_fails_witness :
  exists st parsed,
    last (fst (GeminiOpenAIClient.make_full_request Sample.config Sample.json_loads_plan
                 Sample.json_dumps Sample.plans_at_once
                 (AgentLLM.plan_prompt Sample.PLAN_SYSTEM_PROMPT Sample.spec_excerpt
                    Sample.lower "What is the YAML Schema?"
                    (Some "https://example.org/pricing") (Some "saasName: demo"))
                 5 true)) = Some st
    /\ snd (GeminiOpenAIClient.make_full_request Sample.config Sample.json_loads_plan
              Sample.json_dumps Sample.plans_at_once
              (AgentLLM.plan_prompt Sample.PLAN_SYSTEM_PROMPT Sample.spec_excerpt
                 Sample.lower "What is the YAML Schema?"
                 (Some "https://example.org/pricing") (Some "saasName: demo"))
              5 true) = Ok (Sample.json_dumps parsed)
    /\ Sample.json_loads_plan (Sample.json_dumps parsed)
       = Parsed (PDict Sample.plan_summary).
Proof.
  pose proof (plan_parse_never_fails Sample.PLAN_SYSTEM_PROMPT Sample.spec_excerpt
                Sample.lower Sample.json_loads_plan Sample.json_dumps Sample.config
                Sample.plans_at_once "What is the YAML Schema?"
                (Some "https://example.org/pricing") (Some "saasName: demo")) as H.
  cbv zeta in H. apply H; [intros v; by vm_compute | by vm_compute].
Defined.

Lemma response_answer_never_empty_witness :
  "No answer could be generated." <> "".
Proof.
  eapply proj1.
  apply (response_answer_never_empty Sample.PLAN_SYSTEM_PROMPT Sample.ANSWER_SYSTEM_PROMPT
           Sample.spec_excerpt Sample.lower Sample.json_loads_plan Sample.json_dumps
           Sample.json_dumps Sample.config Sample.workflow Sample.plans_at_once
           Sample.answers_nothing "How many plans are there?"
           (Some "https://example.org/pricing") None
           [PricingAgent.run_summary (PStr "https://example.org/pricing") None true]
           {| PricingAgent.resp_plan := Sample.plan_summary;
              PricingAgent.resp_result :=
                PDict [("index", PInt 0); ("action", PStr "summary");
                       ("payload", PDict [("summary", PStr "three plans")]);
                       ("url", PStr "https://example.org/pricing")];
              PricingAgent.resp_answer := "No answer could be generated." |}).
  by vm_compute.
Defined.




(** ** Cleaning a response *)

Section StringFacts.
Import Str.

Lemma append_cons c (s t : string) : String c s +:+ t = String c (s +:+ t).
Proof. reflexivity. Qed.

Lemma append_assoc (s t u : string) : (s +:+ t) +:+ u = s +:+ (t +:+ u).
Proof. induction s as [|c s IH]; [done|]. by rewrite !append_cons, IH. Qed.

Lemma append_nil_r (s : string) : s +:+ "" = s.
Proof. induction s as [|c s IH]; [done|]. by rewrite append_cons, IH. Qed.

Lemma rev_app_append (s t u : string) :
  String.rev_app s t +:+ u = String.rev_app s (t +:+ u).
Proof. revert t. induction s as [|c s IH]; intros t; [done|]. cbn. by rewrite IH. Qed.

Lemma rev_app_rev (s t : string) : String.rev_app s t = String.rev s +:+ t.
Proof. unfold String.rev. by rewrite rev_app_append. Qed.

Lemma rev_cons (c : Ascii.ascii) (s : string) :
  String.rev (String c s) = String.rev s +:+ String c "".
Proof. unfold String.rev at 1. cbn. by rewrite rev_app_rev. Qed.

Lemma rev_append (s t : string) : String.rev (s +:+ t) = String.rev t +:+ String.rev s.
Proof.
  induction s as [|c s IH]; [by rewrite append_nil_r|].
  by rewrite append_cons, !rev_cons, IH, append_assoc.
Qed.

Lemma rev_involutive (s : string) : String.rev (String.rev s) = s.
Proof.
  induction s as [|c s IH]; [done|]. by rewrite rev_cons, rev_append, IH.
Qed.

Lemma prefix_append (p s : string) : String.prefix p (p +:+ s) = true.
Proof.
  induction p as [|c p IH]; [by destruct s|].
  rewrite append_cons. simpl. by destruct (Ascii.ascii_dec c c).
Qed.

(** [lstrip] removes a prefix, leaves no white space in front, and
    leaves alone a string with none in front. *)
Lemma lstrip_suffix (s : string) : exists w, s = w +:+ lstrip s.
Proof.
  induction s as [|c s [w IH]]; [by exists ""|]. cbn [lstrip].
  destruct (isspace c); [|by exists ""].
  exists (String c w). by rewrite append_cons, <- IH.
Qed.

Lemma lstrip_head (s : string) c t : lstrip s = String c t -> isspace c = false.
Proof.
  induction s as [|c' s IH]; [done|]. cbn [lstrip].
  destruct (isspace c') eqn:Hc; [done|]. by intros [= <- _].
Qed.

Lemma lstrip_fixed c t : isspace c = false -> lstrip (String c t) = String c t.
Proof. intros Hc. cbn [lstrip]. by rewrite Hc. Qed.

Lemma lstrip_lstrip (s : string) : lstrip (lstrip s) = lstrip s.
Proof.
  destruct (lstrip s) as [|c t] eqn:Hs; [done|].
  apply lstrip_fixed. by apply (lstrip_head s c t).
Qed.

(** A string with no white space at either end is stripped already. *)
Lemma strip_fixed (s : string) :
  lstrip s = s -> lstrip (String.rev s) = String.rev s -> strip s = s.
Proof. intros H1 H2. unfold strip. by rewrite H1, H2, rev_involutive. Qed.

Lemma strip_ends (s : string) :
  lstrip (strip s) = strip s /\ lstrip (String.rev (strip s)) = String.rev (strip s).
Proof.
  unfold strip. rewrite rev_involutive, lstrip_lstrip. split; [|done].
  destruct (lstrip_suffix (String.rev (lstrip s))) as [w Hw].
  set (z := lstrip (String.rev (lstrip s))) in *.
  assert (Hx : lstrip s = String.rev z +:+ String.rev w).
  { by rewrite <- rev_append, <- Hw, rev_involutive. }
  destruct (String.rev z) as [|c t] eqn:Hz; [done|].
  apply lstrip_fixed. rewrite append_cons in Hx. by apply (lstrip_head s c _ Hx).
Qed.

Lemma strip_strip (s : string) : strip (strip s) = strip s.
Proof. destruct (strip_ends s). by apply strip_fixed. Qed.

(** [splitlines] on text made of lines. *)
Lemma one_line_cons c s : one_line (String c s) -> is_linebreak c = false /\ one_line s.
Proof.
  intros H. split; [apply H; by left|]. intros c' Hc'. apply H. by right.
Qed.

Lemma not_linebreak_not_CR c : is_linebreak c = false -> Ascii.eqb c CR = false.
Proof.
  intros Hc. destruct (Ascii.eqb_spec c CR) as [->|]; [|done].
  by vm_compute in Hc.
Qed.

Lemma splitlines_go_line cur l rest :
  one_line l ->
  splitlines_go cur (l +:+ String LF rest)
  = (String.rev cur +:+ l) :: splitlines_go "" rest.
Proof.
  revert cur. induction l as [|c l IH]; intros cur Hl.
  - by rewrite append_nil_r.
  - apply one_line_cons in Hl as [Hc Hl]. rewrite append_cons. cbn [splitlines_go].
    rewrite (not_linebreak_not_CR c Hc), Hc, (IH _ Hl), rev_cons, append_assoc.
    done.
Qed.

Lemma splitlines_go_last cur l :
  one_line l -> cur <> "" \/ l <> "" ->
  splitlines_go cur l = [String.rev cur +:+ l].
Proof.
  revert cur. induction l as [|c l IH]; intros cur Hl Hne.
  - rewrite append_nil_r. destruct Hne as [Hne|]; [|done]. by destruct cur.
  - apply one_line_cons in Hl as [Hc Hl]. cbn [splitlines_go].
    rewrite (not_linebreak_not_CR c Hc), Hc, (IH _ Hl) by (by left).
    by rewrite rev_cons, append_assoc.
Qed.

Lemma splitlines_go_lines lines last_line :
  Forall one_line lines -> one_line last_line -> last_line <> "" ->
  splitlines_go "" (foldr (fun l rest => l +:+ String LF rest) last_line lines)
  = lines ++ [last_line].
Proof.
  intros Hlines Hlast Hne. induction Hlines as [|l lines Hl _ IH]; simpl.
  - by rewrite (splitlines_go_last "" last_line Hlast) by (by right).
  - by rewrite (splitlines_go_line "" l _ Hl), IH.
Qed.

Lemma slice_1_m1_middle {A} (x y : A) (l : list A) : slice_1_m1 (x :: l ++ [y]) = l.
Proof.
  unfold slice_1_m1. rewrite length_cons, length_app. simpl.
  replace (length l + 1 - 0) with (S (length l)) by lia.
  simpl. by rewrite take_app_length.
Qed.
End StringFacts.

Section NormalizeMore.
Import Str GeminiOpenAIClient.

(** A cleaned response has no white space at either end, fenced or not:
    stripping it again changes nothing, its first character is no white
    space and neither is its last. So the pieces a run accumulates are
    joined with nothing between them. *)
Theorem normalize_response_clean r :
  strip (_normalize_response r) = _normalize_response r
  /\ (forall c t, _normalize_response r = String c t -> isspace c = false)
  /\ (forall c t, _normalize_response r = t +:+ String c "" -> isspace c = false).
Proof.
  assert (Hstrip : exists s, _normalize_response r = strip s).
  { unfold _normalize_response. destruct (_ && _); eauto. }
  destruct Hstrip as [s ->]. destruct (strip_ends s) as [Hl Hr].
  split; [apply strip_strip|]. split.
  - intros c t Hs. rewrite Hs in Hl. by apply (lstrip_head _ c t Hl).
  - intros c t Hs. rewrite Hs, rev_append in Hr. cbn in Hr.
    by apply (lstrip_head _ c _ Hr).
Qed.

(** A fence on one line loses its content: a response that, stripped,
    starts and ends with the fence marker and has no line boundary in it
    is cleaned to the empty text, whatever stands between the markers. *)
Theorem fence_on_one_line r :
  startswith (strip r) "```" = true -> endswith (strip r) "```" = true ->
  one_line (strip r) ->
  _normalize_response r = "".
Proof.
  intros Hs He Hone. unfold _normalize_response. rewrite Hs, He. simpl.
  unfold splitlines. rewrite (splitlines_go_last "" _ Hone).
  - done.
  - right. intros Hempty. by rewrite Hempty in Hs.
Qed.

(** A fenced block gives its body: for a response made of an opening
    fence with any tag on its line, body lines, and the closing fence,
    the cleaned text is the body lines joined by line feeds and
    stripped; the fence lines and the tag are dropped. *)
Theorem fenced_block_body tag lines :
  one_line tag -> Forall one_line lines ->
  _normalize_response
    ("```" +:+ tag +:+ String LF (foldr (fun l rest => l +:+ String LF rest) "```" lines))
  = strip (join (String LF "") lines).
Proof.
  intros Htag Hlines.
  set (body := foldr (fun l rest => l +:+ String LF rest) "```" lines).
  assert (Hfence : one_line "```") by (intros c [<-|[<-|[<-|[]]]]; done).
  assert (Hend : exists front, body = front +:+ "```").
  { subst body. clear Hlines. induction lines as [|l lines [front IH]]; simpl.
    - by exists "".
    - exists (l +:+ String LF front). by rewrite IH, append_assoc, append_cons. }
  destruct Hend as [front Hfront].
  assert (Hrev : String.rev ("```" +:+ tag +:+ String LF body)
                 = "```" +:+ String.rev ("```" +:+ tag +:+ String LF front)).
  { rewrite Hfront.
    replace ("```" +:+ tag +:+ String LF (front +:+ "```"))
      with (("```" +:+ tag +:+ String LF front) +:+ "```")
      by (by rewrite !append_assoc, append_cons).
    by rewrite rev_append. }
  assert (Hstrip : strip ("```" +:+ tag +:+ String LF body)
                   = "```" +:+ tag +:+ String LF body).
  { apply strip_fixed; [done|]. by rewrite Hrev. }
  unfold _normalize_response. rewrite Hstrip.
  unfold startswith, endswith. rewrite Hrev, !prefix_append.
  simpl andb. cbv iota. unfold splitlines.
  replace ("```" +:+ tag +:+ String LF body)
    with (("```" +:+ tag) +:+ String LF body) by (by rewrite append_assoc).
  rewrite splitlines_go_line.
  2: { intros c [<-|[<-|[<-|Hc]]]; try done. by apply Htag. }
  subst body. rewrite (splitlines_go_lines lines "```" Hlines Hfence) by done.
  by rewrite slice_1_m1_middle.
Qed.
End NormalizeMore.

Lemma fence_on_one_line_witness :
  GeminiOpenAIClient._normalize_response " ```[1, 2]``` " = "".
Proof.
  apply (fence_on_one_line " ```[1, 2]``` "); [reflexivity | reflexivity |].
  intros c Hc. vm_compute in Hc.
  repeat (destruct Hc as [<-|Hc]; [reflexivity|]). destruct Hc.
Defined.

Lemma fenced_block_body_witness :
  GeminiOpenAIClient._normalize_response
    ("```" +:+ "json" +:+
     String Str.LF (foldr (fun l rest => l +:+ String Str.LF rest) "```" ["[1,"; " 2]"]))
  = Str.strip (Str.join (String Str.LF "") ["[1,"; " 2]"]).
Proof.
  apply (fenced_block_body "json" ["[1,"; " 2]"]).
  - intros c Hc. vm_compute in Hc.
    repeat (destruct Hc as [<-|Hc]; [reflexivity|]). destruct Hc.
  - repeat constructor; intros c Hc; vm_compute in Hc;
      repeat (destruct Hc as [<-|Hc]; [reflexivity|]); destruct Hc.
Defined.
